(** * Question-to-answer pipeline of the complaints chatbot

    A shallow embedding of [backend/sql_agent.py] and of the query executor
    of [backend/database.py], together with the properties of the pipeline
    that the specification states about them.

    Conventions of the embedding.

    - A Python [str] is a list of 8-bit characters ([str]).  Characters of
      the ASCII range behave as in Python ([upper], [lower], [isspace] and
      the regular-expression classes [\s], [\d], [\w], [[a-z]]); characters
      above 127 are inert: they are neither letters, digits nor blanks and
      no case mapping touches them.  Literals of the source that hold
      non-ASCII text are carried as their UTF-8 bytes.
    - The regular expressions of the source are transcribed into a small
      abstract syntax ([regex]) and run by a matcher that lists the matches
      at a position in the order in which Python's backtracking engine
      tries them; every quantifier of the source ranges over a single
      character class, which is what the syntax offers.
    - The completion service, the JSON decoder and the analytical store are
      outside the repository: they are variables of the sections below. *)

From Stdlib Require Import List Ascii String ZArith NArith Lia Bool Arith.
Import ListNotations.

Set Implicit Arguments.
Set Warnings "-register-all".

(* ================================================================== *)
(** * Python strings *)
(* ================================================================== *)

Module PyStr.

Definition str := list ascii.

Definition py (s : string) : str := list_ascii_of_string s.
Arguments py s%_string : simpl never.

Definition code (c : ascii) : N := N_of_ascii c.

Definition between (lo hi : N) (c : ascii) : bool :=
  (N.leb lo (code c) && N.leb (code c) hi)%bool.

Definition is_upper_c (c : ascii) : bool := between 65 90 c.
Definition is_lower_c (c : ascii) : bool := between 97 122 c.
Definition is_alpha_c (c : ascii) : bool := is_upper_c c || is_lower_c c.
Definition is_digit_c (c : ascii) : bool := between 48 57 c.
Definition is_underscore (c : ascii) : bool := N.eqb (code c) 95.

(** [str.isspace] on the ASCII range, which is also the class [\s]. *)
Definition is_space_c (c : ascii) : bool :=
  between 9 13 c || between 28 32 c.

(** The class [\w]. *)
Definition is_word_c (c : ascii) : bool :=
  is_alpha_c c || is_digit_c c || is_underscore c.

Definition upper_c (c : ascii) : ascii :=
  if is_lower_c c then ascii_of_N (code c - 32) else c.

Definition lower_c (c : ascii) : ascii :=
  if is_upper_c c then ascii_of_N (code c + 32) else c.

Definition upper (s : str) : str := map upper_c s.
Definition lower (s : str) : str := map lower_c s.

Definition chr_eqb (a b : ascii) : bool := Ascii.eqb a b.

Fixpoint str_eqb (a b : str) : bool :=
  match a, b with
  | [], [] => true
  | x :: a', y :: b' => chr_eqb x y && str_eqb a' b'
  | _, _ => false
  end.

(** [s.startswith(p)] *)
Fixpoint startswith (p s : str) : bool :=
  match p, s with
  | [], _ => true
  | x :: p', y :: s' => chr_eqb x y && startswith p' s'
  | _ :: _, [] => false
  end.

(** [sub in s] *)
Fixpoint contains (sub s : str) : bool :=
  startswith sub s ||
  match s with
  | [] => false
  | _ :: s' => contains sub s'
  end.

(** [s.index(sub)], [None] standing for the [ValueError] of an absent
    substring. *)
Fixpoint index (sub s : str) : option nat :=
  if startswith sub s then Some 0
  else match s with
       | [] => None
       | _ :: s' => option_map S (index sub s')
       end.

Fixpoint drop_while (p : ascii -> bool) (s : str) : str :=
  match s with
  | [] => []
  | c :: s' => if p c then drop_while p s' else s
  end.

Definition lstrip_by (p : ascii -> bool) (s : str) : str := drop_while p s.
Definition rstrip_by (p : ascii -> bool) (s : str) : str :=
  rev (drop_while p (rev s)).

(** [s.strip()] and [s.rstrip(';')] *)
Definition strip (s : str) : str := rstrip_by is_space_c (lstrip_by is_space_c s).
Definition rstrip_semi (s : str) : str := rstrip_by (chr_eqb ";"%char) s.

(** The double quote, and [s.strip] of double quotes. *)
Definition dquote : ascii := ascii_of_nat 34.

Definition strip_quote (s : str) : str :=
  rstrip_by (chr_eqb dquote) (lstrip_by (chr_eqb dquote) s).

(** [s.replace(old, new)] for a non-empty [old]: occurrences are replaced
    from left to right without overlap.  [skip] counts the characters of
    an occurrence that remain to be passed over. *)
Fixpoint replace_go (old new : str) (skip : nat) (s : str) : str :=
  match skip with
  | S k => match s with
           | [] => []
           | _ :: s' => replace_go old new k s'
           end
  | O =>
      match s with
      | [] => []
      | c :: s' =>
          if startswith old s
          then new ++ replace_go old new (List.length old - 1) s'
          else c :: replace_go old new 0 s'
      end
  end.

Definition replace (old new s : str) : str := replace_go old new 0 s.

(** [sep.join(parts)] *)
Fixpoint join (sep : str) (parts : list str) : str :=
  match parts with
  | [] => []
  | [p] => p
  | p :: rest => p ++ sep ++ join sep rest
  end.

(** Decimal numerals: [int(digits)] and [str(n)]. *)
Definition digit_val (c : ascii) : Z := Z.of_N (code c) - 48.

Definition int_of_digits (ds : str) : Z :=
  fold_left (fun acc c => 10 * acc + digit_val c)%Z ds 0%Z.

Definition digit_chr (d : nat) : ascii := ascii_of_nat (48 + d).

Fixpoint nat_digits (fuel n : nat) (acc : str) : str :=
  match fuel with
  | O => acc
  | S fuel' =>
      let acc' := digit_chr (n mod 10) :: acc in
      if n / 10 =? 0 then acc' else nat_digits fuel' (n / 10) acc'
  end.

Definition str_of_nat (n : nat) : str := nat_digits (S n) n [].

Definition str_of_Z (z : Z) : str :=
  match z with
  | Zneg _ => "-"%char :: str_of_nat (Z.to_nat (- z))
  | _ => str_of_nat (Z.to_nat z)
  end.

End PyStr.
Export PyStr.

(* ================================================================== *)
(** * Regular expressions *)
(* ================================================================== *)

Module Re.

(** The fragment of Python's [re] syntax that the source uses. *)
Inductive regex : Type :=
| REps                                   (* the empty pattern *)
| RChr (p : ascii -> bool)               (* one character of a class *)
| RSeq (r1 r2 : regex)                   (* r1 r2 *)
| RAlt (r1 r2 : regex)                   (* r1|r2 *)
| RStar (greedy : bool) (p : ascii -> bool)  (* c* and c*? *)
| RBol (multiline : bool)                (* ^ *)
| REol                                   (* $ *)
| RWordB                                 (* \b *)
| RLook (r : regex)                      (* (?=r) *)
| RGrp (n : nat) (r : regex).            (* a capturing group *)

(** A match at a position: how many characters it takes and what its
    groups captured. *)
Definition groups := list (nat * str).
Definition mres := (nat * groups)%type.

Fixpoint run (p : ascii -> bool) (s : str) : nat :=
  match s with
  | c :: s' => if p c then S (run p s') else 0
  | [] => 0
  end.

Definition head_is (p : ascii -> bool) (s : str) : bool :=
  match s with
  | c :: _ => p c
  | [] => false
  end.

Definition is_newline (c : ascii) : bool := N.eqb (code c) 10.

(** A match [m2] that follows a match [m1]. *)
Definition after (m1 m2 : mres) : mres :=
  (fst m1 + fst m2, snd m1 ++ snd m2).

(** [matches r pre suf]: the matches of [r] at the position that has
    [pre] (nearest character first) before it and [suf] after it, in the
    order of preference of a backtracking matcher. *)
Fixpoint matches (r : regex) (pre suf : str) : list mres :=
  match r with
  | REps => [(0, [])]
  | RChr p => if head_is p suf then [(1, [])] else []
  | RSeq r1 r2 =>
      flat_map
        (fun m1 : mres =>
           map (after m1)
               (matches r2 (rev (firstn (fst m1) suf) ++ pre)
                        (skipn (fst m1) suf)))
        (matches r1 pre suf)
  | RAlt r1 r2 => matches r1 pre suf ++ matches r2 pre suf
  | RStar greedy p =>
      let lens := seq 0 (S (run p suf)) in
      map (fun k => (k, [])) (if greedy then rev lens else lens)
  | RBol multiline =>
      match pre with
      | [] => [(0, [])]
      | c :: _ => if multiline && is_newline c then [(0, [])] else []
      end
  | REol =>
      match suf with
      | [] => [(0, [])]
      | [c] => if is_newline c then [(0, [])] else []
      | _ => []
      end
  | RWordB =>
      if xorb (head_is is_word_c pre) (head_is is_word_c suf)
      then [(0, [])] else []
  | RLook r' =>
      match matches r' pre suf with
      | [] => []
      | _ :: _ => [(0, [])]
      end
  | RGrp n r' =>
      map (fun m : mres => let (k, g) := m in (k, (n, firstn k suf) :: g))
          (matches r' pre suf)
  end.

Definition matcher := str -> str -> option mres.

Definition match_at (r : regex) : matcher :=
  fun pre suf => hd_error (matches r pre suf).

(** [m.group(n)] *)
Fixpoint group (n : nat) (g : groups) : str :=
  match g with
  | [] => []
  | (k, s) :: g' => if Nat.eqb k n then s else group n g'
  end.

(** [re.search]: the leftmost position with a match; the result is the
    offset, the length and the groups. *)
Fixpoint search_from (m : matcher) (pre suf : str) : option (nat * nat * groups) :=
  match m pre suf with
  | Some (n, g) => Some (List.length pre, n, g)
  | None =>
      match suf with
      | [] => None
      | c :: suf' => search_from m (c :: pre) suf'
      end
  end.

Definition search (r : regex) (s : str) : option (nat * nat * groups) :=
  search_from (match_at r) [] s.

(** [re.sub]: every match, from left to right and without overlap, is
    replaced by [repl] of the matched text and its groups.  None of the
    patterns of the source can match the empty string, so a match of
    length 0 is passed over.  [skip] counts the characters of the current
    match that remain to be passed over. *)
Fixpoint sub_go (m : matcher) (repl : str -> groups -> str)
         (skip : nat) (pre suf : str) : str :=
  match skip with
  | S k =>
      match suf with
      | [] => []
      | c :: suf' => sub_go m repl k (c :: pre) suf'
      end
  | O =>
      match m pre suf with
      | Some (S n, g) =>
          repl (firstn (S n) suf) g ++
          match suf with
          | [] => []
          | c :: suf' => sub_go m repl n (c :: pre) suf'
          end
      | _ =>
          match suf with
          | [] => []
          | c :: suf' => c :: sub_go m repl 0 (c :: pre) suf'
          end
      end
  end.

Definition sub (r : regex) (repl : str -> groups -> str) (s : str) : str :=
  sub_go (match_at r) repl 0 [] s.

(** [re.sub(..., count=1)] *)
Definition sub_first (r : regex) (repl : str -> groups -> str) (s : str) : str :=
  match search r s with
  | Some (i, S n, g) =>
      firstn i s ++ repl (firstn (S n) (skipn i s)) g ++ skipn (i + S n) s
  | _ => s
  end.

(** Building blocks. *)
Definition chr_is (x : ascii) : ascii -> bool := chr_eqb x.
Definition chr_is_ci (x : ascii) : ascii -> bool :=
  fun c => chr_eqb (lower_c x) (lower_c c).

Fixpoint rseq (rs : list regex) : regex :=
  match rs with
  | [] => REps
  | [r] => r
  | r :: rs' => RSeq r (rseq rs')
  end.

Definition rlit (s : str) : regex := rseq (map (fun x => RChr (chr_is x)) s).
Definition rlit_ci (s : str) : regex := rseq (map (fun x => RChr (chr_is_ci x)) s).
Definition rplus (p : ascii -> bool) : regex := RSeq (RChr p) (RStar true p).
Definition ropt (p : ascii -> bool) : regex := RAlt (RChr p) REps.

Definition any_c (c : ascii) : bool := true.
Definition not_newline (c : ascii) : bool := negb (is_newline c).

End Re.
Export Re.

(* ================================================================== *)
(** * The SQL validator / corrector (the body of [generate_sql]) *)
(* ================================================================== *)

Module SqlFix.

(** [VALID_COLUMNS], in the order of the source literal. *)
Definition VALID_COLUMNS : list str :=
  map list_ascii_of_string
    [ "nr_reclamatie"; "raion"; "pm"; "observatii"; "nume_client";
      "nr_comanda"; "id_comanda"; "grup_vanzare"; "furnizor";
      "echipa_livrare"; "data_factura"; "data_comanda"; "data_reclamatie";
      "magazin"; "articol_cod"; "id_client"; "articol_denumire";
      "modalitate_rezolvare"; "motiv_reclamatie"; "descriere";
      "mod_livrare"; "furnizor_ext"; "responsabil_comanda";
      "cantitate"; "valoare" ]%string.

Definition name_map : list (str * str) :=
  map (fun kv : string * string =>
         (list_ascii_of_string (fst kv), list_ascii_of_string (snd kv)))
    [ ("grupa_mediu_vanzare", "grup_vanzare");
      ("grupa_mediu", "grup_vanzare");
      ("mediu_vanzare", "grup_vanzare");
      ("grup_mediu", "grup_vanzare");
      ("data_reclam", "data_reclamatie");
      ("data_rec", "data_reclamatie");
      ("nr_reclam", "nr_reclamatie");
      ("motiv_reclam", "motiv_reclamatie");
      ("articol_den", "articol_denumire");
      ("mod_rezolvare", "modalitate_rezolvare");
      ("responsabil", "responsabil_comanda");
      ("echipa", "echipa_livrare") ]%string.

Fixpoint assoc (k : str) (m : list (str * str)) : option str :=
  match m with
  | [] => None
  | (k', v) :: m' => if str_eqb k' k then Some v else assoc k m'
  end.

(** [fix_column_name].  [VALID_COLUMNS] is a Python set: the loop over it
    runs in an order that the source does not fix, so the order is the
    argument [order]; membership does not depend on it. *)
Definition fix_column_name (order : list str) (word : str) : str :=
  let w := lower word in
  if existsb (str_eqb w) VALID_COLUMNS then word
  else
    match find (fun valid => startswith w valid && (4 <=? List.length word)) order with
    | Some valid => valid
    | None =>
        match assoc w name_map with
        | Some v => v
        | None => word
        end
    end.

Definition alpha_us (c : ascii) : bool := is_alpha_c c || is_underscore c.
Definition word_paren (c : ascii) : bool :=
  is_word_c c || chr_eqb "("%char c || chr_eqb ")"%char c.

(** [\b[a-z][a-z_]+[a-z]\b], IGNORECASE *)
Definition COLUMN_RE : regex :=
  rseq [RWordB; RChr is_alpha_c; rplus alpha_us; RChr is_alpha_c; RWordB].

(** [(ORDER\s+BY\s+[\w\(\)]+\s+)descriere(\s+LIMIT|\s*$)], IGNORECASE *)
Definition DESC_RE : regex :=
  rseq [ RGrp 1 (rseq [ rlit_ci (py "ORDER"); rplus is_space_c;
                        rlit_ci (py "BY"); rplus is_space_c;
                        rplus word_paren; rplus is_space_c ]);
         rlit_ci (py "descriere");
         RGrp 2 (RAlt (RSeq (rplus is_space_c) (rlit_ci (py "LIMIT")))
                      (RSeq (RStar true is_space_c) REol)) ].

(** [LIMIT\s+(\d+)] and [LIMIT\s+\d+], IGNORECASE *)
Definition LIMIT_RE : regex :=
  rseq [rlit_ci (py "LIMIT"); rplus is_space_c; RGrp 1 (rplus is_digit_c)].
Definition LIMIT_SUB_RE : regex :=
  rseq [rlit_ci (py "LIMIT"); rplus is_space_c; rplus is_digit_c].

(** Line 261: column-name repair. *)
Definition fix_columns (order : list str) (sql : str) : str :=
  sub COLUMN_RE (fun word _ => fix_column_name order word) sql.

(** Line 265: the [descriere] / [DESC] repair, replacement [\1DESC\2]. *)
Definition fix_desc (sql : str) : str :=
  sub DESC_RE (fun _ g => group 1 g ++ py "DESC" ++ group 2 g) sql.

Definition FROM_KEYWORDS : list str :=
  [py "WHERE"; py "GROUP BY"; py "ORDER BY"; py "LIMIT"].

(** Lines 268-278: the missing-FROM repair. *)
Definition inject_from (sql : str) : str :=
  let sql_upper := upper sql in
  if negb (contains (py "FROM") sql_upper) && startswith (py "SELECT") sql_upper
  then
    match find (fun keyword => contains keyword sql_upper) FROM_KEYWORDS with
    | Some keyword =>
        match index keyword sql_upper with
        | Some idx => firstn idx sql ++ py "FROM complaints " ++ skipn idx sql
        | None => sql
        end
    | None => rstrip_semi sql ++ py " FROM complaints"
    end
  else sql.

Definition AGGREGATES : list str :=
  [py "COUNT("; py "SUM("; py "AVG("; py "MIN("; py "MAX("; py "GROUP BY"].

Definition has_aggregation (sql : str) : bool :=
  existsb (fun fn => contains fn (upper sql)) AGGREGATES.

Definition has_limit (sql : str) : bool := contains (py "LIMIT") (upper sql).

(** [limit_match]: the number of the first [LIMIT <digits>]. *)
Definition limit_match (sql : str) : option Z :=
  match search LIMIT_RE sql with
  | Some (_, _, g) => Some (int_of_digits (group 1 g))
  | None => None
  end.

Definition raise_limits (sql : str) : str :=
  sub LIMIT_SUB_RE (fun _ _ => py "LIMIT 150") sql.

(** Lines 280-291: the row cap.  [has_aggregation] and [has_limit] are
    read before the limit is rewritten, as in the source. *)
Definition enforce_row_cap (sql : str) : str :=
  let agg := has_aggregation sql in
  let lim := has_limit sql in
  let sql1 :=
    match limit_match sql with
    | Some current_limit =>
        if (current_limit <? 150)%Z then raise_limits sql else sql
    | None => sql
    end in
  if negb agg && negb lim then rstrip_semi sql1 ++ py " LIMIT 150" else sql1.

(** The pattern [LIMIT\s+\d+] read directly: whether the text starts
    with a match, and then the length of the match and its digits.  The
    properties of the row cap are proved on this reading, which
    [match_at_LIMIT_RE] and [match_at_LIMIT_SUB_RE] show to be what the
    matcher computes. *)
Fixpoint starts_ci (w s : str) : bool :=
  match w, s with
  | [], _ => true
  | x :: w', c :: s' => chr_is_ci x c && starts_ci w' s'
  | _ :: _, [] => false
  end.

Definition limit_at (s : str) : option (nat * str) :=
  if starts_ci (py "LIMIT") s then
    let t := skipn 5 s in
    let k := run is_space_c t in
    let d := run is_digit_c (skipn k t) in
    if (0 <? k) && (0 <? d)
    then Some (5 + k + d, firstn d (skipn k t))
    else None
  else None.

(** [limit_match] and [raise_limits] on that reading. *)
Fixpoint find_limit (s : str) : option Z :=
  match limit_at s with
  | Some (_, ds) => Some (int_of_digits ds)
  | None =>
      match s with
      | [] => None
      | _ :: s' => find_limit s'
      end
  end.

Definition limit_matcher : matcher :=
  fun _ suf => option_map (fun m : nat * str => (fst m, [])) (limit_at suf).

Definition raise_go (skip : nat) (s : str) : str :=
  sub_go limit_matcher (fun _ _ => py "LIMIT 150") skip [] s.

(** Notions used to state what the repairs keep. *)

(** A property of every character, checked by enumeration. *)
Definition all_ascii (f : ascii -> bool) : bool :=
  forallb f (map ascii_of_nat (seq 0 256)).

(** [occ] holds of some suffix of the text. *)
Fixpoint any_suffix (occ : str -> bool) (s : str) : bool :=
  occ s ||
  match s with
  | [] => false
  | _ :: s' => any_suffix occ s'
  end.

(** The characters of a match of [LIMIT\s+\d+]. *)
Definition limit_char (c : ascii) : bool :=
  chr_is_ci "L"%char c || chr_is_ci "I"%char c || chr_is_ci "M"%char c
  || chr_is_ci "T"%char c || is_space_c c || is_digit_c c.

(** The text starts with the injected table reference; starts, in upper
    case, with FROM, with SELECT, with WITH. *)
Definition at_table (z : str) : bool := startswith (py "FROM complaints") z.
Definition at_from (z : str) : bool := startswith (py "FROM") (upper z).
Definition at_select (z : str) : bool := startswith (py "SELECT") (upper z).
Definition at_with (z : str) : bool := startswith (py "WITH") (upper z).

Definition no_semi (w : str) : bool :=
  forallb (fun x => negb (chr_eqb ";"%char x)) w.

(** The condition of line 269 under which the FROM repair fires. *)
Definition injects (y : str) : bool :=
  negb (contains (py "FROM") (upper y)) && startswith (py "SELECT") (upper y).

(** Lines 232-291: the four repairs in the order of the source. *)
Definition correct_sql (order : list str) (sql : str) : str :=
  enforce_row_cap (inject_from (fix_desc (fix_columns order sql))).

(** Line 229: [sql.upper().startswith(('SELECT', 'WITH'))] *)
Definition is_select_or_with (sql : str) : bool :=
  startswith (py "SELECT") (upper sql) || startswith (py "WITH") (upper sql).

End SqlFix.
Export SqlFix.


(* ================================================================== *)
(** * Values: result rows, decoded JSON, envelopes *)
(* ================================================================== *)

Module Values.

(** A cell of a result row, as the store's driver hands it to Python.
    A float is known by what the pipeline can observe of it: its [str],
    its [int] (absent for NaN and the infinities) and its truth value.
    [COther] stands for the remaining driver types (dates, decimals,
    lists), known by their [str] and truth value. *)
Inductive cell : Type :=
| CNone
| CBool (b : bool)
| CInt (z : Z)
| CFloat (repr : str) (trunc : option Z) (nonzero : bool)
| CStr (s : str)
| COther (repr : str) (truthy : bool).

(** [str(v)] *)
Definition cell_str (v : cell) : str :=
  match v with
  | CNone => py "None"
  | CBool true => py "True"
  | CBool false => py "False"
  | CInt z => str_of_Z z
  | CFloat repr _ _ => repr
  | CStr s => s
  | COther repr _ => repr
  end.

(** [bool(v)] *)
Definition cell_truthy (v : cell) : bool :=
  match v with
  | CNone => false
  | CBool b => b
  | CInt z => negb (Z.eqb z 0)
  | CFloat _ _ nz => nz
  | CStr s => negb (str_eqb s [])
  | COther _ t => t
  end.

(** [isinstance(v, (int, float))]; [bool] is a subclass of [int]. *)
Definition is_number (v : cell) : bool :=
  match v with
  | CBool _ | CInt _ | CFloat _ _ _ => true
  | _ => false
  end.

(** A Python dict with string keys: the entries in insertion order, each
    key once. *)
Definition dict (A : Type) := list (str * A).

Fixpoint dget {A} (k : str) (d : dict A) : option A :=
  match d with
  | [] => None
  | (k', v) :: d' => if str_eqb k' k then Some v else dget k d'
  end.

Definition dmem {A} (k : str) (d : dict A) : bool :=
  match dget k d with Some _ => true | None => false end.

(** [d[k] = v]: an existing key keeps its place. *)
Fixpoint dset {A} (k : str) (v : A) (d : dict A) : dict A :=
  match d with
  | [] => [(k, v)]
  | (k', v') :: d' =>
      if str_eqb k' k then (k', v) :: d' else (k', v') :: dset k v d'
  end.

Definition dkeys {A} (d : dict A) : list str := map fst d.
Definition dvalues {A} (d : dict A) : list A := map snd d.

Definition row := dict cell.

(** [dict(zip(columns, row))] *)
Definition dict_of_zip (columns : list str) (vals : list cell) : row :=
  fold_left (fun d kv => dset (fst kv) (snd kv) d) (combine columns vals) [].

(** What [json.loads] returns. *)
Inductive json : Type :=
| JNull
| JBool (b : bool)
| JInt (z : Z)
| JFloat (repr : str) (nonzero : bool)
| JStr (s : str)
| JArr (l : list json)
| JObj (d : list (str * json)).

Definition json_truthy (j : json) : bool :=
  match j with
  | JNull => false
  | JBool b => b
  | JInt z => negb (Z.eqb z 0)
  | JFloat _ nz => nz
  | JStr s => negb (str_eqb s [])
  | JArr l => match l with [] => false | _ => true end
  | JObj d => match d with [] => false | _ => true end
  end.

(** [j == s] for a string [s] *)
Definition json_is_str (s : str) (j : option json) : bool :=
  match j with
  | Some (JStr t) => str_eqb t s
  | _ => false
  end.

(** A value of the response envelope: something decoded from the model's
    reply or written by the pipeline, the result rows, or the column
    names. *)
Inductive field : Type :=
| FJson (j : json)
| FRows (rows : list row)
| FCols (columns : list str).

Definition envelope := dict field.

Definition FStr (s : str) : field := FJson (JStr s).
Definition FNat (n : nat) : field := FJson (JInt (Z.of_nat n)).

Definition lift_obj (d : list (str * json)) : envelope :=
  map (fun kv => (fst kv, FJson (snd kv))) d.

(** [e.get(k) == s] on an envelope *)
Definition field_is_str (s : str) (f : option field) : bool :=
  match f with
  | Some (FJson (JStr t)) => str_eqb t s
  | _ => false
  end.

(** Faults.  The interpreter words the message of a built-in fault; a
    fault of a collaborator carries the collaborator's message. *)
Inductive fault : Type :=
| NoneHasNoAttribute (name : str)      (* AttributeError on None *)
| HasNoAttribute (name : str)          (* AttributeError on another value *)
| NotIterable                          (* TypeError: [x in v], [for x in None] *)
| BadSubscript                         (* TypeError: [v[k]] on a str or list *)
| MissingKey (k : str)                 (* KeyError *)
| IndexOutOfRange                      (* IndexError *)
| NotAnInteger                         (* ValueError / OverflowError of [int] *)
| External (msg : str).                (* raised by a collaborator *)

End Values.
Export Values.

(* ================================================================== *)
(** * The visualization classifier ([_guess_visualization]) *)
(* ================================================================== *)

Module Classifier.

Inductive viz : Type := VizNone | VizTable | VizBar | VizPie.

Definition viz_name (v : viz) : str :=
  match v with
  | VizNone => py "none"
  | VizTable => py "table"
  | VizBar => py "bar_chart"
  | VizPie => py "pie_chart"
  end.

Definition mem (x : str) (l : list str) : bool := existsb (str_eqb x) l.
Definition subset (a b : list str) : bool := forallb (fun x => mem x b) a.
Definition meets (a b : list str) : bool := existsb (fun x => mem x b) a.

Definition detail_cols : list str :=
  map list_ascii_of_string
    [ "nr_reclamatie"; "observatii"; "observatie"; "detalii"; "descriere";
      "adresa"; "telefon"; "email"; "client"; "nume_client";
      "id"; "nr"; "numar"; "cod" ]%string.

Definition date_cols : list str := [py "data_reclamatie"; py "data"].

Definition time_cols : list str :=
  map list_ascii_of_string
    [ "luna"; "month"; "an"; "year"; "data"; "zi"; "saptamana";
      "trimestru" ]%string.

Definition numeric_cols : list str :=
  map list_ascii_of_string
    [ "numar"; "numar_reclamatii"; "total"; "count"; "valoare";
      "valoare_totala"; "suma"; "medie"; "procent" ]%string.

(** [{col.lower() for col in columns}] *)
Definition cols_lower (columns : list str) : list str := map lower columns.

(** The four exclusions of lines 560-575. *)
Definition excluded (columns : list str) : bool :=
  let cl := cols_lower columns in
  let non_date_cols := filter (fun c => negb (mem c date_cols)) cl in
  (mem (py "observatii") cl || mem (py "observatie") cl)
  || subset cl (detail_cols ++ [py "data_reclamatie"; py "data"; py "magazin"])
  || (match non_date_cols with [] => false | _ => true end
      && subset non_date_cols detail_cols)
  || ((List.length columns =? 1) && meets cl detail_cols).

Definition has_time (columns : list str) : bool :=
  existsb (fun col => mem (lower col) time_cols) columns.

Definition has_numeric (columns : list str) : bool :=
  existsb (fun col => mem (lower col) numeric_cols) columns.

(** Lines 587-593: no numeric column name, at least two columns, and the
    first row's value under the second column is not a number. *)
Definition second_not_numeric (results : list row) (columns : list str) : bool :=
  negb (has_numeric columns) &&
  match columns, results with
  | _ :: second_col :: _, r0 :: _ =>
      match dget second_col r0 with
      | Some sample_val => negb (is_number sample_val)
      | None => true
      end
  | _, _ => false
  end.

Definition _guess_visualization (results : list row) (columns : list str) : viz :=
  match results with
  | [] => VizNone
  | _ :: _ =>
      let n := List.length results in
      if (n =? 1) && (List.length columns <=? 2) then VizNone
      else if excluded columns then VizNone
      else if second_not_numeric results columns
           then (if n <=? 15 then VizTable else VizNone)
      else if has_time columns && (2 <? n) then VizBar
      else if (n <=? 8) && (List.length columns =? 2)
           then (if n <=? 6 then VizPie else VizBar)
      else if n <=? 15 then VizBar
      else VizBar
  end.

End Classifier.
Export Classifier.


(* ================================================================== *)
(** * The collaborators and the process *)
(* ================================================================== *)

Module Process.

(** A request to the completion service.  A prompt of the source is a
    fixed template around the values interpolated into it; the request
    carries the call site and those values. *)
Inductive request : Type :=
| ReqSql (question : str)
| ReqChart (question original_sql : str) (row_count : Z)
| ReqFormat (question sql : str) (row_count : nat)
            (result_summary : list row) (count_info : option Z)
            (stats : option (list (str * nat))) (columns : list str).

(** [client.models.generate_content] raises, or returns a response whose
    [text] may be [None]. *)
Inductive completion : Type :=
| Raises (msg : str)
| Replies (text : option str).

(** [con.execute(sql)] raises, or returns a cursor with its [description]
    (the column names, possibly [None]) and what [fetchall] does. *)
Inductive exec_outcome : Type :=
| ExecRaises (msg : str)
| ExecResult (description : option (list str))
             (fetchall : str + list (list cell)).

Section Collaborators.

Variable World : Type.
Variable Conn : Type.
Variable complete : request -> World -> completion * World.
Variable json_loads : str -> option json.
Variable connect : World -> (str + Conn) * World.
Variable execute : Conn -> str -> World -> exec_outcome * World.
Variable wording : fault -> str.

(** The state of the process: the outside world, the module-level
    [_connection] of [database.py], and the completion requests made so
    far. *)
Record process : Type := mkProcess {
  world : World;
  _connection : option Conn;
  requests : list request
}.

(** [str(e)] *)
Definition fault_str (e : fault) : str :=
  match e with
  | External msg => msg
  | _ => wording e
  end.

(** Computations that change the process and may raise. *)
Definition M (A : Type) : Type := process -> (fault + A) * process.

Definition ret {A} (a : A) : M A := fun p => (inr a, p).
Definition raise {A} (e : fault) : M A := fun p => (inl e, p).

Definition bind {A B} (m : M A) (k : A -> M B) : M B :=
  fun p =>
    match m p with
    | (inl e, p') => (inl e, p')
    | (inr a, p') => k a p'
    end.

(** [try: m  except Exception as e: h e] *)
Definition try_except {A} (m : M A) (h : fault -> M A) : M A :=
  fun p =>
    match m p with
    | (inl e, p') => h e p'
    | (inr a, p') => (inr a, p')
    end.

(** A pure computation that may raise, run inside the process. *)
Definition lift {A} (r : fault + A) : M A := fun p => (r, p).

Definition call_model (req : request) : M (option str) :=
  fun p =>
    let (c, w) := complete req (world p) in
    let p' := mkProcess w (_connection p) (requests p ++ [req]) in
    match c with
    | Raises msg => (inl (External msg), p')
    | Replies text => (inr text, p')
    end.

End Collaborators.

(** The requests of the aggregation fallback in a log. *)
Definition is_chart_request (r : request) : bool :=
  match r with
  | ReqChart _ _ _ => true
  | _ => false
  end.

Definition chart_requests (log : list request) : nat :=
  List.length (filter is_chart_request log).

Arguments ret {World Conn A} a.
Arguments raise {World Conn A} e.

End Process.
Export Process.

Declare Scope proc_scope.
Delimit Scope proc_scope with proc.
Notation "x <- m ;; k" := (bind m (fun x => k))
  (at level 61, m at next level, right associativity) : proc_scope.

(* ================================================================== *)
(** * The query executor ([database.py]) *)
(* ================================================================== *)

Module Database.

Section Executor.

Variable World : Type.
Variable Conn : Type.
Variable connect : World -> (str + Conn) * World.
Variable execute : Conn -> str -> World -> exec_outcome * World.
Variable wording : fault -> str.

Local Abbreviation M := (M World Conn).
Local Open Scope proc_scope.

(** [get_connection]: the connection is opened on first use and kept. *)
Definition get_connection : M Conn :=
  fun p =>
    match _connection p with
    | Some con => (inr con, p)
    | None =>
        let (r, w) := connect (world p) in
        match r with
        | inl msg => (inl (External msg), mkProcess w None (requests p))
        | inr con => (inr con, mkProcess w (Some con) (requests p))
        end
    end.

(** The body of the [try] of [execute_query]. *)
Definition run_query (con : Conn) (sql : str) : M (list row * list str) :=
  fun p =>
    let (o, w) := execute con sql (world p) in
    let p' := mkProcess w (_connection p) (requests p) in
    match o with
    | ExecRaises msg => (inl (External msg), p')
    | ExecResult None _ => (inl NotIterable, p')
    | ExecResult (Some columns) (inl msg) => (inl (External msg), p')
    | ExecResult (Some columns) (inr rows) =>
        (inr (map (dict_of_zip columns) rows, columns), p')
    end.

Definition execute_query (sql : str) : M (list row * list str * option str) :=
  con <- get_connection ;;
  try_except
    (r <- run_query con sql ;; ret (fst r, snd r, None))
    (fun e => ret ([], [], Some (fault_str wording e))).

(** What the caller of [execute_query] gets for an outcome of the store. *)
Definition reported (o : exec_outcome) : list row * list str * option str :=
  match o with
  | ExecResult (Some columns) (inr rows) =>
      (map (dict_of_zip columns) rows, columns, None)
  | ExecResult (Some _) (inl msg) => ([], [], Some msg)
  | ExecResult None _ => ([], [], Some (wording NotIterable))
  | ExecRaises msg => ([], [], Some msg)
  end.

End Executor.

End Database.
Export Database.

(* ================================================================== *)
(** * The SQL agent ([sql_agent.py]) *)
(* ================================================================== *)

Module Agent.

Definition nothing : str -> groups -> str := fun _ _ => [].

Definition backticks : str := py "```".

(** [^```sql\s*], [^```\s*] and [\s*```$] *)
Definition FENCE_SQL_RE : regex :=
  rseq [RBol false; rlit (py "```sql"); RStar true is_space_c].
Definition FENCE_RE : regex :=
  rseq [RBol false; rlit backticks; RStar true is_space_c].
Definition FENCE_END_RE : regex :=
  rseq [RStar true is_space_c; rlit backticks; REol].

(** Lines 220-226 and 333-337: the reply without its code fence. *)
Definition clean_sql (text : str) : str :=
  strip (sub FENCE_END_RE nothing
           (sub FENCE_RE nothing
              (sub FENCE_SQL_RE nothing (strip text)))).

(** [^```json\s*] and [^```\s*], MULTILINE *)
Definition FENCE_JSON_M_RE : regex :=
  rseq [RBol true; rlit (py "```json"); RStar true is_space_c].
Definition FENCE_M_RE : regex :=
  rseq [RBol true; rlit backticks; RStar true is_space_c].

(** Lines 426-432. *)
Definition clean_json (text : str) : str :=
  strip (sub FENCE_END_RE nothing
           (sub FENCE_M_RE nothing
              (sub FENCE_JSON_M_RE nothing (strip text)))).

Definition quoted (s : str) : str := dquote :: s ++ [dquote].
Definition not_brace (c : ascii) : bool :=
  negb (chr_eqb "{"%char c || chr_eqb "}"%char c).
Definition not_quote (c : ascii) : bool := negb (chr_eqb dquote c).

(** Line 441: an object with a text field, [[^{}]] around it. *)
Definition OBJECT_RE : regex :=
  rseq [ RChr (chr_is "{"%char); RStar true not_brace;
         rlit (quoted (py "text")); RStar true is_space_c;
         RChr (chr_is ":"%char); RStar true is_space_c;
         RChr (chr_is dquote); RStar true not_quote; RChr (chr_is dquote);
         RStar true not_brace; RChr (chr_is "}"%char) ].

(** Line 450: the text field alone, its value in group 1. *)
Definition TEXT_RE : regex :=
  rseq [ rlit (quoted (py "text")); RStar true is_space_c;
         RChr (chr_is ":"%char); RStar true is_space_c;
         RChr (chr_is dquote); RGrp 1 (RStar true not_quote);
         RChr (chr_is dquote) ].

(** Lines 458 and 459 (DOTALL). *)
Definition LEAD_RE : regex :=
  rseq [ RBol false; RStar true is_space_c; RChr (chr_is "{"%char);
         RStar true is_space_c; rlit (quoted (py "text"));
         RStar true is_space_c; RChr (chr_is ":"%char);
         RStar true is_space_c; ropt (chr_is dquote) ].
Definition TRAIL_RE : regex :=
  rseq [ ropt (chr_is dquote); RStar true is_space_c;
         ropt (chr_is ","%char); RStar true is_space_c;
         rlit (quoted (py "visualization")); RStar true any_c; REol ].

(** Lines 673-683: the patterns of [_extract_count_query]. *)
Definition SELECT_FROM_RE : regex :=
  rseq [ rlit_ci (py "SELECT"); rplus is_space_c; RStar false any_c;
         rplus is_space_c; rlit_ci (py "FROM") ].
Definition ORDER_TAIL_RE : regex :=
  rseq [ rplus is_space_c; rlit_ci (py "ORDER"); rplus is_space_c;
         rlit_ci (py "BY"); rplus is_space_c; RStar true not_newline; REol ].
Definition LIMIT_TAIL_RE : regex :=
  rseq [ rplus is_space_c; rlit_ci (py "LIMIT"); rplus is_space_c;
         rplus is_digit_c ].
Definition GROUP_TAIL_RE : regex :=
  rseq [ rplus is_space_c; rlit_ci (py "GROUP"); rplus is_space_c;
         rlit_ci (py "BY"); rplus is_space_c; RStar false not_newline;
         RLook (RAlt (RSeq (rplus is_space_c) (rlit_ci (py "HAVING")))
               (RAlt (RSeq (rplus is_space_c) (rlit_ci (py "ORDER")))
               (RAlt (RSeq (rplus is_space_c) (rlit_ci (py "LIMIT")))
                     REol))) ].

(** [_extract_count_query]; the substitutions do not raise. *)
Definition _extract_count_query (sql : str) : option str :=
  let count_sql :=
    sub_first SELECT_FROM_RE (fun _ _ => py "SELECT COUNT(*) as total FROM") sql in
  let count_sql := sub ORDER_TAIL_RE nothing count_sql in
  let count_sql := sub LIMIT_TAIL_RE nothing count_sql in
  let count_sql := sub GROUP_TAIL_RE nothing count_sql in
  if startswith (py "SELECT") (upper count_sql) then Some count_sql else None.

(** ** The statistics of the formatting prompt (lines 362-369) *)

Fixpoint tally (xs : list str) (acc : list (str * nat)) : list (str * nat) :=
  match xs with
  | [] => acc
  | x :: xs' =>
      tally xs'
        (match dget x acc with
         | Some n => dset x (S n) acc
         | None => acc ++ [(x, 1)]
         end)
  end.

Fixpoint insert_by_count (e : str * nat) (l : list (str * nat)) : list (str * nat) :=
  match l with
  | [] => [e]
  | e' :: l' =>
      if snd e' <? snd e then e :: l else e' :: insert_by_count e l'
  end.

(** [Counter(...).most_common()]: by falling count, ties in the order of
    first occurrence. *)
Definition most_common (xs : list str) : list (str * nat) :=
  fold_left (fun acc e => insert_by_count e acc) (tally xs []) [].

Definition shop_stats (results : list row) (columns : list str)
  : option (list (str * nat)) :=
  match find (fun c => contains (py "magazin") (lower c)) columns with
  | Some mag_col =>
      if negb (str_eqb mag_col []) && (1 <? List.length results)
      then
        Some (most_common
                (flat_map
                   (fun r : row =>
                      match dget mag_col r with
                      | Some v => if cell_truthy v then [cell_str v] else []
                      | None => []
                      end)
                   results))
      else None
  | None => None
  end.

(** Lines 357-359: the real total is mentioned when it is set, not zero
    and different from the number of rows. *)
Definition count_info (results : list row) (total_count : option Z) : option Z :=
  match total_count with
  | Some t =>
      if negb (Z.eqb t 0) && negb (Z.eqb t (Z.of_nat (List.length results)))
      then Some t else None
  | None => None
  end.

Definition format_request (question sql : str) (results : list row)
           (columns : list str) (total_count : option Z) : request :=
  ReqFormat question sql (List.length results) (firstn 100 results)
            (count_info results total_count) (shop_stats results columns)
            columns.

(** ** Post-processing of the decoded reply (lines 472-534) *)

(** The first value of a row: [list(r.values())[0]]. *)
Definition primary (r : row) : fault + cell :=
  match r with
  | [] => inl IndexOutOfRange
  | (_, v) :: _ => inr v
  end.

(** [is_detail] of lines 481-484. *)
Definition is_detail (columns : list str) : bool :=
  meets (cols_lower columns) detail_cols.

(** Lines 493-494: the primary values of the non-empty rows that the text
    does not contain. *)
Definition missing_values (text : str) (results : list row) : list str :=
  filter (fun v => negb (contains v text))
    (flat_map (fun r : row =>
                 match r with
                 | [] => []
                 | (_, v) :: _ => [cell_str v]
                 end) results).

Definition find_key (part : str) (keys : list str) : option str :=
  find (fun k => contains part (lower k)) keys.

(** [r.get(k)] is present and true; the value is then [r[k]]. *)
Definition truthy_at (key : option str) (r : row) : option cell :=
  match key with
  | Some k =>
      if negb (str_eqb k []) then
        match dget k r with
        | Some v => if cell_truthy v then Some v else None
        | None => None
        end
      else None
  | None => None
  end.

(** Lines 511-515: the excerpt of a free-text value. *)
Definition excerpt (v : cell) : str :=
  let obs_text := strip (replace [ascii_of_nat 10] (py " ") (cell_str v)) in
  let obs_text :=
    if 150 <? List.length obs_text then firstn 147 obs_text ++ py "..."
    else obs_text in
  match obs_text with
  | [] => py "(detalii incomplete)"
  | _ => obs_text
  end.

Definition bullet : str := py "• ".

(** Lines 505-517: one line of the list. *)
Definition bullet_line (mag_key obs_key : option str) (r : row) : fault + str :=
  match primary r with
  | inl e => inl e
  | inr v =>
      let line := bullet ++ cell_str v in
      let line :=
        match truthy_at mag_key r with
        | Some m => line ++ py " (" ++ cell_str m ++ py ")"
        | None => line
        end in
      let line :=
        match truthy_at obs_key r with
        | Some o => line ++ py " - " ++ excerpt o
        | None => line
        end in
      inr line
  end.

Fixpoint collect {A B} (f : A -> fault + B) (l : list A) : fault + list B :=
  match l with
  | [] => inr []
  | a :: l' =>
      match f a with
      | inl e => inl e
      | inr b =>
          match collect f l' with
          | inl e => inl e
          | inr bs => inr (b :: bs)
          end
      end
  end.

Definition newline : str := [ascii_of_nat 10].

Definition list_header (n : nat) : str :=
  newline ++ newline ++ py "**Lista detaliată (" ++ str_of_nat n
  ++ py " înregistrări):**" ++ newline.

(** Line 499-501: the location and free-text keys, looked up in the first
    row. *)
Definition mag_key_of (results : list row) : option str :=
  match results with
  | [] => None
  | r0 :: _ => find_key (py "magazin") (dkeys r0)
  end.

Definition obs_key_of (results : list row) : option str :=
  match results with
  | [] => None
  | r0 :: _ => find_key (py "observ") (dkeys r0)
  end.

(** Lines 499-521: the list that is appended to the text. *)
Definition detail_list (results : list row) : fault + str :=
  match results with
  | [] => inl IndexOutOfRange
  | _ :: _ =>
      match collect (bullet_line (mag_key_of results) (obs_key_of results))
                    results with
      | inl e => inl e
      | inr lines =>
          inr (list_header (List.length results) ++ join newline lines)
      end
  end.

Definition viz_of (e : envelope) : option field := dget (py "visualization") e.

(** Line 474: the text with its escaped quotes (a backslash and a quote)
    restored. *)
Definition unescaped (t : str) : str :=
  replace [ascii_of_nat 92; dquote] [dquote] t.

(** Lines 473-474. *)
Definition clean_text (e : envelope) : fault + envelope :=
  match dget (py "text") e with
  | None => inr e
  | Some (FJson (JStr t)) =>
      inr (dset (py "text") (FStr (unescaped t)) e)
  | Some _ => inl (HasNoAttribute (py "replace"))
  end.

(** Lines 477-478. *)
Definition override_table (results : list row) (columns : list str)
           (e : envelope) : envelope :=
  if field_is_str (py "table") (viz_of e) && (15 <? List.length results)
  then dset (py "visualization")
            (FStr (viz_name (_guess_visualization results columns))) e
  else e.

(** Lines 486-487. *)
Definition force_none (columns : list str) (e : envelope) : envelope :=
  if is_detail columns
     && negb (field_is_str (py "none") (viz_of e)
              || field_is_str (py "table") (viz_of e))
  then dset (py "visualization") (FStr (py "none")) e
  else e.

(** The visualization that lines 476-487 settle on for a decoded object. *)
Definition settled_visualization (results : list row) (columns : list str)
           (d : list (str * json)) : option field :=
  viz_of (force_none columns (override_table results columns (lift_obj d))).

(** Lines 490-524. *)
Definition complete_details (results : list row) (columns : list str)
           (e : envelope) : fault + envelope :=
  if is_detail columns && field_is_str (py "none") (viz_of e)
     && (List.length results <=? 60)
  then
    let text :=
      match dget (py "text") e with
      | Some (FJson (JStr t)) => t
      | _ => []
      end in
    let appended :=
      match missing_values text results with
      | [] => inr e
      | _ :: _ =>
          match detail_list results with
          | inl f => inl f
          | inr value_list =>
              match dget (py "text") e with
              | None => inl (MissingKey (py "text"))
              | Some _ => inr (dset (py "text") (FStr (text ++ value_list)) e)
              end
          end
      end in
    match appended with
    | inl f => inl f
    | inr e' => inr (dset (py "columns") (FCols [])
                          (dset (py "data") (FRows []) e'))
    end
  else inr e.

(** Lines 527-532. *)
Definition attach (sql : str) (results : list row) (columns : list str)
           (e : envelope) : envelope :=
  let e := if dmem (py "data") e then e else dset (py "data") (FRows results) e in
  let e := if dmem (py "columns") e then e else dset (py "columns") (FCols columns) e in
  dset (py "row_count") (FNat (List.length results))
       (dset (py "sql") (FStr sql) e).

(** Lines 472-534 on the decoded reply.  A reply that is not an object
    faults at its first use: [in] on a number, a boolean or [None];
    [parsed["text"]] on a string or list that holds the key; [parsed.get]
    on one that does not. *)
Definition post_process (sql : str) (results : list row) (columns : list str)
           (parsed : json) : fault + envelope :=
  match parsed with
  | JObj d =>
      match clean_text (lift_obj d) with
      | inl f => inl f
      | inr e =>
          match complete_details results columns
                  (force_none columns (override_table results columns e)) with
          | inl f => inl f
          | inr e' => inr (attach sql results columns e')
          end
      end
  | JStr s =>
      if contains (py "text") s then inl BadSubscript
      else inl (HasNoAttribute (py "get"))
  | JArr l =>
      if existsb (fun j => json_is_str (py "text") (Some j)) l
      then inl BadSubscript
      else inl (HasNoAttribute (py "get"))
  | _ => inl NotIterable
  end.

(** Lines 537-544: the envelope of the catch-all handler. *)
Definition fallback_envelope (msg : str) (sql : str) (results : list row)
           (columns : list str) : envelope :=
  [ (py "text", FStr (py "Eroare la formatarea răspunsului: " ++ msg));
    (py "visualization", FStr (py "none"));
    (py "data", FRows results);
    (py "columns", FCols columns);
    (py "sql", FStr sql);
    (py "row_count", FNat (List.length results)) ].

Section Agent.

Variable World : Type.
Variable Conn : Type.
Variable complete : request -> World -> completion * World.
Variable json_loads : str -> option json.
Variable connect : World -> (str + Conn) * World.
Variable execute : Conn -> str -> World -> exec_outcome * World.
Variable wording : fault -> str.
Variable column_order : list str.

Local Abbreviation M := (M World Conn).
Local Open Scope proc_scope.

(** [generate_sql] *)
Definition generate_sql (question : str) : M (str * option str) :=
  try_except
    (text <- call_model complete (ReqSql question) ;;
     match text with
     | None => raise (NoneHasNoAttribute (py "strip"))
     | Some t =>
         let sql := clean_sql t in
         if negb (is_select_or_with sql)
         then ret ([], Some (py "Invalid SQL generated: " ++ firstn 100 sql))
         else ret (correct_sql column_order sql, None)
     end)
    (fun e => ret ([], Some (py "Error generating SQL: " ++ fault_str wording e))).

(** What [generate_chart_query] makes of a completion. *)
Definition chart_sql (c : completion) : option str :=
  match c with
  | Replies (Some t) =>
      if is_select_or_with (clean_sql t) then Some (clean_sql t) else None
  | _ => None
  end.

(** [generate_chart_query] *)
Definition generate_chart_query (question original_sql : str) (row_count : Z)
  : M (option str) :=
  try_except
    (text <- call_model complete (ReqChart question original_sql row_count) ;;
     match text with
     | None => raise (NoneHasNoAttribute (py "strip"))
     | Some t =>
         let agg_sql := clean_sql t in
         if is_select_or_with agg_sql then ret (Some agg_sql) else ret None
     end)
    (fun _ => ret None).

(** Lines 434-470: the layered decoding of the reply. *)
Definition guessed (text : str) (results : list row) (columns : list str) : json :=
  JObj [ (py "text", JStr text);
         (py "visualization", JStr (viz_name (_guess_visualization results columns))) ].

Definition salvage (results : list row) (columns : list str)
           (response_text : str) : json :=
  match search TEXT_RE response_text with
  | Some (_, _, g) => guessed (group 1 g) results columns
  | None =>
      let clean_text := sub LEAD_RE nothing response_text in
      let clean_text := sub TRAIL_RE nothing clean_text in
      let clean_text := strip (strip_quote (strip clean_text)) in
      match clean_text with
      | _ :: _ => guessed clean_text results columns
      | [] =>
          guessed (py "Am găsit " ++ str_of_nat (List.length results)
                   ++ py " rezultate.") results columns
      end
  end.

Definition decode_reply (results : list row) (columns : list str)
           (response_text : str) : json :=
  match json_loads response_text with
  | Some parsed => parsed
  | None =>
      let parsed :=
        match search OBJECT_RE response_text with
        | Some (i, n, _) => json_loads (firstn n (skipn i response_text))
        | None => None
        end in
      match parsed with
      | Some v => if json_truthy v then v else salvage results columns response_text
      | None => salvage results columns response_text
      end
  end.

(** What the body of [format_response] comes to for a completion. *)
Definition formatted (sql : str) (results : list row) (columns : list str)
           (c : completion) : fault + envelope :=
  match c with
  | Raises msg => inl (External msg)
  | Replies None => inl (NoneHasNoAttribute (py "strip"))
  | Replies (Some t) =>
      post_process sql results columns (decode_reply results columns (clean_json t))
  end.

(** The body of the [try] of [format_response]. *)
Definition format_body (question sql : str) (results : list row)
           (columns : list str) (total_count : option Z) : M envelope :=
  text <- call_model complete
            (format_request question sql results columns total_count) ;;
  match text with
  | None => raise (NoneHasNoAttribute (py "strip"))
  | Some t =>
      lift (post_process sql results columns
              (decode_reply results columns (clean_json t)))
  end.

(** [format_response] *)
Definition format_response (question sql : str) (results : list row)
           (columns : list str) (total_count : option Z) : M envelope :=
  try_except
    (format_body question sql results columns total_count)
    (fun e => ret (fallback_envelope (fault_str wording e) sql results columns)).

(** Lines 646-652: the real total behind a capped result. *)
Definition true_total (sql : str) (capped : Z) : M Z :=
  match _extract_count_query sql with
  | Some count_sql =>
      r <- execute_query connect execute wording count_sql ;;
      match fst (fst r) with
      | [r0] =>
          match primary r0 with
          | inl e => raise e
          | inr first_val =>
              match first_val with
              | CInt z => ret z
              | CBool b => ret (if b then 1 else 0)%Z
              | CFloat _ (Some z) _ => ret z
              | CFloat _ None _ => raise NotAnInteger
              | _ => ret capped
              end
          end
      | _ => ret capped
      end
  | None => ret capped
  end.

(** [bool(s)] of an optional message *)
Definition is_error (e : option str) : bool :=
  match e with
  | Some (_ :: _) => true
  | _ => false
  end.

(** Lines 656-663: the aggregated attempt; [None] when it yields nothing
    to show. *)
Definition aggregated (question sql : str) (total_count : Z)
  : M (option (str * list row * list str)) :=
  agg <- generate_chart_query question sql total_count ;;
  match agg with
  | Some (c :: agg_sql') =>
      let agg_sql := c :: agg_sql' in
      r <- execute_query connect execute wording agg_sql ;;
      let '(agg_results, agg_columns, agg_error) := r in
      match agg_results with
      | _ :: _ =>
          if negb (is_error agg_error)
          then ret (Some (agg_sql, agg_results, agg_columns))
          else ret None
      | [] => ret None
      end
  | _ => ret None
  end.

Definition error_envelope (text : str) (sql : option str) : envelope :=
  [ (py "text", FStr text); (py "visualization", FStr (py "none")) ]
  ++ match sql with Some q => [(py "sql", FStr q)] | None => [] end
  ++ [ (py "error", FJson (JBool true)) ].

Definition empty_envelope (sql : str) (columns : list str) : envelope :=
  [ (py "text", FStr (py "Nu am găsit rezultate pentru această interogare."));
    (py "visualization", FStr (py "none"));
    (py "sql", FStr sql);
    (py "data", FRows []);
    (py "columns", FCols columns);
    (py "row_count", FNat 0) ].

(** Lines 642-666, for a result that is not empty. *)
Definition answer (question sql : str) (results : list row)
           (columns : list str) : M envelope :=
  let n := Z.of_nat (List.length results) in
  if (150 <=? n)%Z then
    total_count <- true_total sql n ;;
    agg <- aggregated question sql total_count ;;
    match agg with
    | Some (agg_sql, agg_results, agg_columns) =>
        format_response question agg_sql agg_results agg_columns (Some total_count)
    | None =>
        format_response question sql results columns (Some total_count)
    end
  else format_response question sql results columns (Some n).

(** [chat] *)
Definition chat (question : str) : M envelope :=
  g <- generate_sql question ;;
  let (sql, sql_error) := g in
  if is_error sql_error then
    ret (error_envelope
           (py "Nu am putut genera interogarea SQL: "
            ++ match sql_error with Some m => m | None => [] end)
           None)
  else
    r <- execute_query connect execute wording sql ;;
    let '(results, columns, exec_error) := r in
    if is_error exec_error then
      ret (error_envelope
             (py "Eroare la executarea interogării: "
              ++ match exec_error with Some m => m | None => [] end)
             (Some sql))
    else
      match results with
      | [] => ret (empty_envelope sql columns)
      | _ :: _ => answer question sql results columns
      end.

End Agent.

End Agent.
Export Agent.

(* ================================================================== *)
(** * Notions used by the further properties *)
(* ================================================================== *)

Module Notions.

(** A character other than the backtick of a code fence. *)
Definition not_backtick (c : ascii) : bool := negb (chr_eqb "`"%char c).

(** What [generate_sql] reports for a completion that it cannot use: the
    message of line 230 for a reply that is not a SELECT or WITH, the
    message of line 296 for a fault of the [try]; [None] for a reply that
    passes the check of line 229. *)
Definition sql_failure (wording : fault -> str) (c : completion) : option str :=
  match c with
  | Raises msg => Some (py "Error generating SQL: " ++ msg)
  | Replies None =>
      Some (py "Error generating SQL: "
            ++ wording (NoneHasNoAttribute (py "strip")))
  | Replies (Some t) =>
      if is_select_or_with (clean_sql t) then None
      else Some (py "Invalid SQL generated: " ++ firstn 100 (clean_sql t))
  end.

(** The requests of the formatter in a log. *)
Definition is_format_request (r : request) : bool :=
  match r with
  | ReqFormat _ _ _ _ _ _ _ => true
  | _ => false
  end.

(** Counts that do not rise along the list. *)
Fixpoint falling (l : list nat) : bool :=
  match l with
  | a :: (b :: _) as t => (b <=? a) && falling t
  | _ => true
  end.

(** The shops that line 366 counts: the text of the value under
    [mag_col], for every row in which that value is present and true. *)
Definition shop_values (mag_col : str) (results : list row) : list str :=
  flat_map (fun r : row =>
              match dget mag_col r with
              | Some v => if cell_truthy v then [cell_str v] else []
              | None => []
              end) results.

(** How often [x] occurs in [xs]. *)
Definition occurrences (x : str) (xs : list str) : nat :=
  List.length (filter (str_eqb x) xs).

(** A count, absent when it is 0, after [k] more occurrences. *)
Definition bump (c : option nat) (k : nat) : option nat :=
  match c, k with
  | None, O => None
  | None, S k' => Some (S k')
  | Some n, _ => Some (n + k)
  end.

(** A text without a line break. *)
Definition flat (s : str) : bool := forallb (fun c => negb (is_newline c)) s.

End Notions.
Export Notions.

(* ================================================================== *)
(** * The chat endpoint ([main.py]) *)
(* ================================================================== *)

Module Endpoint.

(** [ChatResponse]: the fields of the response model; a field that the
    caller leaves out holds its default. *)
Record ChatResponse : Type := mkChatResponse {
  text : str;
  visualization : str;
  data : field;
  columns : field;
  sql : option str;
  row_count : Z;
  chart_config : option json;
  error : bool
}.

(** What the endpoint comes to: a response, or the [HTTPException] that
    the framework turns into a status and a detail. *)
Inductive outcome : Type :=
| Answer (r : ChatResponse)
| Refused (status_code : nat) (detail : str).

(** [ChatResponse(text=f"Eroare internă: {str(e)}", error=True)] *)
Definition internal_error (msg : str) : ChatResponse :=
  mkChatResponse (py "Eroare internă: " ++ msg) (py "none")
                 (FRows []) (FCols []) None 0 None true.

Section Endpoint.

Variable World : Type.
Variable Conn : Type.
Variable complete : request -> World -> completion * World.
Variable json_loads : str -> option json.
Variable connect : World -> (str + Conn) * World.
Variable execute : Conn -> str -> World -> exec_outcome * World.
Variable wording : fault -> str.
Variable column_order : list str.

(** Line 78, the response built from the envelope: the validation of the
    response model builds the response or raises with a message. *)
Variable validate : envelope -> str + ChatResponse.

Local Open Scope proc_scope.

(** [chat_endpoint] *)
Definition chat_endpoint (message : str) : M World Conn outcome :=
  match strip message with
  | [] => ret (Refused 400 (py "Message cannot be empty"))
  | _ :: _ =>
      try_except
        (result <- chat complete json_loads connect execute wording
                        column_order message ;;
         match validate result with
         | inl msg => raise (External msg)
         | inr r => ret (Answer r)
         end)
        (fun e => ret (Answer (internal_error (fault_str wording e))))
  end.

End Endpoint.

End Endpoint.

(* ================================================================== *)
(** * The ingestion scripts ([ingest.py], [ingest_fast.py]) *)
(* ================================================================== *)

Module Ingest.

(** [ingest.py], lines 181-190: the text of a document, and the test that
    is meant to pass over a document without content.  The arguments are
    the four fields of the row as the f-string formats them. *)
Definition document_text (motiv descriere observatii produs : str) : str :=
  py "MOTIV: " ++ motiv ++ py " | DESCRIERE: " ++ descriere
  ++ py " | OBSERVATII: " ++ observatii ++ py " | PRODUS: " ++ produs.

Definition is_skipped (text : str) : bool :=
  str_eqb (strip text) (py "MOTIV:  | DESCRIERE:  | OBSERVATII:  | PRODUS: ").

(** [ingest_fast.py], [prepare_documents]: the same with shorter labels,
    and a test on the text as it is. *)
Definition fast_document_text (motiv descriere observatii produs : str) : str :=
  py "MOTIV: " ++ motiv ++ py " | DESC: " ++ descriere
  ++ py " | OBS: " ++ observatii ++ py " | PROD: " ++ produs.

Definition fast_is_skipped (text : str) : bool :=
  str_eqb text (py "MOTIV:  | DESC:  | OBS:  | PROD: ").

Definition BATCH_SIZE : nat := 100.

(** [range(start, stop, step)] for a step above 0; [fuel] bounds the
    number of elements. *)
Fixpoint range_go (fuel start stop step : nat) : list nat :=
  match fuel with
  | O => []
  | S fuel' =>
      if start <? stop then start :: range_go fuel' (start + step) stop step
      else []
  end.

Definition range (start stop step : nat) : list nat :=
  range_go stop start stop step.

(** [l[i:j]] *)
Definition slice {A} (l : list A) (i j : nat) : list A :=
  firstn (j - i) (skipn i l).

(** The batches of both scripts: for every [i] of
    [range(0, len(texts), BATCH_SIZE)], the three lists cut from [i] to
    [i + BATCH_SIZE] and the number [i // BATCH_SIZE + 1]. *)
Definition batches {T M I} (texts : list T) (metadatas : list M) (ids : list I)
  : list (list T * list M * list I * nat) :=
  map (fun i => (slice texts i (i + BATCH_SIZE),
                 slice metadatas i (i + BATCH_SIZE),
                 slice ids i (i + BATCH_SIZE),
                 i / BATCH_SIZE + 1))
      (range 0 (List.length texts) BATCH_SIZE).

(** [total_batches] of [ingest.py] *)
Definition total_batches (n : nat) : nat := (n + BATCH_SIZE - 1) / BATCH_SIZE.

(** [embed_batch_with_retry] of [ingest_fast.py].  The embedding service
    and the collection are one collaborator, which is handed the batch
    and raises with a message or stores it; the state keeps what the
    function does besides: the attempts made and the seconds slept. *)
Inductive batch_result : Type :=
| Embedded (batch count : nat)
| Failed (batch : nat) (error : str).

Section Retry.

Variable Service : Type.
Variable Metadata : Type.
Variable Id : Type.
Variable embed_and_add :
  list str -> list Metadata -> list Id -> Service -> (str + unit) * Service.

Record embedding : Type := mkEmbedding {
  service : Service;
  attempts : nat;
  slept : list nat
}.

Definition rate_limited (error_msg : str) : bool :=
  contains (py "429") error_msg || contains (py "RESOURCE_EXHAUSTED") error_msg.

Definition batch_data : Type := (list str * list Metadata * list Id * nat)%type.

Fixpoint retry_loop (todo : list nat) (batch : batch_data) (st : embedding)
  : batch_result * embedding :=
  let '(texts, metadatas, ids, batch_num) := batch in
  match todo with
  | [] => (Failed batch_num (py "Max retries exceeded (rate limit)"), st)
  | attempt :: later =>
      let (r, s) := embed_and_add texts metadatas ids (service st) in
      let st' := mkEmbedding s (S (attempts st)) (slept st) in
      match r with
      | inr _ => (Embedded batch_num (List.length texts), st')
      | inl error_msg =>
          if rate_limited error_msg then
            let wait_time := (attempt + 1) * 2 in
            retry_loop later batch
              (mkEmbedding s (S (attempts st)) (slept st ++ [wait_time]))
          else (Failed batch_num (firstn 100 error_msg), st')
      end
  end.

Definition embed_batch_with_retry (batch : batch_data) (max_retries : nat)
           (st : embedding) : batch_result * embedding :=
  retry_loop (seq 0 max_retries) batch st.

End Retry.

End Ingest.

(* ================================================================== *)
(** * Scenarios: scripted collaborators for the concrete instances *)
(* ================================================================== *)

Module Scenario.

(** A store whose file cannot be opened. *)
Definition locked_store : unit -> (str + unit) * unit :=
  fun w => (inl (py "IO Error: Could not set lock on file"), w).

Definition no_execute : unit -> str -> unit -> exec_outcome * unit :=
  fun _ _ w => (ExecResult (Some []) (inr []), w).

Definition plain_wording : fault -> str := fun _ => py "fault".

Definition open_store : unit -> (str + unit) * unit := fun w => (inr tt, w).

Definition rejecting : unit -> str -> unit -> exec_outcome * unit :=
  fun _ _ w => (ExecRaises (py "Parser Error: syntax error"), w).

(** *** A detail listing of two complaints *)

Definition detail_columns : list str :=
  [py "nr_reclamatie"; py "magazin"; py "observatii"].

Definition detail_rows : list row :=
  [ dict_of_zip detail_columns
      [CInt 97246; CStr (py "Brasov"); CStr (py "pazie defecta")];
    dict_of_zip detail_columns
      [CInt 97247; CStr (py "Militari"); CStr []] ].

Definition detail_sql : str :=
  py "SELECT nr_reclamatie, magazin, observatii FROM complaints LIMIT 150".

(** A reply that names only the first complaint and asks for a chart. *)
Definition partial_object : list (str * json) :=
  [ (py "text", JStr (py "Am gasit 2 reclamatii: 97246."));
    (py "visualization", JStr (py "bar_chart")) ].

(** A reply that names both complaints. *)
Definition full_object : list (str * json) :=
  [ (py "text", JStr (py "Reclamatiile sunt 97246 si 97247."));
    (py "visualization", JStr (py "none")) ].

(** The JSON text of an object with a text and a visualization. *)
Definition reply_json (text visualization : str) : str :=
  py "{" ++ quoted (py "text") ++ py ": " ++ quoted text ++ py ", "
  ++ quoted (py "visualization") ++ py ": " ++ quoted visualization ++ py "}".

Definition partial_reply : str :=
  reply_json (py "Am gasit 2 reclamatii: 97246.") (py "bar_chart").
Definition full_reply : str :=
  reply_json (py "Reclamatiile sunt 97246 si 97247.") (py "none").

(** A decoder scripted for the two replies. *)
Definition scripted_loads (s : str) : option json :=
  if str_eqb s partial_reply then Some (JObj partial_object)
  else if str_eqb s full_reply then Some (JObj full_object)
  else None.

Definition says (reply : str) : request -> unit -> completion * unit :=
  fun _ w => (Replies (Some reply), w).

Definition fresh : process unit unit := mkProcess tt None [].

(** *** A capped listing of 150 rows *)

Definition capped_question : str := py "Reclamatii din raionul BUCATARII".

Definition capped_model : request -> unit -> completion * unit :=
  fun req w =>
    match req with
    | ReqSql _ =>
        (Replies (Some (py "SELECT id_client, raion FROM complaints WHERE raion = 'BUCATARII'")), w)
    | ReqChart _ _ _ =>
        (Replies (Some (py "SELECT pm, COUNT(*) AS numar FROM complaints WHERE raion = 'BUCATARII' GROUP BY pm ORDER BY numar DESC LIMIT 12")), w)
    | ReqFormat _ _ _ _ _ _ _ => (Replies (Some full_reply), w)
    end.

Definition capped_store : unit -> str -> unit -> exec_outcome * unit :=
  fun _ sql w =>
    if contains (py "as total") sql then
      (ExecResult (Some [py "total"]) (inr [[CInt 312]]), w)
    else if contains (py "GROUP BY") sql then
      (ExecResult (Some [py "pm"; py "numar"])
                  (inr [[CStr (py "Ionescu"); CInt 200];
                        [CStr (py "Popescu"); CInt 112]]), w)
    else
      (ExecResult (Some [py "id_client"; py "raion"])
                  (inr (repeat [CInt 7; CStr (py "BUCATARII")] 150)), w).

Definition capped_sql : str :=
  py "SELECT id_client, raion FROM complaints WHERE raion = 'BUCATARII' LIMIT 150".

Definition capped_agg_sql : str :=
  py "SELECT pm, COUNT(*) AS numar FROM complaints WHERE raion = 'BUCATARII' GROUP BY pm ORDER BY numar DESC LIMIT 12".

Definition capped_rows : list row :=
  repeat (dict_of_zip [py "id_client"; py "raion"]
                      [CInt 7; CStr (py "BUCATARII")]) 150.

(** *** Results for the classifier *)

Definition month_by_department : list str := [py "luna"; py "raion"].

Definition month_rows : list row :=
  repeat (dict_of_zip month_by_department
                      [CStr (py "Ianuarie"); CStr (py "BUCATARII")]) 3.

Definition complaint_values : list str := [py "nr_reclamatie"; py "valoare"].

Definition value_rows : list row :=
  repeat (dict_of_zip complaint_values [CInt 97246; CInt 1200]) 3.

(** *** Completions for the corrector *)

(** A ranking with [LIMIT 10], as the prompt asks for. *)
Definition top_pm_query : str :=
  py "SELECT pm, COUNT(*) as numar FROM complaints WHERE pm != '' GROUP BY pm ORDER BY numar DESC LIMIT 10".

Definition top_pm_corrected : str :=
  py "SELECT pm, COUNT(*) as numar FROM complaints WHERE pm != '' GROUP BY pm ORDER BY numar DESC LIMIT 150".

(** A limit inside a subquery before a smaller outer limit. *)
Definition nested_limit_query : str :=
  py "SELECT a FROM (SELECT a FROM complaints LIMIT 200) LIMIT 5".

(** A listing that ends in a semicolon. *)
Definition semicolon_query : str :=
  py "SELECT nr_reclamatie FROM complaints ORDER BY data_reclamatie DESC;".

Definition semicolon_first_run : str :=
  py "SELECT nr_reclamatie FROM complaints ORDER BY data_reclamatie descriere LIMIT 150".

Definition semicolon_second_run : str :=
  py "SELECT nr_reclamatie FROM complaints ORDER BY data_reclamatie DESC LIMIT 150".

(** A completion without FROM. *)
Definition no_from_query : str :=
  py "SELECT nr_reclamatie WHERE magazin ILIKE '%brasov%'".

Definition no_from_corrected : str :=
  py "SELECT nr_reclamatie FROM complaints WHERE magazin ILIKE '%brasov%' LIMIT 150".

(** Completions that name another table, or no table at all. *)
Definition other_table_query : str :=
  py "SELECT nume_client FROM clienti WHERE oras = 'Brasov'".

Definition with_query : str := py "WITH t AS (SELECT 1 AS n) SELECT n".

End Scenario.
Export Scenario.

(* ================================================================== *)
(** * Further scenarios *)
(* ================================================================== *)

Module Cases.

(** A model that answers with a statement that is not a query. *)
Definition refusing_model : request -> unit -> completion * unit :=
  says (py "DROP TABLE complaints").

(** A model that lists two complaints and words the answer. *)
Definition detail_model : request -> unit -> completion * unit :=
  fun req w =>
    match req with
    | ReqSql _ => (Replies (Some detail_sql), w)
    | ReqChart _ _ _ => (Replies None, w)
    | ReqFormat _ _ _ _ _ _ _ => (Replies (Some full_reply), w)
    end.

(** A store that holds the two complaints of [detail_rows]. *)
Definition detail_store : unit -> str -> unit -> exec_outcome * unit :=
  fun _ _ w =>
    (ExecResult (Some detail_columns)
       (inr [ [CInt 97246; CStr (py "Brasov"); CStr (py "pazie defecta")];
              [CInt 97247; CStr (py "Militari"); CStr []] ]), w).

(** A store whose count query returns a value that is not a number of
    rows (NaN). *)
Definition nan_store : unit -> str -> unit -> exec_outcome * unit :=
  fun _ sql w =>
    if contains (py "as total") sql then
      (ExecResult (Some [py "total"])
                  (inr [[CFloat (py "nan") None true]]), w)
    else
      (ExecResult (Some [py "id_client"; py "raion"])
                  (inr (repeat [CInt 7; CStr (py "BUCATARII")] 150)), w).

(** *** A ranking of product managers *)

Definition ranking_columns : list str := [py "pm"; py "total"].

Definition ranking_rows (n : nat) : list row :=
  repeat (dict_of_zip ranking_columns [CStr (py "Ionescu"); CInt 3]) n.

Definition ranking_sql : str :=
  py "SELECT pm, COUNT(*) AS total FROM complaints GROUP BY pm".

(** A reply that asks for a table. *)
Definition table_object : list (str * json) :=
  [ (py "text", JStr (py "Clasament")); (py "visualization", JStr (py "table")) ].

Definition table_reply : str := reply_json (py "Clasament") (py "table").

(** A reply that brings a chart configuration and data of its own. *)
Definition chart_object : list (str * json) :=
  [ (py "text", JStr (py "Clasament"));
    (py "visualization", JStr (py "bar_chart"));
    (py "chart_config",
     JObj [ (py "x", JStr (py "pm")); (py "y", JStr (py "total")) ]);
    (py "data", JArr [JInt 1]) ].

Definition chart_reply : str :=
  py "{" ++ quoted (py "text") ++ py ": " ++ quoted (py "Clasament") ++ py ", "
  ++ quoted (py "visualization") ++ py ": " ++ quoted (py "bar_chart") ++ py ", "
  ++ quoted (py "chart_config") ++ py ": {"
  ++ quoted (py "x") ++ py ": " ++ quoted (py "pm") ++ py ", "
  ++ quoted (py "y") ++ py ": " ++ quoted (py "total") ++ py "}, "
  ++ quoted (py "data") ++ py ": [1]}".

Definition ranking_loads (s : str) : option json :=
  if str_eqb s table_reply then Some (JObj table_object)
  else if str_eqb s chart_reply then Some (JObj chart_object)
  else None.

(** A reply cut off before the end of the object, and a decoder that
    rejects everything. *)
Definition cut_reply : str :=
  py "{" ++ quoted (py "text") ++ py ": " ++ quoted (py "Clasament") ++ py ", "
  ++ quoted (py "visualization") ++ py ": " ++ quoted (py "line_chart").

Definition no_loads (s : str) : option json := None.

End Cases.
Export Cases.

(* ================================================================== *)
(** * Properties *)
(* ================================================================== *)

(** ** Strings and dictionaries *)

Lemma str_eqb_refl : forall s, str_eqb s s = true.
Proof.
  induction s as [|c s IH]; simpl; [reflexivity|].
  unfold chr_eqb. rewrite Ascii.eqb_refl. exact IH.
Qed.

Lemma str_eqb_eq : forall a b, str_eqb a b = true <-> a = b.
Proof.
  induction a as [|x a IH]; destruct b as [|y b]; simpl; split; intro H;
    try reflexivity; try discriminate.
  - apply andb_true_iff in H. destruct H as [H1 H2].
    apply Ascii.eqb_eq in H1. apply IH in H2. congruence.
  - inversion H; subst. unfold chr_eqb. rewrite Ascii.eqb_refl.
    apply str_eqb_refl.
Qed.

Lemma str_eqb_neq : forall a b, str_eqb a b = false <-> a <> b.
Proof.
  intros a b. split; intro H.
  - intro E. apply str_eqb_eq in E. congruence.
  - destruct (str_eqb a b) eqn:E; [|reflexivity].
    apply str_eqb_eq in E. contradiction.
Qed.

Lemma dget_dset_same : forall A (k : str) (v : A) d,
  dget k (dset k v d) = Some v.
Proof.
  intros A k v d. induction d as [|[k' v'] d IH]; simpl.
  - now rewrite str_eqb_refl.
  - destruct (str_eqb k' k) eqn:E; simpl; rewrite E; [reflexivity|exact IH].
Qed.

Lemma dget_dset_other : forall A (k k' : str) (v : A) d,
  str_eqb k' k = false -> dget k (dset k' v d) = dget k d.
Proof.
  intros A k k' v d Hk. induction d as [|[k2 v2] d IH]; simpl.
  - now rewrite Hk.
  - destruct (str_eqb k2 k') eqn:E; simpl.
    + apply str_eqb_eq in E. subst k2. now rewrite Hk.
    + destruct (str_eqb k2 k); [reflexivity|exact IH].
Qed.

Lemma dmem_dset_same : forall A (k : str) (v : A) d, dmem k (dset k v d) = true.
Proof. intros. unfold dmem. now rewrite dget_dset_same. Qed.

(** Rewriting under the keys of the envelope. *)
Ltac dict_simpl :=
  repeat (rewrite dget_dset_same
          || (rewrite dget_dset_other by reflexivity)).

(** ** The query executor *)

Section ExecutorFacts.

Variable World : Type.
Variable Conn : Type.
Variable connect : World -> (str + Conn) * World.
Variable execute : Conn -> str -> World -> exec_outcome * World.
Variable wording : fault -> str.

Local Abbreviation get_connection := (get_connection connect).
Local Abbreviation execute_query := (execute_query connect execute wording).
Local Abbreviation reported := (reported wording).

Lemma get_connection_keeps : forall (p p1 : process World Conn) con,
  get_connection p = (inr con, p1) -> _connection p1 = Some con.
Proof.
  intros p p1 con. unfold Database.get_connection.
  destruct (_connection p) as [c|] eqn:E.
  - intro H. inversion H; subst. exact E.
  - destruct (connect (world p)) as [[msg|c] w]; intro H; inversion H.
    reflexivity.
Qed.

Lemma execute_query_connected : forall sql (p p1 : process World Conn) con,
  get_connection p = (inr con, p1) ->
  execute_query sql p =
    (inr (reported (fst (execute con sql (world p1)))),
     mkProcess (snd (execute con sql (world p1))) (Some con) (requests p1)).
Proof.
  intros sql p p1 con H.
  pose proof (get_connection_keeps _ H) as Hc.
  unfold Database.execute_query, bind. rewrite H.
  unfold try_except, run_query, bind.
  destruct (execute con sql (world p1)) as [o w]. rewrite Hc. simpl.
  destruct o as [msg|[columns|] [msg|rows]]; reflexivity.
Qed.

(** C9, as amended.  Once the process-wide connection is available
    (already open, or opened on this first use), [execute_query] returns
    for every SQL string and never raises: the store's rows and column
    names with no error, or no rows, no columns and the message of the
    store's fault. *)
Theorem execute_query_total_once_connected :
  forall sql (p p1 : process World Conn) con,
    get_connection p = (inr con, p1) ->
    exists data columns err p',
      execute_query sql p = (inr (data, columns, err), p')
      /\ match fst (execute con sql (world p1)) with
         | ExecResult (Some cols) (inr rows) =>
             data = map (dict_of_zip cols) rows /\ columns = cols /\ err = None
         | ExecResult (Some _) (inl msg) | ExecRaises msg =>
             data = [] /\ columns = [] /\ err = Some msg
         | ExecResult None _ =>
             data = [] /\ columns = [] /\ err = Some (wording NotIterable)
         end.
Proof.
  intros sql p p1 con H.
  rewrite (execute_query_connected sql _ H).
  destruct (execute con sql (world p1)) as [o w]. simpl.
  destruct o as [msg|[cols|] [msg|rows]]; simpl;
    do 4 eexists; (split; [reflexivity|]); repeat split.
Qed.

(** After a call that returned, the connection is open. *)
Lemma execute_query_opens : forall sql (p p' : process World Conn) r,
  execute_query sql p = (inr r, p') -> exists con, _connection p' = Some con.
Proof.
  intros sql p p' r H.
  destruct (get_connection p) as [[e|con] p1] eqn:G.
  - unfold Database.execute_query, bind in H. rewrite G in H. discriminate.
  - rewrite (execute_query_connected sql _ G) in H. inversion H. now exists con.
Qed.

(** With an open connection a call returns, and leaves it open and the
    log of completion requests as it was. *)
Lemma execute_query_open : forall sql (p : process World Conn) con,
  _connection p = Some con ->
  exists r p', execute_query sql p = (inr r, p')
               /\ _connection p' = Some con /\ requests p' = requests p.
Proof.
  intros sql p con H.
  assert (G : get_connection p = (inr con, p)).
  { unfold Database.get_connection. now rewrite H. }
  rewrite (execute_query_connected sql _ G).
  do 2 eexists. split; [reflexivity|]. split; reflexivity.
Qed.

End ExecutorFacts.

(** C9, as stated, fails: with no connection yet and a store that cannot
    be opened, [execute_query] raises to its caller. *)
Lemma execute_query_raises_when_connect_fails :
  fst (execute_query locked_store no_execute plain_wording
         (py "SELECT 1") (mkProcess tt None []))
  = inl (External (py "IO Error: Could not set lock on file")).
Proof. reflexivity. Qed.

(** An instance of [execute_query_total_once_connected]: a first call on a
    store that opens and rejects the query. *)
Lemma execute_query_total_once_connected_witness :
  exists data columns err p',
    execute_query open_store rejecting plain_wording (py "SELEC 1")
      (mkProcess tt None []) = (inr (data, columns, err), p')
    /\ (data = [] /\ columns = []
        /\ err = Some (py "Parser Error: syntax error")).
Proof.
  exact (@execute_query_total_once_connected unit unit open_store rejecting
           plain_wording (py "SELEC 1") (mkProcess tt None [])
           (mkProcess tt (Some tt) []) tt eq_refl).
Defined.

(** ** The response formatter *)

Lemma viz_clean_text : forall e e', clean_text e = inr e' -> viz_of e' = viz_of e.
Proof.
  intros e e'. unfold clean_text.
  destruct (dget (py "text") e) as [[[| | | |t| |]| |]|]; intro H;
    inversion H; subst; try reflexivity.
  unfold viz_of. now rewrite dget_dset_other by reflexivity.
Qed.

Lemma text_clean_text : forall e e',
  clean_text e = inr e' ->
  dget (py "text") e' = None \/ exists t, dget (py "text") e' = Some (FStr t).
Proof.
  intros e e'. unfold clean_text.
  destruct (dget (py "text") e) as [[[| | | |t| |]| |]|] eqn:E; intro H;
    inversion H; subst.
  - right. eexists. apply dget_dset_same.
  - now left.
Qed.

Lemma viz_complete_details : forall results columns e e',
  complete_details results columns e = inr e' -> viz_of e' = viz_of e.
Proof.
  intros results columns e e'. unfold complete_details.
  destruct (is_detail columns && field_is_str (py "none") (viz_of e)
            && (List.length results <=? 60)).
  - destruct (missing_values _ results).
    + intro H. inversion H. unfold viz_of. now dict_simpl.
    + destruct (detail_list results); [discriminate|].
      destruct (dget (py "text") e); [|discriminate].
      intro H. inversion H. unfold viz_of. now dict_simpl.
  - intro H. now inversion H.
Qed.

Lemma viz_attach : forall sql results columns e,
  viz_of (attach sql results columns e) = viz_of e.
Proof.
  intros. unfold attach, viz_of.
  destruct (dmem (py "data") e); destruct (dmem (py "columns") _);
    now dict_simpl.
Qed.

Lemma sql_attach : forall sql results columns e,
  dget (py "sql") (attach sql results columns e) = Some (FStr sql).
Proof. intros. unfold attach. now dict_simpl. Qed.

Lemma row_count_attach : forall sql results columns e,
  dget (py "row_count") (attach sql results columns e)
  = Some (FNat (List.length results)).
Proof. intros. unfold attach. now dict_simpl. Qed.

Lemma data_attach : forall sql results columns e v,
  dget (py "data") e = Some v ->
  dget (py "data") (attach sql results columns e) = Some v.
Proof.
  intros sql results columns e v H. unfold attach, dmem. rewrite H.
  destruct (dget (py "columns") e); now dict_simpl.
Qed.

Lemma columns_attach : forall sql results columns e v,
  dget (py "columns") e = Some v ->
  dget (py "columns") (attach sql results columns e) = Some v.
Proof.
  intros sql results columns e v H. unfold attach.
  destruct (dmem (py "data") e); unfold dmem; dict_simpl; rewrite H;
    now dict_simpl.
Qed.

Lemma text_attach : forall sql results columns e,
  dget (py "text") (attach sql results columns e) = dget (py "text") e.
Proof.
  intros. unfold attach.
  destruct (dmem (py "data") e); destruct (dmem (py "columns") _);
    now dict_simpl.
Qed.

Lemma force_none_settles : forall columns e,
  is_detail columns = true ->
  field_is_str (py "none") (viz_of (force_none columns e))
  || field_is_str (py "table") (viz_of (force_none columns e)) = true.
Proof.
  intros columns e Hd. unfold force_none. rewrite Hd.
  destruct (field_is_str (py "none") (viz_of e)
            || field_is_str (py "table") (viz_of e)) eqn:E; cbn [andb negb].
  - exact E.
  - unfold viz_of. now rewrite dget_dset_same.
Qed.


Lemma dget_lift_obj : forall k d,
  dget k (lift_obj d) = option_map FJson (dget k d).
Proof.
  intros k d. induction d as [|[k' v] d IH]; simpl; [reflexivity|].
  destruct (str_eqb k' k); [reflexivity|exact IH].
Qed.

Lemma field_is_str_eq : forall s f,
  field_is_str s f = true <-> f = Some (FStr s).
Proof.
  intros s f. unfold field_is_str, FStr. split.
  - destruct f as [[[| | | |t| |]| |]|]; try discriminate.
    intro H. apply str_eqb_eq in H. now subst.
  - intros ->. apply str_eqb_refl.
Qed.

Lemma viz_override_table : forall results columns e e0,
  viz_of e = viz_of e0 ->
  viz_of (override_table results columns e)
  = viz_of (override_table results columns e0).
Proof.
  intros results columns e e0 H. unfold override_table. rewrite H.
  destruct (field_is_str (py "table") (viz_of e0) && _); [|exact H].
  unfold viz_of. now rewrite !dget_dset_same.
Qed.

Lemma viz_force_none : forall columns e e0,
  viz_of e = viz_of e0 ->
  viz_of (force_none columns e) = viz_of (force_none columns e0).
Proof.
  intros columns e e0 H. unfold force_none. rewrite H.
  destruct (is_detail columns && _); [|exact H].
  unfold viz_of. now rewrite !dget_dset_same.
Qed.

Lemma text_override_table : forall results columns e,
  dget (py "text") (override_table results columns e) = dget (py "text") e.
Proof.
  intros. unfold override_table.
  destruct (field_is_str (py "table") (viz_of e) && _); now dict_simpl.
Qed.

Lemma text_force_none : forall columns e,
  dget (py "text") (force_none columns e) = dget (py "text") e.
Proof.
  intros. unfold force_none.
  destruct (is_detail columns && _); now dict_simpl.
Qed.

Lemma collect_bullets : forall mag_key obs_key results,
  Forall (fun r : row => r <> []) results ->
  exists lines,
    collect (bullet_line mag_key obs_key) results = inr lines
    /\ Forall2 (fun r line => bullet_line mag_key obs_key r = inr line)
               results lines.
Proof.
  intros mag_key obs_key results H.
  induction H as [|r rs Hr _ [lines [IH1 IH2]]].
  - exists []. split; [reflexivity|constructor].
  - destruct r as [|[k v] r]; [contradiction|].
    destruct (bullet_line mag_key obs_key ((k, v) :: r)) as [f|line] eqn:E.
    + unfold bullet_line in E. simpl in E.
      destruct (truthy_at mag_key _); destruct (truthy_at obs_key _);
        discriminate.
    + exists (line :: lines). split.
      * cbn [collect]. rewrite E, IH1. reflexivity.
      * constructor; assumption.
Qed.

Lemma missing_values_found : forall text results r v,
  In r results -> primary r = inr v -> contains (cell_str v) text = false ->
  missing_values text results <> [].
Proof.
  intros text results r v Hin Hp Hc. unfold missing_values.
  assert (Hm : In (cell_str v)
                 (flat_map (fun r : row =>
                              match r with
                              | [] => []
                              | (_, v) :: _ => [cell_str v]
                              end) results)).
  { apply in_flat_map. exists r. split; [exact Hin|].
    destruct r as [|[k v'] r]; [discriminate|].
    simpl in Hp. inversion Hp; subst. now left. }
  intro E.
  assert (Hf : In (cell_str v)
                 (filter (fun v => negb (contains v text))
                    (flat_map (fun r : row =>
                                 match r with
                                 | [] => []
                                 | (_, v) :: _ => [cell_str v]
                                 end) results))).
  { apply filter_In. split; [exact Hm|]. now rewrite Hc. }
  rewrite E in Hf. contradiction.
Qed.

(** The regular path of [post_process] on detail data of at most 60 rows
    whose visualization settles on [none]. *)
Lemma post_process_detail : forall sql results columns d text,
  dget (py "text") d = Some (JStr text) ->
  Forall (fun r : row => r <> []) results ->
  is_detail columns = true ->
  field_is_str (py "none") (settled_visualization results columns d) = true ->
  List.length results <= 60 ->
  exists e3,
    post_process sql results columns (JObj d)
    = inr (attach sql results columns
             (dset (py "columns") (FCols []) (dset (py "data") (FRows []) e3)))
    /\ viz_of e3 = Some (FStr (py "none"))
    /\ (missing_values (unescaped text) results = [] ->
        dget (py "text") e3 = Some (FStr (unescaped text)))
    /\ (missing_values (unescaped text) results <> [] ->
        exists lines,
          Forall2 (fun r line =>
                     bullet_line (mag_key_of results) (obs_key_of results) r
                     = inr line) results lines
          /\ dget (py "text") e3
             = Some (FStr (unescaped text
                           ++ list_header (List.length results)
                           ++ join newline lines))).
Proof.
  intros sql results columns d text Ht Hrows Hd Hviz Hlen.
  unfold post_process, clean_text.
  rewrite dget_lift_obj, Ht. cbn [option_map].
  set (e1 := dset (py "text") (FStr (unescaped text)) (lift_obj d)).
  set (e2 := force_none columns (override_table results columns e1)).
  assert (Hv2 : viz_of e2 = settled_visualization results columns d).
  { unfold e2, settled_visualization. apply viz_force_none, viz_override_table.
    unfold e1, viz_of. now dict_simpl. }
  assert (Ht2 : dget (py "text") e2 = Some (FStr (unescaped text))).
  { unfold e2. rewrite text_force_none, text_override_table.
    unfold e1. apply dget_dset_same. }
  unfold complete_details. rewrite Hd, Hv2, Hviz.
  apply Nat.leb_le in Hlen. rewrite Hlen. cbn [andb].
  rewrite Ht2. unfold FStr at 1.
  destruct (missing_values (unescaped text) results) as [|m ms] eqn:Em.
  - exists e2. split; [reflexivity|].
    split; [rewrite Hv2; now apply field_is_str_eq|].
    split; [intros _; exact Ht2|]. intro C. contradiction.
  - unfold detail_list.
    destruct results as [|r0 rs] eqn:Er; [discriminate|].
    rewrite <- Er in *.
    destruct (collect_bullets (mag_key_of results) (obs_key_of results) Hrows)
      as [lines [Hc Hf]].
    rewrite Hc.
    exists (dset (py "text")
              (FStr (unescaped text
                     ++ list_header (List.length results)
                     ++ join newline lines)) e2).
    split; [reflexivity|].
    split.
    { unfold viz_of. dict_simpl. fold (viz_of e2). rewrite Hv2.
      now apply field_is_str_eq. }
    split; [intro C; discriminate|].
    intros _. exists lines. split; [exact Hf|]. apply dget_dset_same.
Qed.

Section FormatterFacts.

Variable World : Type.
Variable Conn : Type.
Variable complete : request -> World -> completion * World.
Variable json_loads : str -> option json.
Variable wording : fault -> str.

Local Abbreviation format_response := (@format_response World Conn complete json_loads wording).
Local Abbreviation format_body := (@format_body World Conn complete json_loads).
Local Abbreviation decode_reply := (decode_reply json_loads).
Local Abbreviation formatted := (formatted json_loads).

Lemma format_body_eq : forall question sql results columns total_count
                              (p : process World Conn),
  let req := format_request question sql results columns total_count in
  format_body question sql results columns total_count p
  = (formatted sql results columns (fst (complete req (world p))),
     mkProcess (snd (complete req (world p))) (_connection p) (requests p ++ [req])).
Proof.
  intros. unfold Agent.format_body, bind, call_model. fold req.
  destruct (complete req (world p)) as [[msg|[t|]] w]; reflexivity.
Qed.

Lemma format_response_eq : forall question sql results columns total_count
                                  (p : process World Conn),
  let req := format_request question sql results columns total_count in
  format_response question sql results columns total_count p
  = (inr match formatted sql results columns (fst (complete req (world p))) with
         | inr e => e
         | inl f => fallback_envelope (fault_str wording f) sql results columns
         end,
     mkProcess (snd (complete req (world p))) (_connection p) (requests p ++ [req])).
Proof.
  intros. unfold Agent.format_response, try_except.
  rewrite format_body_eq. fold req.
  destruct (formatted sql results columns (fst (complete req (world p))));
    reflexivity.
Qed.

Lemma post_process_attached : forall sql results columns parsed e,
  post_process sql results columns parsed = inr e ->
  exists e', e = attach sql results columns e'.
Proof.
  intros sql results columns parsed e. unfold post_process.
  destruct parsed as [| | | |s|l|d]; try discriminate.
  - destruct (contains _ s); discriminate.
  - destruct (existsb _ l); discriminate.
  - destruct (clean_text (lift_obj d)); [discriminate|].
    destruct (complete_details _ _ _); [discriminate|].
    intro H. inversion H. eauto.
Qed.

(** [format_response] returns, and what it returns carries the SQL and
    the number of rows. *)
Lemma format_response_returns :
  forall question sql results columns total_count (p : process World Conn),
    exists env p',
      format_response question sql results columns total_count p = (inr env, p')
      /\ dget (py "sql") env = Some (FStr sql)
      /\ dget (py "row_count") env = Some (FNat (List.length results)).
Proof.
  intros. rewrite format_response_eq.
  set (req := format_request question sql results columns total_count).
  do 2 eexists. split; [reflexivity|].
  destruct (formatted sql results columns (fst (complete req (world p))))
    as [f|e] eqn:E.
  - split; reflexivity.
  - destruct (fst (complete req (world p))) as [msg|[t|]];
      cbn [Agent.formatted] in E; try discriminate.
    destruct (post_process_attached _ _ _ _ E) as [e' ->].
    split; [apply sql_attach|apply row_count_attach].
Qed.

(** C8.  [format_response] returns an envelope for every input and every
    behaviour of the completion service and the JSON decoder; the
    envelope carries the executed SQL and the number of input rows; and
    when the body faults, the envelope is the one built from the raw
    results: visualization [none], the rows and columns as given, and a
    text made of the fixed error prefix and the fault's message, nothing
    of the model's reply. *)
Theorem format_response_total :
  forall question sql results columns total_count (p : process World Conn),
    exists env p',
      format_response question sql results columns total_count p = (inr env, p')
      /\ dget (py "sql") env = Some (FStr sql)
      /\ dget (py "row_count") env = Some (FNat (List.length results))
      /\ (forall f p0,
            format_body question sql results columns total_count p = (inl f, p0) ->
            env = fallback_envelope (fault_str wording f) sql results columns
            /\ dget (py "visualization") env = Some (FStr (py "none"))
            /\ dget (py "data") env = Some (FRows results)
            /\ dget (py "columns") env = Some (FCols columns)
            /\ dget (py "text") env
               = Some (FStr (py "Eroare la formatarea răspunsului: "
                             ++ fault_str wording f))).
Proof.
  intros.
  destruct (format_response_returns question sql results columns total_count p)
    as [env [p' [Hf [Hs Hr]]]].
  exists env, p'. split; [exact Hf|]. split; [exact Hs|]. split; [exact Hr|].
  intros f p0 Hb. rewrite format_response_eq in Hf. rewrite format_body_eq in Hb.
  set (req := format_request question sql results columns total_count) in *.
  destruct (formatted sql results columns (fst (complete req (world p))))
    as [f'|e]; [|discriminate].
  inversion Hb; subst f'. inversion Hf; subst env. repeat split.
Qed.




End FormatterFacts.



Lemma detail_rows_nonempty : Forall (fun r : row => r <> []) detail_rows.
Proof. repeat constructor; discriminate. Qed.



Example both_values_named :
  missing_values (unescaped (py "Reclamatiile sunt 97246 si 97247."))
                 detail_rows = [].
Proof. reflexivity. Qed.

Example partial_listing_text :
  fst (format_response (says partial_reply) scripted_loads plain_wording
         (py "Ce reclamatii sunt?") detail_sql detail_rows detail_columns
         None fresh)
  = inr [ (py "text",
           FStr (py "Am gasit 2 reclamatii: 97246." ++ newline ++ newline
                 ++ py "**Lista detaliată (2 înregistrări):**" ++ newline
                 ++ py "• 97246 (Brasov) - pazie defecta" ++ newline
                 ++ py "• 97247 (Militari)"));
          (py "visualization", FStr (py "none"));
          (py "data", FRows []);
          (py "columns", FCols []);
          (py "sql", FStr detail_sql);
          (py "row_count", FNat 2) ].
Proof. reflexivity. Qed.

(** ** The cardinality guard and the aggregation fallback *)

Lemma chart_requests_app : forall a b,
  chart_requests (a ++ b) = chart_requests a + chart_requests b.
Proof.
  intros. unfold chart_requests. now rewrite filter_app, length_app.
Qed.

Section ChatFacts.

Variable World : Type.
Variable Conn : Type.
Variable complete : request -> World -> completion * World.
Variable json_loads : str -> option json.
Variable connect : World -> (str + Conn) * World.
Variable execute : Conn -> str -> World -> exec_outcome * World.
Variable wording : fault -> str.
Variable column_order : list str.

Local Abbreviation generate_sql := (@generate_sql World Conn complete wording column_order).
Local Abbreviation generate_chart_query := (@generate_chart_query World Conn complete).
Local Abbreviation execute_query := (execute_query connect execute wording).
Local Abbreviation format_response := (@format_response World Conn complete json_loads wording).
Local Abbreviation true_total := (true_total connect execute wording).
Local Abbreviation aggregated := (aggregated complete connect execute wording).
Local Abbreviation answer := (answer complete json_loads connect execute wording).
Local Abbreviation chat := (chat complete json_loads connect execute wording column_order).

Lemma generate_sql_state : forall question (p p1 : process World Conn) r,
  generate_sql question p = (r, p1) ->
  (exists g, r = inr g)
  /\ _connection p1 = _connection p
  /\ requests p1 = requests p ++ [ReqSql question].
Proof.
  intros question p p1 r. unfold Agent.generate_sql, try_except, bind, call_model.
  destruct (complete (ReqSql question) (world p)) as [[msg|[t|]] w];
    [| destruct (negb (is_select_or_with (clean_sql t))) |];
    intro H; inversion H; subst; cbn; repeat split; eauto.
Qed.

Lemma generate_chart_query_eq : forall question sql total (p : process World Conn),
  let req := ReqChart question sql total in
  generate_chart_query question sql total p
  = (inr (chart_sql (fst (complete req (world p)))),
     mkProcess (snd (complete req (world p))) (_connection p) (requests p ++ [req])).
Proof.
  intros. unfold Agent.generate_chart_query, try_except, bind, call_model.
  fold req. destruct (complete req (world p)) as [[msg|[t|]] w];
    cbn [fst snd chart_sql]; try reflexivity.
  destruct (is_select_or_with (clean_sql t)); reflexivity.
Qed.

Lemma chart_sql_select : forall c a,
  chart_sql c = Some a -> is_select_or_with a = true.
Proof.
  intros c a. unfold chart_sql. destruct c as [msg|[t|]]; try discriminate.
  destruct (is_select_or_with (clean_sql t)) eqn:E; [|discriminate].
  intro H. inversion H; subst. exact E.
Qed.

Lemma true_total_state : forall sql n (p p' : process World Conn) t con,
  true_total sql n p = (inr t, p') ->
  _connection p = Some con ->
  _connection p' = Some con /\ requests p' = requests p.
Proof.
  intros sql n p p' t con H Hc. unfold Agent.true_total in H.
  destruct (_extract_count_query sql) as [count_sql|].
  - unfold bind in H.
    destruct (execute_query_open connect execute wording count_sql p Hc)
      as [r [p1 [E [Hc1 Hr1]]]].
    rewrite E in H.
    assert (Hp : p' = p1).
    { destruct (fst (fst r)) as [|r0 [|]]; try (inversion H; reflexivity).
      destruct (primary r0) as [f|[| | |? [z|] ?| |]];
        inversion H; reflexivity. }
    subst p'. split; assumption.
  - inversion H; subst. split; [assumption|reflexivity].
Qed.

(** The aggregated attempt never raises once the connection is open, and
    makes exactly one request to the completion service. *)
Lemma aggregated_soft : forall question sql total (p : process World Conn) con,
  _connection p = Some con ->
  exists outcome p',
    aggregated question sql total p = (inr outcome, p')
    /\ _connection p' = Some con
    /\ requests p' = requests p ++ [ReqChart question sql total].
Proof.
  intros question sql total p con Hc.
  unfold Agent.aggregated, bind. rewrite generate_chart_query_eq.
  set (req := ReqChart question sql total).
  set (p1 := mkProcess (snd (complete req (world p))) (_connection p)
                       (requests p ++ [req])).
  destruct (chart_sql (fst (complete req (world p)))) as [[|c a]|].
  - do 2 eexists. split; [reflexivity|]. split; [exact Hc|reflexivity].
  - destruct (execute_query_open connect execute wording (c :: a) p1 Hc)
      as [[[ar ac] ae] [p2 [E [Hc2 Hr2]]]].
    rewrite E.
    destruct ar as [|r0 ar]; [|destruct (negb (is_error ae))];
      do 2 eexists; (split; [reflexivity|]); (split; [exact Hc2|exact Hr2]).
  - do 2 eexists. split; [reflexivity|]. split; [exact Hc|reflexivity].
Qed.

(** When the attempt yields something to show, it is what the generated
    query returned: the query starts with SELECT or WITH, ran without
    error and returned at least one row. *)
Lemma aggregated_some : forall question sql total (p p' : process World Conn)
                               a ar ac,
  aggregated question sql total p = (inr (Some (a, ar, ac)), p') ->
  exists p1 ae,
    generate_chart_query question sql total p = (inr (Some a), p1)
    /\ is_select_or_with a = true
    /\ execute_query a p1 = (inr (ar, ac, ae), p')
    /\ is_error ae = false /\ ar <> [].
Proof.
  intros question sql total p p' a ar ac.
  unfold Agent.aggregated, bind. rewrite generate_chart_query_eq.
  set (req := ReqChart question sql total).
  destruct (chart_sql (fst (complete req (world p)))) as [[|c a']|] eqn:Ea;
    try (intro H; discriminate).
  destruct (execute_query (c :: a') _) as [[f|[[ar' ac'] ae']] p2] eqn:E;
    [intro H; discriminate|].
  destruct ar' as [|r0 ar']; [intro H; discriminate|].
  destruct (is_error ae') eqn:Ee; cbn [negb]; intro H; inversion H; subst.
  do 2 eexists. split; [reflexivity|].
  split; [exact (chart_sql_select _ Ea)|].
  split; [exact E|]. split; [exact Ee|discriminate].
Qed.

(** When it yields nothing, a step of it failed: no query was generated,
    or its execution reported an error, or it returned no row. *)
Lemma aggregated_none : forall question sql total (p p' : process World Conn),
  aggregated question sql total p = (inr None, p') ->
  (exists p1, generate_chart_query question sql total p = (inr None, p1))
  \/ (exists a p1 ar ac ae,
        generate_chart_query question sql total p = (inr (Some a), p1)
        /\ execute_query a p1 = (inr (ar, ac, ae), p')
        /\ (is_error ae = true \/ ar = [])).
Proof.
  intros question sql total p p'.
  unfold Agent.aggregated, bind. rewrite generate_chart_query_eq.
  set (req := ReqChart question sql total).
  destruct (chart_sql (fst (complete req (world p)))) as [[|c a']|] eqn:Ea.
  - pose proof (chart_sql_select _ Ea) as C. discriminate.
  - destruct (execute_query (c :: a') _) as [[f|[[ar' ac'] ae']] p2] eqn:E;
      [intro H; discriminate|].
    intro H. right. exists (c :: a'). eexists. exists ar', ac', ae'.
    split; [reflexivity|].
    destruct ar' as [|r0 ar'].
    + inversion H; subst. split; [exact E|now right].
    + destruct (is_error ae') eqn:Ee; cbn [negb] in H; inversion H; subst.
      split; [exact E|now left].
  - intro H. left. eexists. reflexivity.
Qed.


End ChatFacts.


(** ** The visualization classifier *)

(** C2, as amended.  [_guess_visualization] applies its rules in this
    order: an empty result, and a single row of at most two columns, give
    [none]; so does a column set that one of the identifier / free-text
    exclusions catches; next, a result with no numeric column name and a
    second column whose first value is not a number gives [table] up to
    15 rows and [none] above; only then a temporal column name with more
    than 2 rows gives a bar chart; then exactly 2 columns and at most 8
    rows give a pie chart up to 6 rows and a bar chart above; everything
    else gives a bar chart.  [table] comes from the numeric rule alone and
    a pie chart from the two-column rule alone. *)
Theorem guess_visualization_rules :
  forall results columns,
    let n := List.length results in
    let v := _guess_visualization results columns in
    (results = [] -> v = VizNone)
    /\ (n = 1 /\ List.length columns <= 2 -> v = VizNone)
    /\ (excluded columns = true -> v = VizNone)
    /\ (results <> [] /\ ~ (n = 1 /\ List.length columns <= 2)
        /\ excluded columns = false ->
        (second_not_numeric results columns = true ->
           (n <= 15 -> v = VizTable) /\ (15 < n -> v = VizNone))
        /\ (second_not_numeric results columns = false ->
              (has_time columns = true /\ 2 < n -> v = VizBar)
              /\ (~ (has_time columns = true /\ 2 < n) ->
                    (List.length columns = 2 /\ n <= 6 -> v = VizPie)
                    /\ (~ (List.length columns = 2 /\ n <= 6) -> v = VizBar))))
    /\ (v = VizTable ->
        second_not_numeric results columns = true /\ n <= 15)
    /\ (v = VizPie ->
        List.length columns = 2 /\ n <= 6
        /\ second_not_numeric results columns = false
        /\ ~ (has_time columns = true /\ 2 < n)).
Proof.
  intros results columns n v. subst n v. unfold _guess_visualization.
  destruct results as [|r0 rs].
  { repeat split; intros; try reflexivity; try discriminate;
      match goal with H : [] <> [] /\ _ |- _ => destruct H as [C _] end;
      now contradiction C. }
  set (n := List.length (r0 :: rs)).
  destruct (n =? 1) eqn:E1; destruct (List.length columns <=? 2) eqn:E2;
    destruct (excluded columns) eqn:Ex;
    destruct (second_not_numeric (r0 :: rs) columns) eqn:Es;
    destruct (has_time columns) eqn:Et;
    destruct (2 <? n) eqn:E3; destruct (n <=? 15) eqn:E15;
    destruct (n <=? 8) eqn:E8; destruct (n <=? 6) eqn:E6;
    destruct (List.length columns =? 2) eqn:Ec;
    cbn [andb];
    repeat match goal with
           | H : (_ =? _) = true |- _ => apply Nat.eqb_eq in H
           | H : (_ =? _) = false |- _ => apply Nat.eqb_neq in H
           | H : (_ <=? _) = true |- _ => apply Nat.leb_le in H
           | H : (_ <=? _) = false |- _ => apply Nat.leb_gt in H
           | H : (_ <? _) = true |- _ => apply Nat.ltb_lt in H
           | H : (_ <? _) = false |- _ => apply Nat.ltb_ge in H
           end;
    try lia;
    repeat split; intros;
    repeat match goal with
           | H : _ /\ _ |- _ => destruct H
           end;
    try reflexivity; try discriminate; try lia;
    try (exfalso; match goal with H : ~ _ |- _ => apply H end; split; (reflexivity || lia)).
Qed.

(** C2, as stated, fails: a result with the temporal column [luna] and
    three rows, which no exclusion catches, is mapped to [table], not to
    a bar chart. *)
Lemma temporal_result_mapped_to_table :
  has_time month_by_department = true
  /\ excluded month_by_department = false
  /\ List.length month_rows = 3
  /\ _guess_visualization month_rows month_by_department = VizTable.
Proof. repeat split; reflexivity. Qed.

(** ** The SQL corrector *)

(** ** The matcher on the LIMIT patterns *)

Lemma hd_error_map : forall A B (f : A -> B) l,
  hd_error (map f l) = option_map f (hd_error l).
Proof. intros A B f [|x l]; reflexivity. Qed.

Lemma flat_map_nil : forall A B (f : A -> list B) l,
  (forall x, In x l -> f x = []) -> flat_map f l = [].
Proof.
  intros A B f l H. induction l as [|x l IH]; [reflexivity|].
  cbn. rewrite (H x (or_introl eq_refl)), IH; [reflexivity|].
  intros y Hy. apply H. now right.
Qed.

Lemma matches_seq_one : forall r1 r2 pre suf m,
  matches r1 pre suf = [m] ->
  matches (RSeq r1 r2) pre suf
  = map (after m) (matches r2 (rev (firstn (fst m) suf) ++ pre)
                           (skipn (fst m) suf)).
Proof.
  intros r1 r2 pre suf m H. cbn [matches]. rewrite H. cbn [flat_map].
  apply app_nil_r.
Qed.

Lemma matches_seq_none : forall r1 r2 pre suf,
  matches r1 pre suf = [] -> matches (RSeq r1 r2) pre suf = [].
Proof. intros r1 r2 pre suf H. cbn [matches]. now rewrite H. Qed.

Lemma matches_rlit_ci : forall w, w <> [] -> forall pre suf,
  matches (rlit_ci w) pre suf
  = if starts_ci w suf then [(List.length w, [])] else [].
Proof.
  induction w as [|x w IH]; [congruence|]. intros _ pre suf.
  destruct w as [|x' w'].
  - unfold rlit_ci. cbn [map rseq matches starts_ci].
    destruct suf as [|c s]; cbn [head_is]; [reflexivity|].
    rewrite andb_true_r. reflexivity.
  - change (rlit_ci (x :: x' :: w'))
      with (RSeq (RChr (chr_is_ci x)) (rlit_ci (x' :: w'))).
    destruct suf as [|c s].
    + apply matches_seq_none. reflexivity.
    + change (starts_ci (x :: x' :: w') (c :: s))
        with (chr_is_ci x c && starts_ci (x' :: w') s).
      destruct (chr_is_ci x c) eqn:E.
      * rewrite (@matches_seq_one _ _ _ _ (1, [])).
        2:{ cbn [matches head_is]. now rewrite E. }
        cbn [fst firstn skipn rev app andb].
        rewrite IH by discriminate.
        destruct (starts_ci (x' :: w') s); reflexivity.
      * apply matches_seq_none. cbn [matches head_is]. now rewrite E.
Qed.

Lemma matches_rplus : forall p pre s,
  matches (rplus p) pre s
  = if head_is p s
    then map (fun k => (S k, [])) (rev (seq 0 (S (run p (tl s)))))
    else [].
Proof.
  intros p pre s. unfold rplus.
  destruct s as [|c s]; [reflexivity|]. cbn [head_is tl].
  destruct (p c) eqn:E.
  - rewrite (@matches_seq_one _ _ _ _ (1, [])).
    2:{ cbn [matches head_is]. now rewrite E. }
    cbn [fst firstn skipn matches]. rewrite map_map. reflexivity.
  - apply matches_seq_none. cbn [matches head_is]. now rewrite E.
Qed.

Lemma head_skipn_run : forall p s j,
  j < run p s -> head_is p (skipn j s) = true.
Proof.
  intros p s. induction s as [|c s IH]; intros j H; cbn [run] in H; [lia|].
  destruct (p c) eqn:E; [|lia].
  destruct j as [|j]; cbn [skipn head_is]; [exact E|]. apply IH. lia.
Qed.

Lemma head_after_run : forall p s, head_is p (skipn (run p s) s) = false.
Proof.
  intros p s. induction s as [|c s IH]; [reflexivity|]. cbn [run].
  destruct (p c) eqn:E; [exact IH|]. cbn [skipn head_is]. exact E.
Qed.

Lemma run_pos_head : forall p s, (0 <? run p s) = head_is p s.
Proof.
  intros p [|c s]; [reflexivity|]. cbn [run head_is].
  destruct (p c); reflexivity.
Qed.

(** [c+] followed by a pattern that cannot start with a [c]: the run of
    [c] is taken whole. *)
Lemma matches_plus_then : forall p X pre s,
  (forall pre' s', head_is p s' = true -> matches X pre' s' = []) ->
  matches (RSeq (rplus p) X) pre s
  = if 0 <? run p s
    then map (after (run p s, []))
             (matches X (rev (firstn (run p s) s) ++ pre) (skipn (run p s) s))
    else [].
Proof.
  intros p X pre s HX. rewrite run_pos_head.
  cbn [matches]. fold (rplus p). rewrite matches_rplus.
  destruct s as [|c s]; [reflexivity|]. cbn [head_is tl run].
  destruct (p c) eqn:E; [|reflexivity].
  rewrite seq_S, rev_app_distr. cbn [rev app map flat_map plus fst].
  rewrite flat_map_nil; [apply app_nil_r|].
  intros m Hm. apply in_map_iff in Hm. destruct Hm as [k [<- Hk]].
  apply in_rev, in_seq in Hk. cbn [fst].
  rewrite HX; [reflexivity|]. cbn [skipn]. apply head_skipn_run. lia.
Qed.

(** ** Characters, by enumeration *)

Lemma all_ascii_spec : forall f, all_ascii f = true -> forall c, f c = true.
Proof.
  intros f H c. unfold all_ascii in H. rewrite forallb_forall in H.
  apply H. apply in_map_iff. exists (nat_of_ascii c).
  split; [apply ascii_nat_embedding|].
  apply in_seq. pose proof (nat_ascii_bounded c). lia.
Qed.

Lemma space_not_digit : forall c, is_space_c c = true -> is_digit_c c = false.
Proof.
  intros c. 
  pose proof (all_ascii_spec (fun c => implb (is_space_c c) (negb (is_digit_c c))) eq_refl c) as H.
  cbn beta in H. intros E. rewrite E in H. cbn [implb] in H.
  destruct (is_digit_c c); [discriminate H|reflexivity].
Qed.

Lemma ci_same_upper : forall x c, chr_is_ci x c = true -> upper_c c = upper_c x.
Proof.
  intros x c.
  pose proof (all_ascii_spec
                (fun x => all_ascii
                   (fun c => implb (chr_is_ci x c)
                                   (chr_eqb (upper_c c) (upper_c x))))) as H.
  assert (G : all_ascii (fun x => all_ascii
                   (fun c => implb (chr_is_ci x c)
                                   (chr_eqb (upper_c c) (upper_c x)))) = true)
    by (vm_compute; reflexivity).
  pose proof (all_ascii_spec _ (H G x) c) as K. cbn beta in K.
  intro E. rewrite E in K. cbn [implb] in K. now apply Ascii.eqb_eq in K.
Qed.

Lemma hd_matches_rplus : forall p pre s,
  hd_error (matches (rplus p) pre s)
  = if 0 <? run p s then Some (run p s, []) else None.
Proof.
  intros p pre s. rewrite matches_rplus, run_pos_head.
  destruct s as [|c s]; [reflexivity|]. cbn [head_is tl run].
  destruct (p c); [|reflexivity].
  rewrite seq_S, rev_app_distr. reflexivity.
Qed.

Lemma hd_matches_group_rplus : forall n p pre s,
  hd_error (matches (RGrp n (rplus p)) pre s)
  = if 0 <? run p s
    then Some (run p s, [(n, firstn (run p s) s)])
    else None.
Proof.
  intros n p pre s. cbn [matches]. fold (rplus p).
  rewrite hd_error_map, hd_matches_rplus.
  destruct (0 <? run p s); reflexivity.
Qed.

Lemma digits_refuse_space : forall n pre s,
  head_is is_space_c s = true ->
  matches (RGrp n (rplus is_digit_c)) pre s = [].
Proof.
  intros n pre s H. cbn [matches]. fold (rplus is_digit_c).
  rewrite matches_rplus.
  destruct s as [|c s]; [discriminate|]. cbn [head_is] in *.
  now rewrite (space_not_digit _ H).
Qed.

Lemma plain_digits_refuse_space : forall pre s,
  head_is is_space_c s = true -> matches (rplus is_digit_c) pre s = [].
Proof.
  intros pre s H. rewrite matches_rplus.
  destruct s as [|c s]; [discriminate|]. cbn [head_is] in *.
  now rewrite (space_not_digit _ H).
Qed.

(** The matcher on [LIMIT\s+(\d+)] computes [limit_at]. *)
Lemma match_at_LIMIT_RE : forall pre suf,
  match_at LIMIT_RE pre suf
  = option_map (fun m : nat * str => (fst m, [(1, snd m)])) (limit_at suf).
Proof.
  intros pre suf. unfold match_at, limit_at.
  change LIMIT_RE
    with (RSeq (rlit_ci (py "LIMIT"))
               (RSeq (rplus is_space_c) (RGrp 1 (rplus is_digit_c)))).
  destruct (starts_ci (py "LIMIT") suf) eqn:E.
  - rewrite (@matches_seq_one _ _ _ _ (5, [])).
    2:{ rewrite matches_rlit_ci by discriminate. now rewrite E. }
    cbn [fst]. rewrite hd_error_map.
    rewrite matches_plus_then by (intros; now apply digits_refuse_space).
    set (t := skipn 5 suf). set (k := run is_space_c t).
    destruct (0 <? k); [|reflexivity]. cbn [andb].
    rewrite hd_error_map, hd_matches_group_rplus.
    destruct (0 <? run is_digit_c (skipn k t)); reflexivity.
  - rewrite matches_seq_none; [reflexivity|].
    rewrite matches_rlit_ci by discriminate. now rewrite E.
Qed.

(** The matcher on [LIMIT\s+\d+] computes [limit_at] too. *)
Lemma match_at_LIMIT_SUB_RE : forall pre suf,
  match_at LIMIT_SUB_RE pre suf = limit_matcher pre suf.
Proof.
  intros pre suf. unfold match_at, limit_matcher, limit_at.
  change LIMIT_SUB_RE
    with (RSeq (rlit_ci (py "LIMIT"))
               (RSeq (rplus is_space_c) (rplus is_digit_c))).
  destruct (starts_ci (py "LIMIT") suf) eqn:E.
  - rewrite (@matches_seq_one _ _ _ _ (5, [])).
    2:{ rewrite matches_rlit_ci by discriminate. now rewrite E. }
    cbn [fst]. rewrite hd_error_map.
    rewrite matches_plus_then by (intros; now apply plain_digits_refuse_space).
    set (t := skipn 5 suf). set (k := run is_space_c t).
    destruct (0 <? k); [|reflexivity]. cbn [andb].
    rewrite hd_error_map, hd_matches_rplus.
    destruct (0 <? run is_digit_c (skipn k t)); reflexivity.
  - rewrite matches_seq_none; [reflexivity|].
    rewrite matches_rlit_ci by discriminate. now rewrite E.
Qed.

Lemma ci_is_upper_eq : forall x c,
  chr_is_ci x c = chr_eqb (upper_c x) (upper_c c).
Proof.
  intros x c.
  assert (G : all_ascii (fun x => all_ascii
                (fun c => Bool.eqb (chr_is_ci x c)
                                   (chr_eqb (upper_c x) (upper_c c)))) = true)
    by (vm_compute; reflexivity).
  pose proof (all_ascii_spec _ (all_ascii_spec _ G x) c) as K.
  cbn beta in K. now apply Bool.eqb_prop in K.
Qed.

Lemma starts_ci_upper : forall w s,
  starts_ci w s = startswith (upper w) (upper s).
Proof.
  induction w as [|x w IH]; intros [|c s]; try reflexivity.
  cbn [starts_ci upper map startswith]. fold (upper w) (upper s).
  now rewrite ci_is_upper_eq, IH.
Qed.

Lemma upper_app : forall a b, upper (a ++ b) = upper a ++ upper b.
Proof. intros. apply map_app. Qed.

(** ** Searching and substituting with the direct reading *)

Lemma search_from_ext : forall m1 m2 : matcher,
  (forall pre suf, m1 pre suf = m2 pre suf) ->
  forall suf pre, search_from m1 pre suf = search_from m2 pre suf.
Proof.
  intros m1 m2 H. induction suf as [|c s IH]; intro pre; cbn [search_from];
    rewrite H; [reflexivity|].
  destruct (m2 pre (c :: s)) as [[n g]|]; [reflexivity|apply IH].
Qed.

Lemma sub_go_ext : forall (m1 m2 : matcher) repl,
  (forall pre suf, m1 pre suf = m2 pre suf) ->
  forall suf skip pre, sub_go m1 repl skip pre suf = sub_go m2 repl skip pre suf.
Proof.
  intros m1 m2 repl H. induction suf as [|c s IH]; intros [|k] pre;
    cbn [sub_go]; try rewrite H; try reflexivity.
  - destruct (m2 pre (c :: s)) as [[[|n] g]|]; now rewrite IH.
  - apply IH.
Qed.

Lemma sub_go_limit_pre : forall repl suf skip pre1 pre2,
  sub_go limit_matcher repl skip pre1 suf
  = sub_go limit_matcher repl skip pre2 suf.
Proof.
  intros repl. induction suf as [|c s IH]; intros [|k] pre1 pre2;
    cbn [sub_go]; try reflexivity.
  - change (limit_matcher pre1 (c :: s)) with (limit_matcher pre2 (c :: s)).
    destruct (limit_matcher pre2 (c :: s)) as [[[|n] g]|];
      f_equal; apply IH.
  - apply IH.
Qed.

Lemma limit_match_find : forall sql, limit_match sql = find_limit sql.
Proof.
  intro sql. unfold limit_match, search.
  rewrite (@search_from_ext _ _ match_at_LIMIT_RE).
  generalize (@nil ascii) as pre.
  induction sql as [|c s IH]; intro pre; cbn [search_from find_limit].
  - destruct (limit_at []) as [[n ds]|]; reflexivity.
  - destruct (limit_at (c :: s)) as [[n ds]|]; [reflexivity|]. apply IH.
Qed.

Lemma raise_limits_go : forall sql, raise_limits sql = raise_go 0 sql.
Proof.
  intro sql. unfold raise_limits, sub, raise_go.
  apply sub_go_ext. exact match_at_LIMIT_SUB_RE.
Qed.

Lemma raise_go_nil : forall k, raise_go k [] = [].
Proof. intros [|k]; reflexivity. Qed.

Lemma raise_go_skip : forall k c s, raise_go (S k) (c :: s) = raise_go k s.
Proof.
  intros. unfold raise_go. cbn [sub_go]. apply sub_go_limit_pre.
Qed.

Lemma raise_go_skipn : forall k s, raise_go k s = raise_go 0 (skipn k s).
Proof.
  induction k as [|k IH]; intro s; [reflexivity|].
  destruct s as [|c s]; [reflexivity|].
  rewrite raise_go_skip. apply IH.
Qed.

Lemma limit_at_inv : forall s n ds,
  limit_at s = Some (n, ds) ->
  exists k d,
    starts_ci (py "LIMIT") s = true
    /\ k = run is_space_c (skipn 5 s)
    /\ d = run is_digit_c (skipn k (skipn 5 s))
    /\ 0 < k /\ 0 < d
    /\ n = 5 + k + d /\ ds = firstn d (skipn k (skipn 5 s)).
Proof.
  intros s n ds. unfold limit_at.
  destruct (starts_ci (py "LIMIT") s); [|discriminate].
  remember (skipn 5 s) as t eqn:Et.
  remember (run is_space_c t) as k eqn:Ek.
  remember (run is_digit_c (skipn k t)) as d eqn:Ed.
  destruct (0 <? k) eqn:Hk; [|discriminate].
  destruct (0 <? d) eqn:Hd; [|discriminate].
  cbn [andb]. intro H. exists k, d.
  apply Nat.ltb_lt in Hk. apply Nat.ltb_lt in Hd.
  assert (E : (5 + k + d, firstn d (skipn k t)) = (n, ds)) by congruence.
  apply pair_equal_spec in E. destruct E as [E1 E2].
  repeat split; auto.
Qed.

Lemma limit_at_length : forall s n ds, limit_at s = Some (n, ds) -> 7 <= n.
Proof.
  intros s n ds H. destruct (@limit_at_inv _ _ _ H) as [k [d H']]. lia.
Qed.

Lemma raise_go_hit : forall s n ds,
  limit_at s = Some (n, ds) ->
  raise_go 0 s = py "LIMIT 150" ++ raise_go 0 (skipn n s).
Proof.
  intros s n ds H. pose proof (@limit_at_length _ _ _ H) as Hn.
  destruct n as [|n]; [lia|].
  destruct s as [|c s]; [discriminate|].
  unfold raise_go at 1. cbn [sub_go]. unfold limit_matcher at 1.
  rewrite H. cbn [option_map fst].
  rewrite (sub_go_limit_pre _ s n [c] []).
  fold (raise_go n s). now rewrite raise_go_skipn.
Qed.

Lemma raise_go_miss : forall c s,
  limit_at (c :: s) = None -> raise_go 0 (c :: s) = c :: raise_go 0 s.
Proof.
  intros c s H. unfold raise_go at 1. cbn [sub_go]. unfold limit_matcher at 1.
  rewrite H. cbn [option_map]. f_equal. apply sub_go_limit_pre.
Qed.

(** ** The row cap *)

Lemma run_app_stop : forall p a b,
  head_is p b = false -> run p (a ++ b) = run p a.
Proof.
  intros p a b H. induction a as [|c a IH]; cbn [app run].
  - destruct b as [|x b]; [reflexivity|]. cbn [head_is] in H. cbn [run].
    now rewrite H.
  - destruct (p c); [now rewrite IH|reflexivity].
Qed.

Lemma run_le_length : forall p s, run p s <= List.length s.
Proof.
  intros p s. induction s as [|c s IH]; cbn [run List.length]; [lia|].
  destruct (p c); lia.
Qed.

(** A text of at least five characters, continued by something that
    starts with neither a blank nor a digit: whether it starts with a
    [LIMIT <digits>] does not depend on the continuation. *)
Lemma limit_at_long : forall c1 c2 c3 c4 c5 u x,
  head_is is_space_c x = false -> head_is is_digit_c x = false ->
  limit_at (c1 :: c2 :: c3 :: c4 :: c5 :: u ++ x)
  = limit_at (c1 :: c2 :: c3 :: c4 :: c5 :: u).
Proof.
  intros c1 c2 c3 c4 c5 u x Hs Hd. unfold limit_at.
  change (starts_ci (py "LIMIT") (c1 :: c2 :: c3 :: c4 :: c5 :: u ++ x))
    with (starts_ci (py "LIMIT") (c1 :: c2 :: c3 :: c4 :: c5 :: u)).
  destruct (starts_ci (py "LIMIT") (c1 :: c2 :: c3 :: c4 :: c5 :: u));
    [|reflexivity].
  cbn [skipn]. rewrite (@run_app_stop _ u x Hs).
  set (k := run is_space_c u).
  assert (Hk : k <= List.length u) by apply run_le_length.
  rewrite skipn_app. replace (k - List.length u) with 0 by lia.
  cbn [skipn]. rewrite (@run_app_stop _ (skipn k u) x Hd).
  set (d := run is_digit_c (skipn k u)).
  assert (Hd' : d <= List.length (skipn k u)) by apply run_le_length.
  rewrite firstn_app. replace (d - List.length (skipn k u)) with 0 by lia.
  cbn [firstn]. now rewrite app_nil_r.
Qed.

Lemma ci_L_inert : forall c,
  chr_is_ci "L"%char c = true -> is_space_c c = false /\ is_digit_c c = false.
Proof.
  intros c H.
  pose proof (all_ascii_spec
                (fun c => implb (chr_is_ci "L"%char c)
                                (negb (is_space_c c) && negb (is_digit_c c)))
                eq_refl c) as K.
  cbn beta in K. rewrite H in K. cbn [implb] in K.
  apply andb_true_iff in K. destruct K as [K1 K2].
  split; [now destruct (is_space_c c)|now destruct (is_digit_c c)].
Qed.

Lemma limit_at_head : forall s n ds,
  limit_at s = Some (n, ds) ->
  head_is is_space_c s = false /\ head_is is_digit_c s = false.
Proof.
  intros s n ds H. destruct (@limit_at_inv _ _ _ H) as [k [d [Hs _]]].
  destruct s as [|c s]; [discriminate|]. cbn [head_is].
  change (starts_ci (py "LIMIT") (c :: s))
    with (chr_is_ci "L"%char c && starts_ci (py "IMIT") s) in Hs.
  apply andb_true_iff in Hs. now apply ci_L_inert.
Qed.

Lemma limit_at_rest : forall s n ds,
  limit_at s = Some (n, ds) -> head_is is_digit_c (skipn n s) = false.
Proof.
  intros s n ds H.
  destruct (@limit_at_inv _ _ _ H) as [k [d [_ [Hk [Hd [_ [_ [Hn _]]]]]]]].
  subst n. replace (5 + k + d) with (d + (k + 5)) by lia.
  rewrite <- !skipn_skipn. rewrite Hd. apply head_after_run.
Qed.

Lemma raise_go_head : forall s,
  head_is is_digit_c s = false -> head_is is_digit_c (raise_go 0 s) = false.
Proof.
  intros [|c s] H; [reflexivity|].
  destruct (limit_at (c :: s)) as [[n ds]|] eqn:E.
  - rewrite (@raise_go_hit _ _ _ E). reflexivity.
  - rewrite (@raise_go_miss _ _ E). exact H.
Qed.

Lemma limit_at_raised : forall r,
  head_is is_digit_c r = false ->
  limit_at (py "LIMIT 150" ++ r) = Some (9, py "150").
Proof.
  intros r H. unfold limit_at.
  change (starts_ci (py "LIMIT") (py "LIMIT 150" ++ r)) with true.
  change (skipn 5 (py "LIMIT 150" ++ r)) with (py " 150" ++ r).
  change (run is_space_c (py " 150" ++ r)) with 1.
  change (skipn 1 (py " 150" ++ r)) with (py "150" ++ r).
  rewrite (@run_app_stop _ (py "150") r H).
  reflexivity.
Qed.

(** The substitution creates no match to the left of the matches it
    rewrites. *)
Lemma raise_go_no_new_match : forall s u,
  limit_at (u ++ s) = None -> limit_at (u ++ raise_go 0 s) = None.
Proof.
  induction s as [|c s IH]; intros u H; [exact H|].
  destruct (limit_at (c :: s)) as [[n ds]|] eqn:E.
  - rewrite (@raise_go_hit _ _ _ E).
    destruct (@limit_at_head _ _ _ E) as [Hs Hd].
    destruct u as [|u1 [|u2 [|u3 [|u4 [|u5 u]]]]].
    + cbn [app] in H. congruence.
    + unfold limit_at.
      change (starts_ci (py "LIMIT") ([u1] ++ py "LIMIT 150" ++ raise_go 0 (skipn n (c :: s))))
        with (chr_is_ci "L"%char u1 && false).
      now rewrite andb_false_r.
    + unfold limit_at.
      change (starts_ci (py "LIMIT") ([u1; u2] ++ py "LIMIT 150" ++ raise_go 0 (skipn n (c :: s))))
        with (chr_is_ci "L"%char u1 && (chr_is_ci "I"%char u2 && false)).
      now rewrite !andb_false_r.
    + unfold limit_at.
      change (starts_ci (py "LIMIT") ([u1; u2; u3] ++ py "LIMIT 150" ++ raise_go 0 (skipn n (c :: s))))
        with (chr_is_ci "L"%char u1 && (chr_is_ci "I"%char u2
              && (chr_is_ci "M"%char u3 && false))).
      now rewrite !andb_false_r.
    + unfold limit_at.
      change (starts_ci (py "LIMIT") ([u1; u2; u3; u4] ++ py "LIMIT 150" ++ raise_go 0 (skipn n (c :: s))))
        with (chr_is_ci "L"%char u1 && (chr_is_ci "I"%char u2
              && (chr_is_ci "M"%char u3 && (chr_is_ci "I"%char u4 && false)))).
      now rewrite !andb_false_r.
    + cbn [app] in *.
      rewrite limit_at_long in H by assumption.
      rewrite limit_at_long by reflexivity. exact H.
  - rewrite (@raise_go_miss _ _ E).
    change (u ++ c :: raise_go 0 s) with (u ++ [c] ++ raise_go 0 s).
    rewrite app_assoc. apply IH. rewrite <- app_assoc. exact H.
Qed.

Lemma find_limit_hit : forall s n ds,
  limit_at s = Some (n, ds) -> find_limit s = Some (int_of_digits ds).
Proof.
  intros [|c s] n ds H; cbn [find_limit]; now rewrite H.
Qed.

Lemma find_limit_miss : forall c s,
  limit_at (c :: s) = None -> find_limit (c :: s) = find_limit s.
Proof. intros c s H. cbn [find_limit]. now rewrite H. Qed.

(** After the substitution the first limit is 150. *)
Lemma find_limit_raised : forall s v,
  find_limit s = Some v -> find_limit (raise_go 0 s) = Some 150%Z.
Proof.
  induction s as [|c s IH]; intros v H.
  - cbn in H. discriminate.
  - destruct (limit_at (c :: s)) as [[n ds]|] eqn:E.
    + rewrite (@raise_go_hit _ _ _ E).
      rewrite (@find_limit_hit _ 9 (py "150")); [reflexivity|].
      apply limit_at_raised, raise_go_head, (@limit_at_rest _ _ _ E).
    + rewrite (@find_limit_miss _ _ E) in H.
      rewrite (@raise_go_miss _ _ E).
      rewrite find_limit_miss; [now apply (IH v)|].
      apply (@raise_go_no_new_match s [c]). exact E.
Qed.

Lemma contains_cons : forall w c s,
  contains w (c :: s) = startswith w (c :: s) || contains w s.
Proof. reflexivity. Qed.

Lemma limit_at_starts : forall s n ds,
  limit_at s = Some (n, ds) -> startswith (py "LIMIT") (upper s) = true.
Proof.
  intros s n ds H. destruct (@limit_at_inv _ _ _ H) as [k [d [Hs _]]].
  rewrite starts_ci_upper in Hs. exact Hs.
Qed.

(** A text with a [LIMIT <digits>] holds the word LIMIT. *)
Lemma find_limit_has_limit : forall s v,
  find_limit s = Some v -> has_limit s = true.
Proof.
  unfold has_limit. induction s as [|c s IH]; intros v H.
  - cbn in H. discriminate.
  - change (upper (c :: s)) with (upper_c c :: upper s).
    rewrite contains_cons.
    destruct (limit_at (c :: s)) as [[n ds]|] eqn:E.
    + change (upper_c c :: upper s) with (upper (c :: s)).
      now rewrite (@limit_at_starts _ _ _ E).
    + rewrite (@find_limit_miss _ _ E) in H. rewrite (IH v H).
      apply orb_true_r.
Qed.

Lemma starts_limit_before_blank : forall r,
  startswith (py "LIMIT") (upper (r ++ py " LIMIT 150")) = true ->
  startswith (py "LIMIT") (upper r) = true.
Proof.
  intros [|c1 [|c2 [|c3 [|c4 [|c5 r]]]]] H;
    try exact H; exfalso; revert H;
    unfold upper; cbn [map app]; unfold py; cbn [list_ascii_of_string map app startswith];
    rewrite ?andb_false_r; discriminate.
Qed.

(** The limit appended to a text without the word LIMIT is its first. *)
Lemma find_limit_appended : forall r,
  contains (py "LIMIT") (upper r) = false ->
  find_limit (r ++ py " LIMIT 150") = Some 150%Z.
Proof.
  induction r as [|c r IH]; intro H; [reflexivity|].
  change (upper (c :: r)) with (upper_c c :: upper r) in H.
  rewrite contains_cons in H. apply orb_false_iff in H. destruct H as [H1 H2].
  change ((c :: r) ++ py " LIMIT 150") with (c :: r ++ py " LIMIT 150").
  rewrite find_limit_miss; [exact (IH H2)|].
  destruct (limit_at (c :: r ++ py " LIMIT 150")) as [[n ds]|] eqn:E;
    [|reflexivity].
  apply limit_at_starts in E.
  change (c :: r ++ py " LIMIT 150") with ((c :: r) ++ py " LIMIT 150") in E.
  apply starts_limit_before_blank in E.
  change (upper (c :: r)) with (upper_c c :: upper r) in E. congruence.
Qed.

Lemma drop_while_split : forall p l,
  exists a, l = a ++ drop_while p l /\ forallb p a = true.
Proof.
  intros p l. induction l as [|c l [a [E F]]].
  - exists []. split; reflexivity.
  - cbn [drop_while]. destruct (p c) eqn:Pc.
    + exists (c :: a). split; [cbn; congruence|]. cbn. now rewrite Pc.
    + exists []. split; reflexivity.
Qed.

(** [rstrip] leaves a prefix and drops only what it strips. *)
Lemma rstrip_split : forall p s,
  exists t, s = rstrip_by p s ++ t /\ forallb p t = true.
Proof.
  intros p s. unfold rstrip_by.
  destruct (drop_while_split p (rev s)) as [a [E F]].
  exists (rev a). split.
  - rewrite <- rev_app_distr, <- E. symmetry. apply rev_involutive.
  - rewrite forallb_forall in *. intros x Hx. apply F. now apply in_rev.
Qed.

Lemma startswith_app : forall w a b,
  startswith w a = true -> startswith w (a ++ b) = true.
Proof.
  induction w as [|x w IH]; intros [|c a] b H; try reflexivity;
    try discriminate.
  cbn [app startswith] in *. apply andb_true_iff in H. destruct H as [H1 H2].
  now rewrite H1, (IH _ b H2).
Qed.

Lemma contains_app : forall w a b,
  contains w a = true -> contains w (a ++ b) = true.
Proof.
  intros w a b. induction a as [|c a IH]; intro H.
  - cbn [contains] in H. rewrite orb_false_r in H.
    destruct w; [|discriminate]. destruct b; reflexivity.
  - rewrite contains_cons in H. change ((c :: a) ++ b) with (c :: a ++ b).
    rewrite contains_cons. apply orb_true_iff in H. destruct H as [H|H].
    + change (c :: a ++ b) with ((c :: a) ++ b).
      now rewrite (startswith_app _ _ b H).
    + rewrite (IH H). apply orb_true_r.
Qed.

Lemma no_limit_rstrip : forall sql,
  has_limit sql = false ->
  contains (py "LIMIT") (upper (rstrip_semi sql)) = false.
Proof.
  intros sql H. unfold has_limit in H.
  destruct (rstrip_split (chr_eqb ";"%char) sql) as [t [E _]].
  fold (rstrip_semi sql) in E.
  destruct (contains (py "LIMIT") (upper (rstrip_semi sql))) eqn:C;
    [|reflexivity].
  rewrite E, upper_app in H. now rewrite (contains_app _ _ _ C) in H.
Qed.

Lemma enforce_row_cap_find : forall sql,
  enforce_row_cap sql
  = let sql1 :=
      match find_limit sql with
      | Some current_limit =>
          if (current_limit <? 150)%Z then raise_go 0 sql else sql
      | None => sql
      end in
    if negb (has_aggregation sql) && negb (has_limit sql)
    then rstrip_semi sql1 ++ py " LIMIT 150" else sql1.
Proof.
  intro sql. unfold enforce_row_cap.
  now rewrite limit_match_find, raise_limits_go.
Qed.

(** What the row cap does, case by case. *)
Lemma enforce_row_cap_cases : forall sql,
  (exists v, find_limit sql = Some v /\ (v < 150)%Z
             /\ enforce_row_cap sql = raise_go 0 sql)
  \/ (exists v, find_limit sql = Some v /\ (150 <= v)%Z
                /\ enforce_row_cap sql = sql)
  \/ (find_limit sql = None /\ has_limit sql = false
      /\ has_aggregation sql = false
      /\ enforce_row_cap sql = rstrip_semi sql ++ py " LIMIT 150")
  \/ (find_limit sql = None
      /\ (has_limit sql = true \/ has_aggregation sql = true)
      /\ enforce_row_cap sql = sql).
Proof.
  intro sql. rewrite enforce_row_cap_find. cbv zeta.
  destruct (find_limit sql) as [v|] eqn:F.
  - rewrite (find_limit_has_limit _ F), andb_false_r.
    destruct (v <? 150)%Z eqn:L.
    + left. exists v. apply Z.ltb_lt in L. auto.
    + right. left. exists v. apply Z.ltb_ge in L. auto.
  - right. right.
    destruct (has_aggregation sql), (has_limit sql); cbn [negb andb]; auto 6.
Qed.


(** The row cap is idempotent. *)
Lemma enforce_row_cap_idempotent : forall sql,
  enforce_row_cap (enforce_row_cap sql) = enforce_row_cap sql.
Proof.
  intro sql.
  destruct (enforce_row_cap_cases sql)
    as [[v [F [L E]]]|[[v [F [L E]]]|[[F [Hl [Ha E]]]|[F [H E]]]]];
    rewrite E; try exact E.
  - pose proof (find_limit_raised _ F) as F'.
    rewrite enforce_row_cap_find. cbv zeta.
    rewrite F', (find_limit_has_limit _ F'), andb_false_r. reflexivity.
  - pose proof (find_limit_appended _ (no_limit_rstrip _ Hl)) as F'.
    rewrite enforce_row_cap_find. cbv zeta.
    rewrite F', (find_limit_has_limit _ F'), andb_false_r. reflexivity.
Qed.

(** ** What the limit substitution leaves in place *)

Lemma contains_any_suffix : forall w s,
  contains w s = any_suffix (startswith w) s.
Proof.
  intros w s. induction s as [|c s IH]; [reflexivity|].
  cbn [contains any_suffix]. now rewrite IH.
Qed.

Lemma contains_upper_any_suffix : forall w s,
  contains w (upper s) = any_suffix (fun z => startswith w (upper z)) s.
Proof.
  intros w s. induction s as [|c s IH]; [reflexivity|].
  change (upper (c :: s)) with (upper_c c :: upper s).
  cbn [contains any_suffix]. now rewrite IH.
Qed.

Lemma any_suffix_skip : forall occ z n,
  (forall j, j < n -> occ (skipn j z) = false) ->
  any_suffix occ z = any_suffix occ (skipn n z).
Proof.
  intros occ z n. revert z.
  induction n as [|n IH]; intros z H; [reflexivity|].
  destruct z as [|c z].
  - reflexivity.
  - cbn [any_suffix skipn].
    pose proof (H 0 (Nat.lt_0_succ n)) as H0. cbn [skipn] in H0.
    rewrite H0. cbn [orb].
    apply IH. intros j Hj. apply (H (S j)). lia.
Qed.

Section Preserved.

(** A pattern of occurrences that no match of [LIMIT <digits>] and no
    [LIMIT 150] can hold the start of, and that a rewriting further to the
    right does not disturb. *)
Variable occ : str -> bool.

Hypothesis occ_not_in_match : forall z n ds j,
  limit_at z = Some (n, ds) -> j < n -> occ (skipn j z) = false.

Hypothesis occ_not_in_new : forall y j,
  j < 9 -> occ (skipn j (py "LIMIT 150" ++ y)) = false.

Hypothesis occ_across : forall u z n ds y,
  u <> [] -> limit_at z = Some (n, ds) ->
  occ (u ++ py "LIMIT 150" ++ y) = occ (u ++ z).

Lemma occ_before_raise : forall s u,
  u <> [] -> occ (u ++ raise_go 0 s) = occ (u ++ s).
Proof.
  induction s as [|c s IH]; intros u Hu; [reflexivity|].
  destruct (limit_at (c :: s)) as [[n ds]|] eqn:E.
  - rewrite (@raise_go_hit _ _ _ E). now apply (@occ_across u (c :: s) n ds).
  - rewrite (@raise_go_miss _ _ E).
    change (u ++ c :: raise_go 0 s) with (u ++ [c] ++ raise_go 0 s).
    change (u ++ c :: s) with (u ++ [c] ++ s).
    rewrite !app_assoc. apply IH. now destruct u.
Qed.

Lemma any_suffix_raise_aux : forall len s,
  List.length s <= len ->
  any_suffix occ (raise_go 0 s) = any_suffix occ s.
Proof.
  induction len as [|len IH]; intros s Hlen.
  - destruct s; [reflexivity|cbn in Hlen; lia].
  - destruct s as [|c s]; [reflexivity|].
    destruct (limit_at (c :: s)) as [[n ds]|] eqn:E.
    + rewrite (@raise_go_hit _ _ _ E).
      pose proof (@limit_at_length _ _ _ E) as Hn.
      rewrite (@any_suffix_skip occ (py "LIMIT 150" ++ _) 9)
        by (intros; now apply occ_not_in_new).
      change (skipn 9 (py "LIMIT 150" ++ raise_go 0 (skipn n (c :: s))))
        with (raise_go 0 (skipn n (c :: s))).
      rewrite (@any_suffix_skip occ (c :: s) n)
        by (intros; now apply (@occ_not_in_match (c :: s) n ds)).
      apply IH. rewrite length_skipn. cbn [List.length] in *. lia.
    + rewrite (@raise_go_miss _ _ E). cbn [any_suffix].
      pose proof (@occ_before_raise s [c]) as Hc. cbn [app] in Hc.
      rewrite Hc by discriminate.
      f_equal. apply IH. cbn in Hlen. lia.
Qed.

Lemma any_suffix_raise : forall s,
  any_suffix occ (raise_go 0 s) = any_suffix occ s.
Proof. intro s. now apply any_suffix_raise_aux with (List.length s). Qed.

End Preserved.

Lemma limit_at_region : forall z n ds j,
  limit_at z = Some (n, ds) -> j < n ->
  head_is limit_char (skipn j z) = true.
Proof.
  intros z n ds j H Hj.
  destruct (@limit_at_inv _ _ _ H) as [k [d [Hs [Hk [Hd [_ [_ [Hn _]]]]]]]].
  destruct z as [|c1 [|c2 [|c3 [|c4 [|c5 t]]]]];
    try (exfalso; revert Hs; unfold py;
         cbn [list_ascii_of_string starts_ci]; rewrite ?andb_false_r;
         discriminate).
  change (starts_ci (py "LIMIT") (c1 :: c2 :: c3 :: c4 :: c5 :: t))
    with (chr_is_ci "L"%char c1 && (chr_is_ci "I"%char c2
          && (chr_is_ci "M"%char c3 && (chr_is_ci "I"%char c4
          && (chr_is_ci "T"%char c5 && true))))) in Hs.
  apply andb_true_iff in Hs. destruct Hs as [E1 Hs].
  apply andb_true_iff in Hs. destruct Hs as [E2 Hs].
  apply andb_true_iff in Hs. destruct Hs as [E3 Hs].
  apply andb_true_iff in Hs. destruct Hs as [E4 Hs].
  apply andb_true_iff in Hs. destruct Hs as [E5 _].
  cbn [skipn] in Hk, Hd.
  destruct j as [|[|[|[|[|j]]]]]; cbn [skipn head_is]; unfold limit_char.
  - rewrite E1. reflexivity.
  - rewrite E2. now rewrite !orb_true_r.
  - rewrite E3. now rewrite !orb_true_r.
  - rewrite E4. now rewrite !orb_true_r.
  - rewrite E5. now rewrite !orb_true_r.
  - destruct (Nat.lt_ge_cases j k) as [L|L].
    + subst k. pose proof (head_skipn_run _ _ L) as Hh.
      destruct (skipn j t) as [|x y]; [discriminate|]. cbn [head_is] in *.
      rewrite Hh. now rewrite !orb_true_r.
    + assert (L' : j - k < d) by lia.
      subst d. pose proof (head_skipn_run _ _ L') as Hh.
      rewrite skipn_skipn in Hh. replace (j - k + k) with j in Hh by lia.
      destruct (skipn j t) as [|x y]; [discriminate|]. cbn [head_is] in *.
      rewrite Hh. now rewrite !orb_true_r.
Qed.

Lemma ci_cases : forall x c,
  chr_is_ci x c = true -> c = upper_c x \/ c = lower_c x.
Proof.
  intros x c H.
  assert (G : all_ascii (fun x => all_ascii
                (fun c => implb (chr_is_ci x c)
                            (chr_eqb c (upper_c x) || chr_eqb c (lower_c x))))
              = true) by (vm_compute; reflexivity).
  pose proof (all_ascii_spec _ (all_ascii_spec _ G x) c) as K.
  cbn beta in K. rewrite H in K. cbn [implb] in K.
  apply orb_true_iff in K. destruct K as [K|K]; apply Ascii.eqb_eq in K; auto.
Qed.

Lemma limit_at_two : forall z n ds,
  limit_at z = Some (n, ds) ->
  exists c1 c2 z', z = c1 :: c2 :: z'
                   /\ (c1 = "L" \/ c1 = "l")%char /\ (c2 = "I" \/ c2 = "i")%char.
Proof.
  intros z n ds H.
  destruct (@limit_at_inv _ _ _ H) as [k [d [Hs _]]].
  destruct z as [|c1 [|c2 z']];
    try (exfalso; revert Hs; unfold py;
         cbn [list_ascii_of_string starts_ci]; rewrite ?andb_false_r;
         discriminate).
  change (starts_ci (py "LIMIT") (c1 :: c2 :: z'))
    with (chr_is_ci "L"%char c1 && (chr_is_ci "I"%char c2
          && starts_ci (py "MIT") z')) in Hs.
  apply andb_true_iff in Hs. destruct Hs as [H1 Hs].
  apply andb_true_iff in Hs. destruct Hs as [H2 _].
  exists c1, c2, z'. split; [reflexivity|].
  split; [exact (ci_cases _ _ H1)|exact (ci_cases _ _ H2)].
Qed.

Lemma limit_char_not : forall (x : ascii) c,
  limit_char x = false -> limit_char c = true -> chr_eqb x c = false.
Proof.
  intros x c Hx Hc. destruct (chr_eqb x c) eqn:E; [|reflexivity].
  apply Ascii.eqb_eq in E. congruence.
Qed.

Lemma limit_char_upper : forall c, limit_char (upper_c c) = limit_char c.
Proof.
  intro c.
  pose proof (all_ascii_spec
                (fun c => Bool.eqb (limit_char (upper_c c)) (limit_char c))
                eq_refl c) as K.
  cbn beta in K. now apply Bool.eqb_prop in K.
Qed.

(** Decide a comparison of two texts that start with known characters. *)
Ltac crunch :=
  unfold upper, py;
  cbn [list_ascii_of_string map app startswith skipn upper_c];
  cbn; rewrite ?andb_false_r; try reflexivity.

(** *** Occurrences of [FROM complaints] *)

Lemma at_table_not_in_match : forall z n ds j,
  limit_at z = Some (n, ds) -> j < n -> at_table (skipn j z) = false.
Proof.
  intros z n ds j H Hj. pose proof (limit_at_region _ H Hj) as R.
  destruct (skipn j z) as [|c y]; [reflexivity|]. cbn [head_is] in R.
  unfold at_table.
  change (startswith (py "FROM complaints") (c :: y))
    with (chr_eqb "F"%char c && startswith (py "ROM complaints") y).
  now rewrite (limit_char_not "F"%char c eq_refl R).
Qed.

Lemma at_table_not_in_new : forall y j,
  j < 9 -> at_table (skipn j (py "LIMIT 150" ++ y)) = false.
Proof.
  intros y j Hj.
  do 9 (destruct j as [|j]; [reflexivity|]). lia.
Qed.

Lemma at_table_across : forall u z n ds y,
  u <> [] -> limit_at z = Some (n, ds) ->
  at_table (u ++ py "LIMIT 150" ++ y) = at_table (u ++ z).
Proof.
  intros u z n ds y Hu H.
  destruct (@limit_at_two _ _ _ H) as [c1 [c2 [z' [-> [H1 H2]]]]].
  unfold at_table.
  destruct u as [|u1 u]; [congruence|].
  do 14 (destruct u as [|? u];
         [destruct H1 as [-> | ->]; destruct H2 as [-> | ->]; crunch|]).
  reflexivity.
Qed.

(** *** Occurrences of [FROM] in the upper-cased text *)

Lemma at_from_not_in_match : forall z n ds j,
  limit_at z = Some (n, ds) -> j < n -> at_from (skipn j z) = false.
Proof.
  intros z n ds j H Hj. pose proof (limit_at_region _ H Hj) as R.
  destruct (skipn j z) as [|c y]; [reflexivity|]. cbn [head_is] in R.
  unfold at_from.
  change (startswith (py "FROM") (upper (c :: y)))
    with (chr_eqb "F"%char (upper_c c) && startswith (py "ROM") (upper y)).
  rewrite <- limit_char_upper in R.
  now rewrite (limit_char_not "F"%char (upper_c c) eq_refl R).
Qed.

Lemma at_from_not_in_new : forall y j,
  j < 9 -> at_from (skipn j (py "LIMIT 150" ++ y)) = false.
Proof.
  intros y j Hj.
  do 9 (destruct j as [|j]; [reflexivity|]). lia.
Qed.

Lemma at_from_across : forall u z n ds y,
  u <> [] -> limit_at z = Some (n, ds) ->
  at_from (u ++ py "LIMIT 150" ++ y) = at_from (u ++ z).
Proof.
  intros u z n ds y Hu H.
  destruct (@limit_at_two _ _ _ H) as [c1 [c2 [z' [-> [H1 H2]]]]].
  unfold at_from.
  destruct u as [|u1 u]; [congruence|].
  do 3 (destruct u as [|? u];
        [destruct H1 as [-> | ->]; destruct H2 as [-> | ->]; crunch|]).
  reflexivity.
Qed.

(** The substitution keeps the table reference and the word FROM. *)
Lemma raise_keeps_table : forall s,
  contains (py "FROM complaints") (raise_go 0 s)
  = contains (py "FROM complaints") s.
Proof.
  intro s. rewrite !contains_any_suffix.
  apply (@any_suffix_raise at_table at_table_not_in_match
                           at_table_not_in_new at_table_across).
Qed.

Lemma raise_keeps_from : forall s,
  contains (py "FROM") (upper (raise_go 0 s)) = contains (py "FROM") (upper s).
Proof.
  intro s. rewrite !contains_upper_any_suffix.
  apply (@any_suffix_raise at_from at_from_not_in_match
                           at_from_not_in_new at_from_across).
Qed.

(** *** The leading SELECT or WITH *)

Lemma at_select_across : forall u z n ds y,
  u <> [] -> limit_at z = Some (n, ds) ->
  at_select (u ++ py "LIMIT 150" ++ y) = at_select (u ++ z).
Proof.
  intros u z n ds y Hu H.
  destruct (@limit_at_two _ _ _ H) as [c1 [c2 [z' [-> [H1 H2]]]]].
  unfold at_select.
  destruct u as [|u1 u]; [congruence|].
  do 5 (destruct u as [|? u];
        [destruct H1 as [-> | ->]; destruct H2 as [-> | ->]; crunch|]).
  reflexivity.
Qed.

Lemma at_with_across : forall u z n ds y,
  u <> [] -> limit_at z = Some (n, ds) ->
  at_with (u ++ py "LIMIT 150" ++ y) = at_with (u ++ z).
Proof.
  intros u z n ds y Hu H.
  destruct (@limit_at_two _ _ _ H) as [c1 [c2 [z' [-> [H1 H2]]]]].
  unfold at_with.
  destruct u as [|u1 u]; [congruence|].
  do 3 (destruct u as [|? u];
        [destruct H1 as [-> | ->]; destruct H2 as [-> | ->]; crunch|]).
  reflexivity.
Qed.

Lemma raise_keeps_start : forall occ : str -> bool,
  (forall u z n ds y, u <> [] -> limit_at z = Some (n, ds) ->
     occ (u ++ py "LIMIT 150" ++ y) = occ (u ++ z)) ->
  (forall z n ds y, limit_at z = Some (n, ds) ->
     occ (py "LIMIT 150" ++ y) = occ z) ->
  forall s, occ (raise_go 0 s) = occ s.
Proof.
  intros occ Hacross Hhead [|c s]; [reflexivity|].
  destruct (limit_at (c :: s)) as [[n ds]|] eqn:E.
  - rewrite (@raise_go_hit _ _ _ E). now apply (Hhead (c :: s) n ds).
  - rewrite (@raise_go_miss _ _ E).
    apply (@occ_before_raise occ Hacross s [c]). discriminate.
Qed.

Lemma raise_keeps_select : forall s,
  startswith (py "SELECT") (upper (raise_go 0 s))
  = startswith (py "SELECT") (upper s).
Proof.
  apply (@raise_keeps_start at_select at_select_across).
  intros z n ds y H.
  destruct (@limit_at_two _ _ _ H) as [c1 [c2 [z' [-> [H1 H2]]]]].
  unfold at_select. destruct H1 as [-> | ->]; reflexivity.
Qed.

Lemma raise_keeps_with : forall s,
  startswith (py "WITH") (upper (raise_go 0 s))
  = startswith (py "WITH") (upper s).
Proof.
  apply (@raise_keeps_start at_with at_with_across).
  intros z n ds y H.
  destruct (@limit_at_two _ _ _ H) as [c1 [c2 [z' [-> [H1 H2]]]]].
  unfold at_with. destruct H1 as [-> | ->]; reflexivity.
Qed.

(** ** Trailing semicolons and the appended limit *)

Lemma startswith_before_semis : forall w r t,
  no_semi w = true -> forallb (chr_eqb ";"%char) t = true ->
  startswith w (r ++ t) = true -> startswith w r = true.
Proof.
  induction w as [|x w IH]; intros r t Hw Ht H; [destruct r; reflexivity|].
  cbn [no_semi forallb] in Hw. apply andb_true_iff in Hw.
  destruct Hw as [Hx Hw].
  destruct r as [|c r].
  - destruct t as [|c t]; [discriminate|].
    cbn [app startswith] in H. apply andb_true_iff in H. destruct H as [H _].
    cbn [forallb] in Ht. apply andb_true_iff in Ht. destruct Ht as [Hc _].
    apply Ascii.eqb_eq in H, Hc. subst. unfold chr_eqb in Hx.
    rewrite Ascii.eqb_refl in Hx. discriminate.
  - cbn [app startswith] in *. apply andb_true_iff in H. destruct H as [H1 H2].
    rewrite H1. exact (IH r t Hw Ht H2).
Qed.

Lemma contains_semis : forall x w t,
  chr_eqb ";"%char x = false -> forallb (chr_eqb ";"%char) t = true ->
  contains (x :: w) t = false.
Proof.
  intros x w t Hx. induction t as [|c t IH]; intro Ht; [reflexivity|].
  cbn [forallb] in Ht. apply andb_true_iff in Ht. destruct Ht as [Hc Ht].
  rewrite contains_cons, (IH Ht), orb_false_r. cbn [startswith].
  apply Ascii.eqb_eq in Hc. subst c.
  unfold chr_eqb in *. rewrite Ascii.eqb_sym, Hx. reflexivity.
Qed.

Lemma contains_before_semis : forall x w r t,
  no_semi (x :: w) = true -> forallb (chr_eqb ";"%char) t = true ->
  contains (x :: w) (r ++ t) = true -> contains (x :: w) r = true.
Proof.
  intros x w r t Hw Ht. induction r as [|c r IH]; intro H.
  - cbn [app] in H. rewrite contains_semis in H; [discriminate| |exact Ht].
    cbn [no_semi forallb] in Hw. apply andb_true_iff in Hw.
    destruct Hw as [Hx _]. now destruct (chr_eqb ";"%char x).
  - change ((c :: r) ++ t) with (c :: r ++ t) in H.
    rewrite contains_cons in *. apply orb_true_iff in H.
    destruct H as [H|H].
    + change (c :: r ++ t) with ((c :: r) ++ t) in H.
      now rewrite (startswith_before_semis _ _ _ Hw Ht H).
    + rewrite (IH H). apply orb_true_r.
Qed.

Lemma upper_semis : forall t,
  forallb (chr_eqb ";"%char) t = true -> upper t = t.
Proof.
  induction t as [|c t IH]; intro H; [reflexivity|].
  cbn [forallb] in H. apply andb_true_iff in H. destruct H as [Hc Ht].
  apply Ascii.eqb_eq in Hc. subst c.
  change (upper (";"%char :: t)) with (";"%char :: upper t).
  now rewrite (IH Ht).
Qed.

Lemma contains_rstrip : forall x w s,
  no_semi (x :: w) = true ->
  contains (x :: w) s = true -> contains (x :: w) (rstrip_semi s) = true.
Proof.
  intros x w s Hw H.
  destruct (rstrip_split (chr_eqb ";"%char) s) as [t [E Ht]].
  fold (rstrip_semi s) in E. rewrite E in H.
  exact (contains_before_semis _ _ _ _ Hw Ht H).
Qed.

Lemma contains_upper_rstrip : forall x w s,
  no_semi (x :: w) = true ->
  contains (x :: w) (upper s) = true ->
  contains (x :: w) (upper (rstrip_semi s)) = true.
Proof.
  intros x w s Hw H.
  destruct (rstrip_split (chr_eqb ";"%char) s) as [t [E Ht]].
  fold (rstrip_semi s) in E. rewrite E, upper_app, (upper_semis _ Ht) in H.
  exact (contains_before_semis _ _ _ _ Hw Ht H).
Qed.

(** A leading keyword of at most six characters is not touched by
    [rstrip(';')] nor by the appended limit. *)
Ltac short_text r :=
  destruct r as [|? [|? [|? [|? [|? [|? r]]]]]].

Lemma start_rstrip : forall w s,
  w = py "SELECT" \/ w = py "WITH" ->
  startswith w (upper (rstrip_semi s)) = startswith w (upper s).
Proof.
  intros w s Hw.
  destruct (rstrip_split (chr_eqb ";"%char) s) as [t [E Ht]].
  fold (rstrip_semi s) in E. rewrite E at 2. clear E.
  generalize (rstrip_semi s) as r. intro r.
  assert (Hh : t = [] \/ exists t', t = ";"%char :: t').
  { destruct t as [|c t]; [now left|right].
    cbn [forallb] in Ht. apply andb_true_iff in Ht. destruct Ht as [Hc _].
    apply Ascii.eqb_eq in Hc. subst c. now exists t. }
  destruct Hw as [-> | ->]; short_text r;
    destruct Hh as [-> | [t' ->]]; crunch.
Qed.

Lemma start_appended : forall w r,
  w = py "SELECT" \/ w = py "WITH" ->
  startswith w (upper (r ++ py " LIMIT 150")) = startswith w (upper r).
Proof.
  intros w r [-> | ->]; short_text r; crunch.
Qed.

(** ** The row cap keeps the start, the word FROM and the table *)

Lemma enforce_keeps_start : forall w s,
  w = py "SELECT" \/ w = py "WITH" ->
  startswith w (upper (enforce_row_cap s)) = startswith w (upper s).
Proof.
  intros w s Hw.
  destruct (enforce_row_cap_cases s)
    as [[v [F [L E]]]|[[v [F [L E]]]|[[F [Hl [Ha E]]]|[F [H E]]]]];
    rewrite E; try reflexivity.
  - destruct Hw as [-> | ->];
      [apply raise_keeps_select|apply raise_keeps_with].
  - now rewrite start_appended, start_rstrip.
Qed.

Lemma enforce_keeps_from : forall s,
  contains (py "FROM") (upper s) = true ->
  contains (py "FROM") (upper (enforce_row_cap s)) = true.
Proof.
  intros s H.
  destruct (enforce_row_cap_cases s)
    as [[v [F [L E]]]|[[v [F [L E]]]|[[F [Hl [Ha E]]]|[F [H' E]]]]];
    rewrite E; try exact H.
  - now rewrite raise_keeps_from.
  - rewrite upper_app. apply contains_app.
    now apply (@contains_upper_rstrip "F"%char (py "ROM")).
Qed.

Lemma enforce_keeps_table : forall s,
  contains (py "FROM complaints") s = true ->
  contains (py "FROM complaints") (enforce_row_cap s) = true.
Proof.
  intros s H.
  destruct (enforce_row_cap_cases s)
    as [[v [F [L E]]]|[[v [F [L E]]]|[[F [Hl [Ha E]]]|[F [H' E]]]]];
    rewrite E; try exact H.
  - now rewrite raise_keeps_table.
  - apply contains_app.
    now apply (@contains_rstrip "F"%char (py "ROM complaints")).
Qed.

(** ** The missing-FROM repair *)

Lemma startswith_self_app : forall w b, startswith w (w ++ b) = true.
Proof.
  induction w as [|x w IH]; intro b; [reflexivity|].
  cbn [app startswith]. unfold chr_eqb. now rewrite Ascii.eqb_refl, IH.
Qed.

Lemma contains_app_r : forall w a b,
  contains w b = true -> contains w (a ++ b) = true.
Proof.
  intros w a b H. induction a as [|c a IH]; [exact H|].
  change ((c :: a) ++ b) with (c :: a ++ b).
  rewrite contains_cons, IH. apply orb_true_r.
Qed.

Lemma contains_at : forall w a b, contains w (a ++ w ++ b) = true.
Proof.
  intros w a b. apply contains_app_r.
  destruct (w ++ b) eqn:E.
  - destruct w; [reflexivity|discriminate].
  - rewrite contains_cons, <- E. now rewrite startswith_self_app.
Qed.

Lemma index_of_contains : forall w s,
  contains w s = true ->
  exists idx, index w s = Some idx /\ idx <= List.length s.
Proof.
  intros w s. induction s as [|c s IH]; intro H.
  - cbn [contains] in H. rewrite orb_false_r in H. cbn [index]. rewrite H.
    exists 0. split; [reflexivity|cbn; lia].
  - cbn [index]. rewrite contains_cons in H.
    destruct (startswith w (c :: s)) eqn:E.
    + exists 0. split; [reflexivity|cbn; lia].
    + cbn [orb] in H. destruct (IH H) as [idx [Hi Hl]]. rewrite Hi.
      exists (S idx). split; [reflexivity|cbn; lia].
Qed.

Lemma startswith_firstn : forall w s n,
  startswith w s = true -> List.length w <= n ->
  startswith w (firstn n s) = true.
Proof.
  induction w as [|x w IH]; intros s n H Hn; [destruct (firstn n s); reflexivity|].
  destruct s as [|c s]; [discriminate|].
  destruct n as [|n]; [cbn in Hn; lia|].
  cbn [firstn startswith] in *. apply andb_true_iff in H. destruct H as [H1 H2].
  rewrite H1. apply IH; [exact H2|cbn in Hn; lia].
Qed.

Lemma upper_firstn : forall n s, upper (firstn n s) = firstn n (upper s).
Proof. intros. unfold upper. symmetry. apply firstn_map. Qed.

(** In a text that starts with SELECT no keyword of the repair occurs
    before position 6. *)
Lemma keyword_after_select : forall keyword u idx,
  In keyword FROM_KEYWORDS ->
  startswith (py "SELECT") u = true ->
  index keyword u = Some idx -> 6 <= idx.
Proof.
  intros keyword u idx Hk Hs Hi.
  destruct u as [|c1 [|c2 [|c3 [|c4 [|c5 [|c6 u]]]]]];
    try (exfalso; revert Hs; unfold py;
         cbn [list_ascii_of_string startswith]; rewrite ?andb_false_r;
         discriminate).
  change (startswith (py "SELECT") (c1 :: c2 :: c3 :: c4 :: c5 :: c6 :: u))
    with (chr_eqb "S"%char c1 && (chr_eqb "E"%char c2 && (chr_eqb "L"%char c3
          && (chr_eqb "E"%char c4 && (chr_eqb "C"%char c5
          && (chr_eqb "T"%char c6 && true)))))) in Hs.
  repeat (apply andb_true_iff in Hs;
          let H := fresh "Hc" in destruct Hs as [H Hs];
          apply Ascii.eqb_eq in H).
  subst.
  cbn [FROM_KEYWORDS In] in Hk.
  destruct Hk as [<-|[<-|[<-|[<-|[]]]]];
    (unfold py in Hi; cbn [list_ascii_of_string index startswith] in Hi;
     cbn in Hi;
     destruct (index _ u) as [i|]; cbn in Hi; [|discriminate];
     inversion Hi; lia).
Qed.

Lemma inject_from_unfired : forall y, injects y = false -> inject_from y = y.
Proof. intros y H. unfold inject_from. fold (injects y). now rewrite H. Qed.

(** What the repair does when it fires. *)
Lemma inject_from_fired : forall y,
  injects y = true ->
  (exists keyword idx,
      find (fun keyword => contains keyword (upper y)) FROM_KEYWORDS = Some keyword
      /\ index keyword (upper y) = Some idx
      /\ 6 <= idx
      /\ inject_from y = firstn idx y ++ py "FROM complaints " ++ skipn idx y)
  \/ (find (fun keyword => contains keyword (upper y)) FROM_KEYWORDS = None
      /\ inject_from y = rstrip_semi y ++ py " FROM complaints").
Proof.
  intros y H. unfold inject_from. fold (injects y). rewrite H.
  unfold injects in H. apply andb_true_iff in H. destruct H as [_ Hs].
  destruct (find (fun keyword => contains keyword (upper y)) FROM_KEYWORDS)
    as [keyword|] eqn:F.
  - left. apply find_some in F. destruct F as [Hin Hc].
    destruct (@index_of_contains keyword (upper y) Hc) as [idx [Hi _]].
    exists keyword, idx. rewrite Hi.
    repeat split. exact (@keyword_after_select keyword (upper y) idx Hin Hs Hi).
  - right. split; reflexivity.
Qed.

Lemma select_is_kept : forall y,
  startswith (py "SELECT") (upper y) = true ->
  startswith (py "SELECT") (upper (rstrip_semi y)) = true.
Proof. intros y H. rewrite start_rstrip; [exact H|now left]. Qed.

Lemma inject_from_result : forall y,
  injects y = true ->
  contains (py "FROM complaints") (inject_from y) = true
  /\ contains (py "FROM") (upper (inject_from y)) = true
  /\ startswith (py "SELECT") (upper (inject_from y)) = true.
Proof.
  intros y H. pose proof H as Hi. unfold injects in Hi.
  apply andb_true_iff in Hi. destruct Hi as [_ Hs].
  destruct (@inject_from_fired y H)
    as [[keyword [idx [_ [_ [Hidx ->]]]]]|[_ ->]].
  - split.
    { change (py "FROM complaints ") with (py "FROM complaints" ++ py " ").
      rewrite <- app_assoc. apply contains_at. }
    split.
    + rewrite !upper_app. apply contains_app_r, contains_app. reflexivity.
    + rewrite upper_app, upper_firstn. apply startswith_app.
      apply startswith_firstn; [exact Hs|exact Hidx].
  - split; [apply contains_app_r; reflexivity|]. split.
    + rewrite upper_app. apply contains_app_r. reflexivity.
    + rewrite upper_app. apply startswith_app. now apply select_is_kept.
Qed.

(** After the repair a text that starts with SELECT holds the word FROM. *)
Lemma inject_from_settled : forall y,
  injects (inject_from y) = false.
Proof.
  intro y. destruct (injects y) eqn:H.
  - destruct (@inject_from_result y H) as [_ [Hf _]].
    unfold injects. now rewrite Hf.
  - now rewrite (@inject_from_unfired y H).
Qed.

Lemma inject_from_idempotent : forall y,
  inject_from (inject_from y) = inject_from y.
Proof. intro y. apply inject_from_unfired, inject_from_settled. Qed.

Lemma enforce_settled : forall z,
  injects z = false -> injects (enforce_row_cap z) = false.
Proof.
  intros z H. unfold injects in *.
  rewrite enforce_keeps_start by now left.
  destruct (startswith (py "SELECT") (upper z)); [|apply andb_false_r].
  rewrite andb_true_r in *. apply negb_false_iff in H.
  now rewrite (@enforce_keeps_from z H).
Qed.

(** The last two repairs, run again on their own output, change nothing. *)
Lemma inject_enforce_idempotent : forall y,
  let out := enforce_row_cap (inject_from y) in
  enforce_row_cap (inject_from out) = out.
Proof.
  intros y out. unfold out.
  rewrite (@inject_from_unfired _ (@enforce_settled _ (inject_from_settled y))).
  apply enforce_row_cap_idempotent.
Qed.



(** ** Instances for the corrector *)



(** Only the first limit is looked at: a smaller limit after one of 150
    or more stays. *)
Example later_limit_is_kept :
  correct_sql VALID_COLUMNS nested_limit_query = nested_limit_query.
Proof. vm_compute. reflexivity. Qed.





Example no_from_is_repaired :
  correct_sql VALID_COLUMNS no_from_query = no_from_corrected.
Proof. vm_compute. reflexivity. Qed.

(** An instance of [guess_visualization_rules]: a monthly count of three
    rows is a bar chart. *)
Lemma guess_visualization_rules_witness :
  _guess_visualization
    (repeat (dict_of_zip [py "luna"; py "numar"]
                         [CStr (py "Ianuarie"); CInt 12]) 3)
    [py "luna"; py "numar"] = VizBar.
Proof.
  destruct (guess_visualization_rules
              (repeat (dict_of_zip [py "luna"; py "numar"]
                                   [CStr (py "Ianuarie"); CInt 12]) 3)
              [py "luna"; py "numar"]) as [_ [_ [_ [H _]]]].
  destruct H as [_ H].
  - split; [discriminate|]. split; [cbn; lia|reflexivity].
  - destruct (H eq_refl) as [Hb _]. apply Hb. split; [reflexivity|cbn; lia].
Defined.
(* ================================================================== *)
(** * Further properties of the pipeline *)
(* ================================================================== *)

(** ** Substitution and search *)

(** Substitution leaves alone what no match can start in. *)

Lemma sub_go_keeps : forall (m : matcher) repl k suf pre,
  (forall j, j < k -> m (rev (firstn j suf) ++ pre) (skipn j suf) = None) ->
  k <= List.length suf ->
  sub_go m repl 0 pre suf
  = firstn k suf ++ sub_go m repl 0 (rev (firstn k suf) ++ pre) (skipn k suf).
Proof.
  induction k as [|k IH]; intros suf pre H Hk.
  - reflexivity.
  - destruct suf as [|c suf]; [simpl in Hk; lia|].
    pose proof (H 0 ltac:(lia)) as H0. simpl in H0.
    cbn [sub_go]. rewrite H0. cbn [firstn skipn app]. f_equal.
    rewrite (IH suf (c :: pre)).
    + cbn [rev]. rewrite <- app_assoc. reflexivity.
    + intros j Hj. specialize (H (S j) ltac:(lia)).
      cbn [firstn skipn rev] in H. rewrite <- app_assoc in H. exact H.
    + simpl in Hk. lia.
Qed.

Lemma sub_go_unmatched : forall (m : matcher) repl suf pre,
  (forall j, j <= List.length suf ->
             m (rev (firstn j suf) ++ pre) (skipn j suf) = None) ->
  sub_go m repl 0 pre suf = suf.
Proof.
  induction suf as [|c suf IH]; intros pre H.
  - pose proof (H 0 ltac:(simpl; lia)) as H0. simpl in H0.
    cbn [sub_go]. rewrite H0. reflexivity.
  - pose proof (H 0 ltac:(simpl; lia)) as H0. simpl in H0.
    cbn [sub_go]. rewrite H0. f_equal. apply IH.
    intros j Hj. specialize (H (S j) ltac:(simpl; lia)).
    cbn [firstn skipn rev] in H. rewrite <- app_assoc in H. exact H.
Qed.

Lemma search_from_found : forall (m : matcher) suf pre i n g,
  search_from m pre suf = Some (i, n, g) ->
  exists j, i = List.length pre + j /\ j <= List.length suf
            /\ m (rev (firstn j suf) ++ pre) (skipn j suf) = Some (n, g).
Proof.
  induction suf as [|c suf IH]; intros pre i n g H; cbn [search_from] in H.
  - destruct (m pre []) as [[n' g']|] eqn:E; [|discriminate].
    inversion H; subst. exists 0. simpl. repeat split; [lia|lia|exact E].
  - destruct (m pre (c :: suf)) as [[n' g']|] eqn:E.
    + inversion H; subst. exists 0. simpl. repeat split; [lia|lia|exact E].
    + destruct (IH _ _ _ _ H) as [j [Hi [Hj Hm]]].
      exists (S j). cbn [firstn skipn rev List.length]. rewrite <- app_assoc.
      simpl in Hi. repeat split; [lia|lia|exact Hm].
Qed.

Lemma in_matches_seq : forall r1 r2 pre suf n g,
  In (n, g) (matches (RSeq r1 r2) pre suf) <->
  exists n1 g1 n2 g2,
    In (n1, g1) (matches r1 pre suf)
    /\ In (n2, g2) (matches r2 (rev (firstn n1 suf) ++ pre) (skipn n1 suf))
    /\ n = n1 + n2 /\ g = g1 ++ g2.
Proof.
  intros. cbn [matches]. rewrite in_flat_map. split.
  - intros [[n1 g1] [H1 H2]]. apply in_map_iff in H2.
    destruct H2 as [[n2 g2] [E H2]]. unfold after in E. cbn [fst snd] in *.
    inversion E; subst. exists n1, g1, n2, g2. auto.
  - intros [n1 [g1 [n2 [g2 [H1 [H2 [-> ->]]]]]]].
    exists (n1, g1). split; [exact H1|]. apply in_map_iff.
    exists (n2, g2). split; [reflexivity|exact H2].
Qed.

Lemma match_at_in : forall r pre suf m,
  match_at r pre suf = Some m -> In m (matches r pre suf).
Proof.
  unfold match_at. intros r pre suf m H.
  destruct (matches r pre suf) as [|x l]; [discriminate|].
  inversion H; subst. now left.
Qed.

Lemma match_at_none : forall r pre suf,
  matches r pre suf = [] -> match_at r pre suf = None.
Proof. unfold match_at. intros r pre suf ->. reflexivity. Qed.

Lemma matches_rlit : forall w, w <> [] -> forall pre suf,
  matches (rlit w) pre suf
  = if startswith w suf then [(List.length w, [])] else [].
Proof.
  induction w as [|x w IH]; [congruence|]. intros _ pre suf.
  destruct w as [|x' w'].
  - unfold rlit. cbn [map rseq matches startswith].
    destruct suf as [|c s]; cbn [head_is]; [reflexivity|].
    unfold chr_is. rewrite andb_true_r. reflexivity.
  - change (rlit (x :: x' :: w'))
      with (RSeq (RChr (chr_is x)) (rlit (x' :: w'))).
    destruct suf as [|c s].
    + apply matches_seq_none. reflexivity.
    + change (startswith (x :: x' :: w') (c :: s))
        with (chr_eqb x c && startswith (x' :: w') s).
      destruct (chr_eqb x c) eqn:E.
      * rewrite (@matches_seq_one _ _ _ _ (1, [])).
        2:{ cbn [matches head_is]. unfold chr_is. now rewrite E. }
        cbn [fst firstn skipn rev app andb].
        rewrite IH by discriminate.
        destruct (startswith (x' :: w') s); reflexivity.
      * apply matches_seq_none. cbn [matches head_is]. unfold chr_is. now rewrite E.
Qed.

(** A pattern that begins with [\s+] matches only at a blank. *)
Lemma blank_led : forall X pre suf,
  head_is is_space_c suf = false ->
  match_at (RSeq (rplus is_space_c) X) pre suf = None.
Proof.
  intros X pre suf H. apply match_at_none, matches_seq_none.
  rewrite matches_rplus, H. reflexivity.
Qed.

(** A pattern that begins with a word matches only where the word is. *)
Lemma word_led : forall w X pre suf,
  w <> [] -> starts_ci w suf = false ->
  match_at (RSeq (rlit_ci w) X) pre suf = None.
Proof.
  intros w X pre suf Hw H. apply match_at_none, matches_seq_none.
  rewrite matches_rlit_ci by exact Hw. rewrite H. reflexivity.
Qed.

Lemma startswith_share : forall w a x y,
  List.length w <= List.length a ->
  startswith w (a ++ x) = startswith w (a ++ y).
Proof.
  induction w as [|c w IH]; intros a x y H; [reflexivity|].
  destruct a as [|d a]; [simpl in H; lia|]. cbn [app startswith].
  f_equal. apply IH. simpl in H. lia.
Qed.

Lemma startswith_length : forall w s,
  startswith w s = true -> List.length w <= List.length s.
Proof.
  induction w as [|c w IH]; intros s H; [simpl; lia|].
  destruct s as [|d s]; [discriminate|]. cbn [startswith] in H.
  apply andb_true_iff in H. destruct H as [_ H]. apply IH in H. simpl. lia.
Qed.

Lemma upper_length : forall s, List.length (upper s) = List.length s.
Proof. intros. unfold upper. apply length_map. Qed.

Lemma upper_skipn : forall n s, upper (skipn n s) = skipn n (upper s).
Proof. intros. unfold upper. symmetry. apply skipn_map. Qed.

(** Replacing text from position [k] on does not change how the text
    starts, for a start of at most [k] characters. *)
Lemma start_of_firstn : forall w k s rest,
  List.length w <= k -> k <= List.length s ->
  startswith w (upper (firstn k s ++ rest)) = startswith w (upper s).
Proof.
  intros w k s rest Hw Hk.
  rewrite <- (firstn_skipn k s) at 2. rewrite !upper_app.
  apply startswith_share. rewrite upper_length, length_firstn. lia.
Qed.
(** ** The count query and the start of the emitted SQL *)

Lemma startswith_split : forall w s,
  startswith w s = true -> s = w ++ skipn (List.length w) s.
Proof.
  induction w as [|c w IH]; intros s H; [reflexivity|].
  destruct s as [|d s]; [discriminate|]. cbn [startswith] in H.
  apply andb_true_iff in H. destruct H as [E H].
  apply Ascii.eqb_eq in E. subst d. cbn [List.length skipn app].
  f_equal. apply IH, H.
Qed.

Lemma space_upper : forall c, is_space_c (upper_c c) = is_space_c c.
Proof.
  intro c.
  pose proof (all_ascii_spec
           (fun c => Bool.eqb (is_space_c (upper_c c)) (is_space_c c))
           ltac:(vm_compute; reflexivity) c) as H.
  apply Bool.eqb_prop in H. exact H.
Qed.

Lemma no_blank_in_start : forall w t j,
  startswith w (upper t) = true ->
  forallb (fun c => negb (is_space_c c)) w = true ->
  j < List.length w ->
  head_is is_space_c (skipn j t) = false.
Proof.
  induction w as [|c w IH]; intros t j H Hw Hj; [simpl in Hj; lia|].
  destruct t as [|d t]; [discriminate|].
  cbn [upper map startswith] in H. apply andb_true_iff in H.
  destruct H as [E H]. cbn [forallb] in Hw. apply andb_true_iff in Hw.
  destruct Hw as [Hc Hw]. destruct j as [|j].
  - cbn [skipn head_is]. apply Ascii.eqb_eq in E.
    rewrite <- space_upper, <- E. now apply negb_true_iff.
  - cbn [skipn]. apply IH; [exact H|exact Hw|simpl in Hj; lia].
Qed.

(** A substitution whose pattern begins with [\s+] keeps the start of a
    text that starts with a word. *)
Lemma blank_led_keeps_start : forall X repl w v t,
  startswith w (upper t) = true ->
  forallb (fun c => negb (is_space_c c)) w = true ->
  List.length v <= List.length w ->
  startswith v (upper (sub (RSeq (rplus is_space_c) X) repl t))
  = startswith v (upper t).
Proof.
  intros X repl w v t H Hw Hv. unfold sub.
  pose proof (startswith_length _ _ H) as Hl. rewrite upper_length in Hl.
  rewrite (@sub_go_keeps _ _ (List.length w)); [| |exact Hl].
  - apply start_of_firstn; [exact Hv|exact Hl].
  - intros j Hj. apply blank_led. eapply no_blank_in_start; eauto.
Qed.

Lemma sub_first_keeps_start : forall v s,
  List.length v <= 6 ->
  startswith v (upper (sub_first SELECT_FROM_RE (fun _ _ => py "SELECT COUNT(*) as total FROM") s))
  = startswith v (upper s).
Proof.
  intros v s Hv. unfold sub_first, search.
  destruct (search_from (match_at SELECT_FROM_RE) [] s) as [[[i n] g]|] eqn:E;
    [|reflexivity].
  destruct n as [|n]; [reflexivity|].
  apply search_from_found in E. destruct E as [j [Hi [Hj Hm]]].
  simpl in Hi. subst j. rewrite app_nil_r in Hm.
  assert (Hs : starts_ci (py "SELECT") (skipn i s) = true).
  { destruct (starts_ci (py "SELECT") (skipn i s)) eqn:Hs; [reflexivity|].
    change SELECT_FROM_RE
      with (RSeq (rlit_ci (py "SELECT"))
                 (rseq [ rplus is_space_c; RStar false any_c;
                         rplus is_space_c; rlit_ci (py "FROM") ])) in Hm.
    rewrite word_led in Hm; [discriminate|discriminate|exact Hs]. }
  rewrite starts_ci_upper in Hs. apply startswith_split in Hs.
  replace (upper s) with (upper (firstn i s) ++ upper (skipn i s))
    by (rewrite <- upper_app, firstn_skipn; reflexivity).
  rewrite Hs. rewrite !upper_app.
  change (upper (py "SELECT COUNT(*) as total FROM"))
    with (upper (py "SELECT") ++ py " COUNT(*) AS TOTAL FROM").
  rewrite <- !app_assoc.
  rewrite !(app_assoc (upper (firstn i s)) (upper (py "SELECT"))).
  apply startswith_share. rewrite length_app. simpl. lia.
Qed.

Lemma count_query_start : forall w v sql,
  w = py "SELECT" \/ w = py "WITH" ->
  startswith w (upper sql) = true ->
  List.length v <= List.length w ->
  startswith v
    (upper (sub GROUP_TAIL_RE nothing
              (sub LIMIT_TAIL_RE nothing
                 (sub ORDER_TAIL_RE nothing
                    (sub_first SELECT_FROM_RE (fun _ _ => py "SELECT COUNT(*) as total FROM") sql)))))
  = startswith v (upper sql).
Proof.
  intros w v sql Hw H Hv.
  assert (Hb : forallb (fun c => negb (is_space_c c)) w = true)
    by (destruct Hw; subst w; reflexivity).
  assert (H6 : List.length w <= 6) by (destruct Hw; subst w; simpl; lia).
  assert (H1 : startswith w (upper (sub_first SELECT_FROM_RE
                                      (fun _ _ => py "SELECT COUNT(*) as total FROM") sql)) = true)
    by (rewrite sub_first_keeps_start; [exact H|exact H6]).
  set (s1 := sub_first SELECT_FROM_RE (fun _ _ => py "SELECT COUNT(*) as total FROM") sql) in *.
  assert (H2 : startswith w (upper (sub ORDER_TAIL_RE nothing s1)) = true).
  { change ORDER_TAIL_RE with
      (RSeq (rplus is_space_c)
            (rseq [ rlit_ci (py "ORDER"); rplus is_space_c;
                    rlit_ci (py "BY"); rplus is_space_c;
                    RStar true not_newline; REol ])).
    rewrite (@blank_led_keeps_start _ _ w w); auto. }
  set (s2 := sub ORDER_TAIL_RE nothing s1) in *.
  assert (H3 : startswith w (upper (sub LIMIT_TAIL_RE nothing s2)) = true).
  { change LIMIT_TAIL_RE with
      (RSeq (rplus is_space_c)
            (rseq [ rlit_ci (py "LIMIT"); rplus is_space_c; rplus is_digit_c ])).
    rewrite (@blank_led_keeps_start _ _ w w); auto. }
  set (s3 := sub LIMIT_TAIL_RE nothing s2) in *.
  transitivity (startswith v (upper s3)).
  { unfold GROUP_TAIL_RE. cbn [rseq].
    apply (@blank_led_keeps_start _ _ w v); auto. }
  transitivity (startswith v (upper s2)).
  { unfold s3, LIMIT_TAIL_RE. cbn [rseq].
    apply (@blank_led_keeps_start _ _ w v); auto. }
  transitivity (startswith v (upper s1)).
  { unfold s2, ORDER_TAIL_RE. cbn [rseq].
    apply (@blank_led_keeps_start _ _ w v); auto. }
  unfold s1. apply sub_first_keeps_start. lia.
Qed.

Lemma select_not_with : forall u,
  startswith (py "WITH") u = true -> startswith (py "SELECT") u = false.
Proof.
  intros [|c u] H; [discriminate|].
  unfold py in *. cbn [list_ascii_of_string startswith] in *.
  apply andb_true_iff in H. destruct H as [E _].
  apply Ascii.eqb_eq in E. subst c. reflexivity.
Qed.

(** X7.  [_extract_count_query] yields a query, which starts with SELECT,
    for every text that starts with SELECT, and none for a text that starts
    with WITH. *)
Theorem count_query_only_for_select : forall sql,
  (at_select sql = true ->
     exists count_sql, _extract_count_query sql = Some count_sql
                       /\ at_select count_sql = true)
  /\ (at_with sql = true -> _extract_count_query sql = None).
Proof.
  intro sql. unfold at_select, at_with, _extract_count_query. cbv zeta.
  split; intro H.
  - rewrite (@count_query_start (py "SELECT") (py "SELECT") sql); auto.
    rewrite H. eexists. split; [reflexivity|].
    rewrite (@count_query_start (py "SELECT") (py "SELECT") sql); auto.
  - rewrite select_not_with; [reflexivity|].
    rewrite (@count_query_start (py "WITH") (py "WITH") sql); auto.
Qed.

(** The characters of a text under a start [w] are, in upper case, those
    of [w]. *)
Lemma head_under_start : forall (q : ascii -> bool) w t j,
  startswith w (upper t) = true ->
  forallb q w = true ->
  j < List.length w ->
  head_is (fun c => q (upper_c c)) (skipn j t) = true.
Proof.
  induction w as [|c w IH]; intros t j H Hw Hj; [simpl in Hj; lia|].
  destruct t as [|d t]; [discriminate|].
  cbn [upper map startswith] in H. apply andb_true_iff in H.
  destruct H as [E H]. cbn [forallb] in Hw. apply andb_true_iff in Hw.
  destruct Hw as [Hc Hw]. destruct j as [|j].
  - cbn [skipn head_is]. apply Ascii.eqb_eq in E. now rewrite <- E.
  - cbn [skipn]. apply IH; [exact H|exact Hw|simpl in Hj; lia].
Qed.

Lemma head_is_impl : forall (p q : ascii -> bool) s,
  (forall c, p c = true -> q c = true) ->
  head_is p s = true -> head_is q s = true.
Proof. intros p q [|c s] H; cbn [head_is]; [discriminate|apply H]. Qed.

Lemma head_is_excl : forall (p q : ascii -> bool) s,
  (forall c, p c = true -> q c = false) ->
  head_is p s = true -> head_is q s = false.
Proof. intros p q [|c s] H; cbn [head_is]; [discriminate|apply H]. Qed.

Lemma head_rev_firstn : forall (q : ascii -> bool) t j pre,
  j < List.length t ->
  head_is q (rev (firstn (S j) t) ++ pre) = head_is q (skipn j t).
Proof.
  intros q t. induction t as [|c t IH]; intros j pre Hj; [simpl in Hj; lia|].
  destruct j as [|j].
  - reflexivity.
  - change (firstn (S (S j)) (c :: t)) with (c :: firstn (S j) t).
    cbn [rev skipn]. rewrite <- app_assoc. apply IH. simpl in Hj. lia.
Qed.

Lemma alpha_upper_word : forall c, is_alpha_c (upper_c c) = true -> is_word_c c = true.
Proof.
  intros c H.
  pose proof (all_ascii_spec
    (fun c => implb (is_alpha_c (upper_c c)) (is_word_c c))
    ltac:(vm_compute; reflexivity) c) as A.
  cbv beta in A. rewrite H in A. exact A.
Qed.

Lemma alpha_word : forall c, is_alpha_c c = true -> is_word_c c = true.
Proof. intros c H. unfold is_word_c. now rewrite H. Qed.

(** ** The shape of a match of the column pattern *)

Lemma in_matches_chr : forall p pre suf n g,
  In (n, g) (matches (RChr p) pre suf) ->
  n = 1 /\ g = [] /\ head_is p suf = true.
Proof.
  intros p pre suf n g H. cbn [matches] in H.
  destruct (head_is p suf); [|contradiction].
  destruct H as [H|[]]. inversion H; subst. auto.
Qed.

Lemma in_matches_wordb : forall pre suf n g,
  In (n, g) (matches RWordB pre suf) ->
  n = 0 /\ g = [] /\ xorb (head_is is_word_c pre) (head_is is_word_c suf) = true.
Proof.
  intros pre suf n g H. cbn [matches] in H.
  destruct (xorb (head_is is_word_c pre) (head_is is_word_c suf));
    [|contradiction].
  destruct H as [H|[]]. inversion H; subst. auto.
Qed.

Lemma in_matches_rplus : forall p pre suf n g,
  In (n, g) (matches (rplus p) pre suf) ->
  1 <= n /\ g = [] /\ head_is p suf = true.
Proof.
  intros p pre suf n g H. rewrite matches_rplus in H.
  destruct (head_is p suf); [|contradiction].
  apply in_map_iff in H. destruct H as [k [E _]]. inversion E; subst.
  repeat split. lia.
Qed.

Lemma column_match_shape : forall pre suf n g,
  In (n, g) (matches COLUMN_RE pre suf) ->
  head_is is_word_c pre = false
  /\ 3 <= n
  /\ head_is is_word_c (skipn n suf) = false.
Proof.
  intros pre suf n g H.
  change COLUMN_RE with
    (RSeq RWordB (RSeq (RChr is_alpha_c) (RSeq (rplus alpha_us)
       (RSeq (RChr is_alpha_c) RWordB)))) in H.
  apply in_matches_seq in H.
  destruct H as [n1 [g1 [m1 [h1 [H1 [H Hn]]]]]].
  apply in_matches_wordb in H1. destruct H1 as [-> [-> X1]].
  cbn [firstn rev app skipn] in H.
  apply in_matches_seq in H.
  destruct H as [n2 [g2 [m2 [h2 [H2 [H Hm1]]]]]].
  apply in_matches_chr in H2. destruct H2 as [-> [-> A2]].
  apply in_matches_seq in H.
  destruct H as [n3 [g3 [m3 [h3 [H3 [H Hm2]]]]]].
  apply in_matches_rplus in H3. destruct H3 as [L3 [-> A3]].
  apply in_matches_seq in H.
  destruct H as [n4 [g4 [m4 [h4 [H4 [H Hm3]]]]]].
  apply in_matches_chr in H4. destruct H4 as [-> [-> A4]].
  apply in_matches_wordb in H. destruct H as [-> [-> X5]].
  destruct Hn as [-> _]. destruct Hm1 as [-> _]. destruct Hm2 as [-> _].
  destruct Hm3 as [-> _].
  assert (W0 : head_is is_word_c suf = true)
    by (eapply head_is_impl; [apply alpha_word|exact A2]).
  rewrite W0 in X1. split.
  { destruct (head_is is_word_c pre); [discriminate|reflexivity]. }
  split; [lia|].
  set (s3 := skipn n3 (skipn 1 suf)) in *.
  destruct s3 as [|c s4] eqn:E3; [discriminate|].
  cbn [head_is] in A4. cbn [firstn rev app head_is skipn] in X5.
  rewrite (alpha_word _ A4) in X5. cbn [xorb] in X5.
  replace (skipn (0 + (1 + (n3 + (1 + 0)))) suf) with s4.
  { destruct (head_is is_word_c s4); [discriminate|reflexivity]. }
  replace (0 + (1 + (n3 + (1 + 0)))) with (1 + (n3 + 1)) by lia.
  rewrite <- (skipn_skipn 1 (n3 + 1)), <- (skipn_skipn n3 1).
  fold s3. rewrite E3. reflexivity.
Qed.

Lemma find_nothing : forall A (f : A -> bool) l,
  (forall x, In x l -> f x = false) -> find f l = None.
Proof.
  intros A f l H. induction l as [|x l IH]; [reflexivity|].
  cbn [find]. rewrite (H x (or_introl eq_refl)). apply IH.
  intros y Hy. apply H. now right.
Qed.

Lemma lower_of_upper : forall c x,
  (x = "S" \/ x = "W")%char -> chr_eqb x (upper_c c) = true ->
  lower_c c = lower_c x.
Proof.
  intros c x Hx H.
  pose proof (all_ascii_spec
    (fun c => implb (chr_eqb "S" (upper_c c)) (chr_eqb (lower_c c) "s")
              && implb (chr_eqb "W" (upper_c c)) (chr_eqb (lower_c c) "w"))%char
    ltac:(vm_compute; reflexivity) c) as A.
  cbv beta in A. apply andb_true_iff in A. destruct A as [A1 A2].
  destruct Hx; subst x; [rewrite H in A1|rewrite H in A2]; cbn [implb] in *;
    [apply Ascii.eqb_eq in A1; exact A1|apply Ascii.eqb_eq in A2; exact A2].
Qed.

(** No valid column and no alias starts with the letter of SELECT or WITH. *)
Lemma columns_not_keywords :
  forallb (fun v => negb (head_is (fun c => chr_eqb "s" c || chr_eqb "w" c)%char v))
          VALID_COLUMNS = true.
Proof. reflexivity. Qed.

Lemma keyword_unfixed : forall order w word,
  incl order VALID_COLUMNS ->
  w = py "SELECT" \/ w = py "WITH" ->
  startswith w (upper word) = true ->
  fix_column_name order word = word.
Proof.
  intros order w word Hord Hw H.
  assert (Hh : exists c rest, lower word = c :: rest /\ (c = "s" \/ c = "w")%char).
  { destruct word as [|d word]; [destruct Hw; subst w; discriminate|].
    exists (lower_c d), (lower word). split; [reflexivity|].
    destruct Hw; subst w; unfold py in H;
      cbn [list_ascii_of_string upper map startswith] in H;
      apply andb_true_iff in H; destruct H as [E _].
    - left. apply (@lower_of_upper d "S"%char); auto.
    - right. apply (@lower_of_upper d "W"%char); auto. }
  destruct Hh as [c [rest [El Hc]]].
  unfold fix_column_name. cbv zeta. rewrite El.
  destruct (existsb (str_eqb (c :: rest)) VALID_COLUMNS); [reflexivity|].
  rewrite find_nothing.
  - destruct Hc; subst c; reflexivity.
  - intros x Hx. apply Hord in Hx.
    pose proof columns_not_keywords as K. rewrite forallb_forall in K.
    specialize (K x Hx). destruct x as [|e x]; [reflexivity|].
    cbn [head_is] in K. cbn [startswith].
    destruct Hc; subst c; apply negb_true_iff, orb_false_iff in K;
      destruct K as [K1 K2]; unfold chr_eqb in *;
      [rewrite K1|rewrite K2]; reflexivity.
Qed.

Lemma firstn_longer : forall (t : str) k m,
  k <= m -> firstn m t = firstn k t ++ skipn k (firstn m t).
Proof.
  intros t k m H. rewrite <- (firstn_skipn k (firstn m t)) at 1.
  rewrite firstn_firstn. replace (Nat.min k m) with k by lia. reflexivity.
Qed.

Lemma word_under_start : forall w t j,
  w = py "SELECT" \/ w = py "WITH" ->
  startswith w (upper t) = true -> j < List.length w ->
  head_is is_word_c (skipn j t) = true.
Proof.
  intros w t j Hw H Hj.
  apply (@head_is_impl (fun c => is_alpha_c (upper_c c))); [apply alpha_upper_word|].
  apply (@head_under_start is_alpha_c w); auto.
  destruct Hw; subst w; reflexivity.
Qed.

(** The column repair keeps a SELECT or WITH at the start. *)
Lemma fix_columns_keeps_start : forall order w v t,
  incl order VALID_COLUMNS ->
  w = py "SELECT" \/ w = py "WITH" ->
  startswith w (upper t) = true ->
  List.length v <= List.length w ->
  startswith v (upper (fix_columns order t)) = startswith v (upper t).
Proof.
  intros order w v t Hord Hw H Hv.
  pose proof (startswith_length _ _ H) as Hl. rewrite upper_length in Hl.
  assert (Hpos : 0 < List.length w) by (destruct Hw; subst w; simpl; lia).
  unfold fix_columns, sub.
  destruct (match_at COLUMN_RE [] t) as [[n g]|] eqn:E0.
  - pose proof (@column_match_shape _ _ _ _ (@match_at_in _ _ _ _ E0)) as S0.
    destruct S0 as [_ [Hn Hend]].
    assert (Hlong : List.length w <= n).
    { destruct (Nat.le_gt_cases (List.length w) n) as [L|L]; [exact L|].
      rewrite (@word_under_start w t n) in Hend; auto. discriminate. }
    destruct n as [|n]; [lia|].
    destruct t as [|c t]; [simpl in Hl; lia|].
    cbn [sub_go]. rewrite E0.
    rewrite (@keyword_unfixed order w); auto.
    2:{ rewrite upper_firstn. apply startswith_firstn; [exact H|exact Hlong]. }
    rewrite (@firstn_longer (c :: t) (List.length w) (S n)) by exact Hlong.
    rewrite <- app_assoc. apply start_of_firstn; [exact Hv|exact Hl].
  - rewrite (@sub_go_keeps _ _ (List.length w)); [| |exact Hl].
    + apply start_of_firstn; [exact Hv|exact Hl].
    + intros j Hj. destruct j as [|j]; [exact E0|].
      destruct (match_at COLUMN_RE (rev (firstn (S j) t) ++ []) (skipn (S j) t))
        as [[n g]|] eqn:E; [|reflexivity].
      pose proof (@column_match_shape _ _ _ _ (@match_at_in _ _ _ _ E)) as S0.
      destruct S0 as [Hpre _].
      rewrite head_rev_firstn in Hpre by lia.
      rewrite (@word_under_start w t j) in Hpre; auto; [discriminate|lia].
Qed.

Lemma order_under_start : forall w t j,
  w = py "SELECT" \/ w = py "WITH" ->
  startswith w (upper t) = true -> j < List.length w ->
  starts_ci (py "ORDER") (skipn j t) = false.
Proof.
  intros w t j Hw H Hj.
  assert (K : head_is (fun c => negb (chr_eqb "O" (upper_c c)))%char (skipn j t) = true).
  { apply (@head_under_start (fun c => negb (chr_eqb "O" c))%char w); auto.
    destruct Hw; subst w; reflexivity. }
  destruct (skipn j t) as [|d r]; [reflexivity|].
  cbn [head_is] in K. apply negb_true_iff in K.
  unfold py. cbn [list_ascii_of_string starts_ci].
  rewrite ci_is_upper_eq. change (upper_c "O"%char) with "O"%char.
  rewrite K. reflexivity.
Qed.

Lemma matches_grp_none : forall n r pre suf,
  matches r pre suf = [] -> matches (RGrp n r) pre suf = [].
Proof. intros n r pre suf H. cbn [matches]. now rewrite H. Qed.

(** The DESC repair keeps a SELECT or WITH at the start. *)
Lemma fix_desc_keeps_start : forall w v t,
  w = py "SELECT" \/ w = py "WITH" ->
  startswith w (upper t) = true ->
  List.length v <= List.length w ->
  startswith v (upper (fix_desc t)) = startswith v (upper t).
Proof.
  intros w v t Hw H Hv.
  pose proof (startswith_length _ _ H) as Hl. rewrite upper_length in Hl.
  unfold fix_desc, sub.
  rewrite (@sub_go_keeps _ _ (List.length w)); [| |exact Hl].
  - apply start_of_firstn; [exact Hv|exact Hl].
  - intros j Hj. apply match_at_none.
    unfold DESC_RE. cbn [rseq].
    apply matches_seq_none, matches_grp_none, matches_seq_none.
    rewrite matches_rlit_ci by discriminate.
    rewrite (@order_under_start w t j); auto.
Qed.

Lemma inject_from_keeps_start : forall w t,
  w = py "SELECT" \/ w = py "WITH" ->
  startswith w (upper t) = true ->
  startswith w (upper (inject_from t)) = true.
Proof.
  intros w t Hw H. destruct (injects t) eqn:E.
  - pose proof (inject_from_result _ E) as [_ [_ R]].
    destruct Hw; subst w; [exact R|].
    unfold injects in E. apply andb_true_iff in E. destruct E as [_ E].
    rewrite (select_not_with _ H) in E. discriminate.
  - rewrite inject_from_unfired; [exact H|exact E].
Qed.

Lemma correct_sql_keeps_start : forall order w raw,
  incl order VALID_COLUMNS ->
  w = py "SELECT" \/ w = py "WITH" ->
  startswith w (upper raw) = true ->
  startswith w (upper (correct_sql order raw)) = true.
Proof.
  intros order w raw Hord Hw H. unfold correct_sql.
  rewrite enforce_keeps_start by exact Hw.
  apply inject_from_keeps_start; [exact Hw|].
  rewrite (@fix_desc_keeps_start w w); auto.
  - rewrite (@fix_columns_keeps_start order w w); auto.
  - rewrite (@fix_columns_keeps_start order w w); auto.
Qed.

Section Emitted.

Variable World : Type.
Variable Conn : Type.
Variable complete : request -> World -> completion * World.
Variable wording : fault -> str.
Variable column_order : list str.

Local Abbreviation generate_sql := (@generate_sql World Conn complete wording column_order).


End Emitted.


Example count_query_of_listing :
  _extract_count_query capped_sql
  = Some (py "SELECT COUNT(*) as total FROM complaints WHERE raion = 'BUCATARII'")
  /\ _extract_count_query (py "WITH t AS (SELECT a FROM b) SELECT a FROM t LIMIT 150")
     = None.
Proof. split; vm_compute; reflexivity. Qed.
(** ** Code fences *)

Lemma contains_false_skipn : forall w s j,
  contains w s = false -> contains w (skipn j s) = false.
Proof.
  intros w s. induction s as [|c s IH]; intros j H.
  - destruct j; exact H.
  - destruct j as [|j]; [exact H|]. cbn [skipn]. apply IH.
    rewrite contains_cons in H. apply orb_false_iff in H. tauto.
Qed.

Lemma contains_false_start : forall w s j,
  contains w s = false -> startswith w (skipn j s) = false.
Proof.
  intros w s j H. apply (contains_false_skipn _ _ j) in H.
  destruct (skipn j s) as [|c r]; cbn [contains] in H;
    apply orb_false_iff in H; tauto.
Qed.

Lemma startswith_app_l : forall a b s,
  startswith (a ++ b) s = true -> startswith a s = true.
Proof.
  induction a as [|x a IH]; intros b s H; [reflexivity|].
  destruct s as [|c s]; [discriminate|]. cbn [app startswith] in *.
  apply andb_true_iff in H. destruct H as [E H]. rewrite E. cbn [andb].
  eapply IH, H.
Qed.

Lemma contains_factor : forall w a s b,
  contains w (a ++ s ++ b) = false -> contains w s = false.
Proof.
  intros w a s b H. destruct (contains w s) eqn:E; [|reflexivity].
  rewrite contains_app_r in H; [discriminate|].
  apply contains_app. exact E.
Qed.

Lemma contains_strip : forall w t,
  contains w t = false -> contains w (strip t) = false.
Proof.
  intros w t H. unfold strip, lstrip_by.
  destruct (drop_while_split is_space_c t) as [a [Ea _]].
  destruct (rstrip_split is_space_c (drop_while is_space_c t)) as [b [Eb _]].
  apply (@contains_factor w a _ b). rewrite <- Eb, <- Ea. exact H.
Qed.

(** A pattern anchored at the start of the text, [^]: nothing matches
    after the first position, and at the first position the rest of the
    pattern decides. *)
Lemma anchored_later : forall X c pre suf,
  match_at (RSeq (RBol false) X) (c :: pre) suf = None.
Proof. intros. apply match_at_none, matches_seq_none. reflexivity. Qed.

Lemma anchored_first : forall X suf,
  matches X [] suf = [] -> match_at (RSeq (RBol false) X) [] suf = None.
Proof.
  intros X suf H. apply match_at_none.
  rewrite (@matches_seq_one _ _ _ _ (0, [])) by reflexivity.
  cbn [fst firstn skipn rev app]. rewrite H. reflexivity.
Qed.

Lemma literal_led_none : forall w X pre suf,
  w <> [] -> startswith w suf = false ->
  matches (RSeq (rlit w) X) pre suf = [].
Proof.
  intros w X pre suf Hw H. apply matches_seq_none.
  rewrite matches_rlit by exact Hw. rewrite H. reflexivity.
Qed.

Lemma in_matches_star : forall greedy p pre suf n g,
  In (n, g) (matches (RStar greedy p) pre suf) -> n <= run p suf /\ g = [].
Proof.
  intros greedy p pre suf n g H. cbn [matches] in H.
  apply in_map_iff in H. destruct H as [k [E Hk]]. inversion E; subst.
  split; [|reflexivity].
  destruct greedy; [apply in_rev in Hk|]; apply in_seq in Hk; lia.
Qed.

(** [\s*] followed by a literal: no match where no later position of the
    run of blanks starts the literal. *)
Lemma blanks_then_literal_none : forall w X pre suf,
  w <> [] ->
  (forall k, k <= run is_space_c suf -> startswith w (skipn k suf) = false) ->
  match_at (RSeq (RStar true is_space_c) (RSeq (rlit w) X)) pre suf = None.
Proof.
  intros w X pre suf Hw H. apply match_at_none.
  destruct (matches (RSeq (RStar true is_space_c) (RSeq (rlit w) X)) pre suf)
    as [|[n g] l] eqn:E; [reflexivity|].
  assert (I : In (n, g) (matches (RSeq (RStar true is_space_c)
                                       (RSeq (rlit w) X)) pre suf))
    by (rewrite E; now left).
  apply in_matches_seq in I.
  destruct I as [n1 [g1 [n2 [g2 [I1 [I2 _]]]]]].
  apply in_matches_star in I1. destruct I1 as [Hk _].
  rewrite literal_led_none in I2; [contradiction|exact Hw|apply H, Hk].
Qed.

Lemma backticks_nonempty : backticks <> [].
Proof. discriminate. Qed.

Lemma fence_sql_unmatched : forall s,
  contains backticks s = false -> sub FENCE_SQL_RE nothing s = s.
Proof.
  intros s H. unfold sub. apply sub_go_unmatched. intros j _.
  rewrite app_nil_r. unfold FENCE_SQL_RE. cbn [rseq].
  destruct (rev (firstn j s)) as [|c pre].
  - apply anchored_first, literal_led_none; [discriminate|].
    destruct (startswith (py "```sql") (skipn j s)) eqn:E; [|reflexivity].
    change (py "```sql") with (backticks ++ py "sql") in E.
    apply startswith_app_l in E.
    rewrite contains_false_start in E; [discriminate|exact H].
  - apply anchored_later.
Qed.

Lemma fence_unmatched : forall s,
  contains backticks s = false -> sub FENCE_RE nothing s = s.
Proof.
  intros s H. unfold sub. apply sub_go_unmatched. intros j _.
  rewrite app_nil_r. unfold FENCE_RE. cbn [rseq].
  destruct (rev (firstn j s)) as [|c pre].
  - apply anchored_first, literal_led_none; [apply backticks_nonempty|].
    apply contains_false_start, H.
  - apply anchored_later.
Qed.

Lemma fence_end_unmatched : forall s,
  contains backticks s = false -> sub FENCE_END_RE nothing s = s.
Proof.
  intros s H. unfold sub. apply sub_go_unmatched. intros j _.
  unfold FENCE_END_RE. cbn [rseq].
  apply blanks_then_literal_none; [apply backticks_nonempty|].
  intros k _. rewrite skipn_skipn. apply contains_false_start, H.
Qed.

(** [strip] twice is [strip] once. *)
Lemma drop_while_fixed : forall p s,
  head_is p s = false -> drop_while p s = s.
Proof.
  intros p [|c s] H; [reflexivity|]. cbn [head_is] in H.
  cbn [drop_while]. now rewrite H.
Qed.

Lemma drop_while_head : forall p s, head_is p (drop_while p s) = false.
Proof.
  intros p s. induction s as [|c s IH]; [reflexivity|].
  cbn [drop_while]. destruct (p c) eqn:E; [exact IH|].
  cbn [head_is]. exact E.
Qed.

Lemma rstrip_fixed : forall p s,
  head_is p (rev s) = false -> rstrip_by p s = s.
Proof.
  intros p s H. unfold rstrip_by. rewrite drop_while_fixed by exact H.
  apply rev_involutive.
Qed.

Lemma rstrip_last : forall p s, head_is p (rev (rstrip_by p s)) = false.
Proof.
  intros p s. unfold rstrip_by. rewrite rev_involutive. apply drop_while_head.
Qed.

Lemma rstrip_head : forall p s,
  head_is p s = false -> head_is p (rstrip_by p s) = false.
Proof.
  intros p s H. destruct (rstrip_split p s) as [t [E _]].
  destruct (rstrip_by p s) as [|c r]; [reflexivity|].
  rewrite E in H. exact H.
Qed.

Lemma strip_fixed : forall s,
  head_is is_space_c s = false -> head_is is_space_c (rev s) = false ->
  strip s = s.
Proof.
  intros s H1 H2. unfold strip, lstrip_by.
  rewrite drop_while_fixed by exact H1. apply rstrip_fixed, H2.
Qed.

Lemma strip_ends : forall s,
  head_is is_space_c (strip s) = false
  /\ head_is is_space_c (rev (strip s)) = false.
Proof.
  intro s. unfold strip, lstrip_by. split.
  - apply rstrip_head, drop_while_head.
  - apply rstrip_last.
Qed.

Lemma strip_idempotent : forall s, strip (strip s) = strip s.
Proof. intro s. destruct (strip_ends s). now apply strip_fixed. Qed.

(** [^] followed by a pattern that does not match. *)
Lemma line_start_none : forall multiline X pre suf,
  matches X pre suf = [] ->
  match_at (RSeq (RBol multiline) X) pre suf = None.
Proof.
  intros multiline X pre suf H. apply match_at_none.
  destruct (matches (RSeq (RBol multiline) X) pre suf) as [|[n g] l] eqn:E;
    [reflexivity|].
  assert (I : In (n, g) (matches (RSeq (RBol multiline) X) pre suf))
    by (rewrite E; now left).
  apply in_matches_seq in I.
  destruct I as [n1 [g1 [n2 [g2 [I1 [I2 _]]]]]].
  assert (n1 = 0) as ->.
  { cbn [matches] in I1. destruct pre as [|c0 r0].
    - destruct I1 as [I1|[]]. now inversion I1.
    - destruct (multiline && is_newline c0); [|contradiction].
      destruct I1 as [I1|[]]. now inversion I1. }
  cbn [firstn skipn rev app] in I2. rewrite H in I2. contradiction.
Qed.

Lemma fence_json_unmatched : forall s,
  contains backticks s = false -> sub FENCE_JSON_M_RE nothing s = s.
Proof.
  intros s H. unfold sub. apply sub_go_unmatched. intros j _.
  unfold FENCE_JSON_M_RE. cbn [rseq].
  apply line_start_none, literal_led_none; [discriminate|].
  destruct (startswith (py "```json") (skipn j s)) eqn:E; [|reflexivity].
  change (py "```json") with (backticks ++ py "json") in E.
  apply startswith_app_l in E.
  rewrite contains_false_start in E; [discriminate|exact H].
Qed.

Lemma fence_line_unmatched : forall s,
  contains backticks s = false -> sub FENCE_M_RE nothing s = s.
Proof.
  intros s H. unfold sub. apply sub_go_unmatched. intros j _.
  unfold FENCE_M_RE. cbn [rseq].
  apply line_start_none, literal_led_none; [apply backticks_nonempty|].
  apply contains_false_start, H.
Qed.

(** X2.  A reply that holds no code fence is taken as it is, without the
    blanks around it, by the SQL cleaning and by the JSON cleaning. *)
Theorem unfenced_reply_is_stripped : forall text,
  contains backticks text = false ->
  clean_sql text = strip text /\ clean_json text = strip text.
Proof.
  intros text H. apply contains_strip in H. split.
  - unfold clean_sql.
    rewrite fence_sql_unmatched, fence_unmatched, fence_end_unmatched by exact H.
    apply strip_idempotent.
  - unfold clean_json.
    rewrite fence_json_unmatched, fence_line_unmatched, fence_end_unmatched
      by exact H.
    apply strip_idempotent.
Qed.

(** ** A fenced reply *)

Lemma sub_go_skip : forall (m : matcher) repl k suf pre,
  k <= List.length suf ->
  sub_go m repl k pre suf
  = sub_go m repl 0 (rev (firstn k suf) ++ pre) (skipn k suf).
Proof.
  induction k as [|k IH]; intros suf pre Hk; [reflexivity|].
  destruct suf as [|c suf]; [simpl in Hk; lia|].
  cbn [sub_go firstn skipn rev]. rewrite <- app_assoc.
  apply IH. simpl in Hk. lia.
Qed.

Lemma sub_go_hit : forall (m : matcher) repl pre suf n g,
  m pre suf = Some (S n, g) -> S n <= List.length suf ->
  sub_go m repl 0 pre suf
  = repl (firstn (S n) suf) g
    ++ sub_go m repl 0 (rev (firstn (S n) suf) ++ pre) (skipn (S n) suf).
Proof.
  intros m repl pre suf n g H Hn.
  destruct suf as [|c suf]; [simpl in Hn; lia|].
  cbn [sub_go]. rewrite H. f_equal.
  rewrite sub_go_skip by (simpl in Hn; lia).
  cbn [firstn skipn rev]. rewrite <- app_assoc. reflexivity.
Qed.

Lemma run_all : forall p s, forallb p s = true -> run p s = List.length s.
Proof.
  intros p s. induction s as [|c s IH]; intro H; [reflexivity|].
  cbn [forallb] in H. apply andb_true_iff in H. destruct H as [Hc H].
  cbn [run]. rewrite Hc. cbn [List.length]. f_equal. apply IH, H.
Qed.

Lemma run_blanks_then : forall p ws rest,
  forallb p ws = true -> head_is p rest = false ->
  run p (ws ++ rest) = List.length ws.
Proof.
  intros p ws rest H1 H2. rewrite run_app_stop by exact H2. apply run_all, H1.
Qed.

Lemma hd_greedy_star : forall p pre suf,
  hd_error (matches (RStar true p) pre suf) = Some (run p suf, []).
Proof.
  intros. cbn [matches]. rewrite seq_S, rev_app_distr. reflexivity.
Qed.

Lemma matches_greedy_star : forall p pre suf,
  exists l, matches (RStar true p) pre suf = (run p suf, []) :: l.
Proof.
  intros. cbn [matches]. rewrite seq_S, rev_app_distr. cbn [rev app map plus].
  eexists. reflexivity.
Qed.

Lemma head_in_body : forall (q : ascii -> bool) body rest i,
  forallb q body = true -> i < List.length body ->
  head_is q (skipn i (body ++ rest)) = true.
Proof.
  intros q body. induction body as [|c body IH]; intros rest i H Hi;
    [simpl in Hi; lia|].
  cbn [forallb] in H. apply andb_true_iff in H. destruct H as [Hc H].
  destruct i as [|i]; [exact Hc|]. cbn [app skipn]. apply IH; [exact H|].
  simpl in Hi. lia.
Qed.

Lemma run_inside : forall p body rest j,
  body <> [] -> head_is p (rev body) = false -> j < List.length body ->
  j + run p (skipn j (body ++ rest)) < List.length body.
Proof.
  intros p body rest j Hne Hlast Hj.
  destruct (exists_last Hne) as [b [l E]]. subst body.
  rewrite rev_app_distr in Hlast. cbn [rev app head_is] in Hlast.
  rewrite length_app in *. cbn [List.length] in *.
  rewrite <- app_assoc. cbn [app].
  rewrite skipn_app.
  replace (j - List.length b) with 0 by lia. cbn [skipn].
  rewrite run_app_stop by (cbn [head_is]; exact Hlast).
  pose proof (run_le_length p (skipn j b)) as R. rewrite length_skipn in R. lia.
Qed.

Lemma no_fence_in_body : forall body rest i,
  forallb not_backtick body = true -> i < List.length body ->
  startswith backticks (skipn i (body ++ rest)) = false.
Proof.
  intros body rest i H Hi.
  pose proof (@head_in_body not_backtick body rest i H Hi) as K.
  destruct (skipn i (body ++ rest)) as [|c r]; [reflexivity|].
  cbn [head_is] in K. unfold not_backtick in K. apply negb_true_iff in K.
  unfold backticks, py. cbn [list_ascii_of_string startswith].
  rewrite K. reflexivity.
Qed.

Lemma nonempty_pre : forall (a : str) c b, exists d r, a ++ c :: b = d :: r.
Proof. intros [|x a] c b; eexists; eexists; reflexivity. Qed.

Lemma anchored_rest : forall X repl suf pre,
  pre <> [] ->
  sub_go (match_at (RSeq (RBol false) X)) repl 0 pre suf = suf.
Proof.
  intros X repl suf pre H. apply sub_go_unmatched. intros j _.
  destruct (rev (firstn j suf) ++ pre) as [|d r] eqn:E.
  - apply app_eq_nil in E. destruct E as [_ E]. contradiction.
  - apply anchored_later.
Qed.

Section Fenced.

Variables ws1 body ws2 : str.
Hypothesis blank1 : forallb is_space_c ws1 = true.
Hypothesis blank2 : forallb is_space_c ws2 = true.
Hypothesis body_nonempty : body <> [].
Hypothesis body_stripped : strip body = body.
Hypothesis body_plain : forallb not_backtick body = true.

Lemma body_first : head_is is_space_c body = false.
Proof. rewrite <- body_stripped. apply strip_ends. Qed.

Lemma body_last : head_is is_space_c (rev body) = false.
Proof. rewrite <- body_stripped. apply strip_ends. Qed.

Lemma opening_removed :
  sub FENCE_SQL_RE nothing (py "```sql" ++ ws1 ++ body ++ ws2 ++ backticks)
  = body ++ ws2 ++ backticks.
Proof.
  unfold sub.
  assert (Hrun : run is_space_c (ws1 ++ body ++ ws2 ++ backticks)
                 = List.length ws1).
  { apply run_blanks_then; [exact blank1|].
    pose proof body_first as F. destruct body; [congruence|exact F]. }
  assert (M : match_at FENCE_SQL_RE []
                (py "```sql" ++ ws1 ++ body ++ ws2 ++ backticks)
              = Some (S (5 + List.length ws1), [])).
  { unfold match_at, FENCE_SQL_RE. cbn [rseq].
    rewrite (@matches_seq_one _ _ _ _ (0, [])) by reflexivity.
    cbn [fst firstn skipn rev app].
    rewrite (@matches_seq_one _ _ _ _ (6, [])).
    2:{ rewrite matches_rlit by discriminate.
        rewrite startswith_self_app. reflexivity. }
    cbn [fst]. rewrite !hd_error_map.
    change (skipn 6 (py "```sql" ++ ws1 ++ body ++ ws2 ++ backticks))
      with (ws1 ++ body ++ ws2 ++ backticks).
    rewrite hd_greedy_star, Hrun. reflexivity. }
  rewrite (@sub_go_hit _ nothing _ _ _ _ M).
  2:{ rewrite !length_app. simpl. lia. }
  change (nothing (firstn (S (5 + List.length ws1))
            (py "```sql" ++ ws1 ++ body ++ ws2 ++ backticks)) []) with (@nil ascii).
  cbn [app].
  replace (skipn (S (5 + List.length ws1))
             (py "```sql" ++ ws1 ++ body ++ ws2 ++ backticks))
    with (body ++ ws2 ++ backticks).
  2:{ replace (S (5 + List.length ws1)) with (List.length ws1 + 6) by lia.
      rewrite <- skipn_skipn.
      change (skipn 6 (py "```sql" ++ ws1 ++ body ++ ws2 ++ backticks))
        with (ws1 ++ body ++ ws2 ++ backticks).
      rewrite skipn_app, skipn_all, Nat.sub_diag. reflexivity. }
  apply anchored_rest.
  intro E. apply (f_equal (@List.length ascii)) in E.
  rewrite length_app, length_rev in E. simpl in E. lia.
Qed.

Lemma body_not_fence : forall rest, startswith backticks (body ++ rest) = false.
Proof.
  intro rest. apply (@no_fence_in_body body rest 0 body_plain).
  destruct body; [congruence|simpl; lia].
Qed.

Lemma bare_opening_absent :
  sub FENCE_RE nothing (body ++ ws2 ++ backticks) = body ++ ws2 ++ backticks.
Proof.
  unfold sub. apply sub_go_unmatched. intros j Hj.
  rewrite app_nil_r. unfold FENCE_RE. cbn [rseq].
  destruct (rev (firstn j (body ++ ws2 ++ backticks))) as [|c pre] eqn:E.
  - apply anchored_first, literal_led_none; [apply backticks_nonempty|].
    apply (f_equal (@List.length ascii)) in E.
    rewrite length_rev, length_firstn in E. cbn [List.length] in E.
    assert (j = 0) as ->.
    { destruct body; [congruence|]. simpl in E, Hj. lia. }
    apply body_not_fence.
  - apply anchored_later.
Qed.

Lemma closing_match : forall pre,
  match_at FENCE_END_RE pre (ws2 ++ backticks)
  = Some (List.length ws2 + 3, []).
Proof.
  intro pre. unfold match_at, FENCE_END_RE. cbn [rseq].
  destruct (matches_greedy_star is_space_c pre (ws2 ++ backticks)) as [l El].
  assert (R : run is_space_c (ws2 ++ backticks) = List.length ws2)
    by (apply run_blanks_then; [exact blank2|reflexivity]).
  rewrite R in El.
  change (matches (RSeq (RStar true is_space_c) (RSeq (rlit backticks) REol))
            pre (ws2 ++ backticks))
    with (flat_map
            (fun m1 : mres =>
               map (after m1)
                   (matches (RSeq (rlit backticks) REol)
                      (rev (firstn (fst m1) (ws2 ++ backticks)) ++ pre)
                      (skipn (fst m1) (ws2 ++ backticks))))
            (matches (RStar true is_space_c) pre (ws2 ++ backticks))).
  rewrite El. cbn [flat_map fst].
  rewrite skipn_app, skipn_all, Nat.sub_diag. cbn [skipn app].
  rewrite (@matches_seq_one _ _ _ _ (3, [])).
  2:{ rewrite matches_rlit by apply backticks_nonempty. reflexivity. }
  reflexivity.
Qed.

Lemma closing_removed :
  sub FENCE_END_RE nothing (body ++ ws2 ++ backticks) = body.
Proof.
  unfold sub.
  rewrite (@sub_go_keeps _ _ (List.length body)).
  - rewrite firstn_app, firstn_all, Nat.sub_diag. cbn [firstn].
    rewrite app_nil_r, skipn_app, skipn_all, Nat.sub_diag. cbn [skipn app].
    rewrite <- (app_nil_r body) at 3. f_equal.
    pose proof (closing_match (rev body ++ [])) as M.
    replace (List.length ws2 + 3) with (S (List.length ws2 + 2)) in M by lia.
    rewrite (@sub_go_hit _ nothing _ _ _ _ M).
    2:{ rewrite length_app. simpl. lia. }
    replace (S (List.length ws2 + 2)) with (List.length (ws2 ++ backticks))
      by (rewrite length_app; simpl; lia).
    rewrite skipn_all. reflexivity.
  - intros j Hj. unfold FENCE_END_RE. cbn [rseq].
    apply blanks_then_literal_none; [apply backticks_nonempty|].
    intros k Hk. rewrite skipn_skipn. apply no_fence_in_body; [exact body_plain|].
    pose proof (@run_inside is_space_c body (ws2 ++ backticks) j
                  body_nonempty body_last Hj). lia.
  - rewrite length_app. lia.
Qed.

Lemma fenced_is_stripped :
  strip (py "```sql" ++ ws1 ++ body ++ ws2 ++ backticks)
  = py "```sql" ++ ws1 ++ body ++ ws2 ++ backticks.
Proof.
  apply strip_fixed; [reflexivity|].
  rewrite !app_assoc, rev_app_distr. reflexivity.
Qed.

(** X3.  A reply wrapped in a fence tagged sql comes out as its body: for a
    body that is not empty, has no blank at either end and holds no
    backtick, and for any blanks between the fence and the body, the
    cleaning of lines 220-226 (and 333-337) returns exactly the body. *)
Theorem fenced_sql_unwrapped :
  clean_sql (py "```sql" ++ ws1 ++ body ++ ws2 ++ backticks) = body.
Proof.
  unfold clean_sql.
  rewrite fenced_is_stripped, opening_removed, bare_opening_absent,
    closing_removed. exact body_stripped.
Qed.

End Fenced.

Lemma fenced_sql_unwrapped_witness :
  clean_sql (py "```sql" ++ newline ++ py "SELECT pm FROM complaints"
             ++ newline ++ backticks)
  = py "SELECT pm FROM complaints".
Proof.
  apply (@fenced_sql_unwrapped newline (py "SELECT pm FROM complaints") newline);
    try reflexivity.
  discriminate.
Defined.

Lemma unfenced_reply_is_stripped_witness :
  clean_sql (py " SELECT pm FROM complaints ") = strip (py " SELECT pm FROM complaints ")
  /\ clean_json (py " SELECT pm FROM complaints ")
     = strip (py " SELECT pm FROM complaints ").
Proof.
  apply (@unfenced_reply_is_stripped (py " SELECT pm FROM complaints ")).
  reflexivity.
Defined.
(** ** The paths of [chat] *)

Section ChatPaths.

Variable World : Type.
Variable Conn : Type.
Variable complete : request -> World -> completion * World.
Variable json_loads : str -> option json.
Variable connect : World -> (str + Conn) * World.
Variable execute : Conn -> str -> World -> exec_outcome * World.
Variable wording : fault -> str.
Variable column_order : list str.

Local Abbreviation generate_sql := (@generate_sql World Conn complete wording column_order).
Local Abbreviation execute_query := (execute_query connect execute wording).
Local Abbreviation format_response := (@format_response World Conn complete json_loads wording).
Local Abbreviation true_total := (true_total connect execute wording).
Local Abbreviation aggregated := (aggregated complete connect execute wording).
Local Abbreviation answer := (answer complete json_loads connect execute wording).
Local Abbreviation chat := (chat complete json_loads connect execute wording column_order).

Lemma generate_sql_eq : forall question (p : process World Conn),
  let c := complete (ReqSql question) (world p) in
  generate_sql question p
  = (inr match sql_failure wording (fst c) with
         | Some msg => ([], Some msg)
         | None =>
             match fst c with
             | Replies (Some t) => (correct_sql column_order (clean_sql t), None)
             | _ => ([], None)
             end
         end,
     mkProcess (snd c) (_connection p) (requests p ++ [ReqSql question])).
Proof.
  intros. unfold Agent.generate_sql, try_except, bind, call_model. subst c.
  destruct (complete (ReqSql question) (world p)) as [[msg|[t|]] w];
    cbn [fst snd sql_failure fault_str]; try reflexivity.
  destruct (is_select_or_with (clean_sql t)); reflexivity.
Qed.


Lemma execute_query_cases : forall sql (p : process World Conn),
  (exists msg w,
      _connection p = None
      /\ execute_query sql p = (inl (External msg), mkProcess w None (requests p)))
  \/ (exists con r p',
        execute_query sql p = (inr r, p')
        /\ _connection p' = Some con /\ requests p' = requests p
        /\ (forall rows cols m, r = (rows, cols, Some m) -> rows = [] /\ cols = [])).
Proof.
  intros sql p.
  destruct (get_connection connect p) as [[f|con] q] eqn:G.
  - left. unfold Database.execute_query, bind. rewrite G.
    unfold Database.get_connection in G.
    destruct (_connection p) eqn:Ec; [discriminate|].
    destruct (connect (world p)) as [[m|c2] w]; inversion G; subst.
    exists m, w. split; reflexivity.
  - right. rewrite (execute_query_connected connect execute wording sql _ G).
    exists con. do 2 eexists. split; [reflexivity|]. split; [reflexivity|].
    split.
    + cbn [requests]. unfold Database.get_connection in G.
      destruct (_connection p).
      * inversion G; subst. reflexivity.
      * destruct (connect (world p)) as [[m|c2] w]; inversion G; subst.
        reflexivity.
    + intros rows cols m E. unfold reported in E.
      destruct (fst (execute con sql (world q))) as [x|[d|] [y|rs]];
        inversion E; subst; auto.
Qed.

(** X9.  When the query fails or brings back no row, [chat] answers without
    calling the formatter.  A failure reports no row and no column; with
    a message that is not empty the answer is the error envelope of lines
    624-629, which holds the message and the SQL; without rows and
    without such a message (a failure whose message is empty included)
    the answer is the envelope of lines 633-640, with a row count of 0. *)
Theorem no_rows_no_formatting :
  forall question (p p1 p2 : process World Conn) sql rows cols err,
    generate_sql question p = (inr (sql, None), p1) ->
    execute_query sql p1 = (inr (rows, cols, err), p2) ->
    is_error err = true \/ rows = [] ->
    rows = []
    /\ (is_error err = true -> cols = [])
    /\ chat question p
       = (inr match err with
              | Some (c :: m) =>
                  error_envelope
                    (py "Eroare la executarea interogării: " ++ c :: m) (Some sql)
              | _ => empty_envelope sql cols
              end, p2)
    /\ requests p2 = requests p ++ [ReqSql question].
Proof.
  intros question p p1 p2 sql rows cols err Hg He Hno.
  destruct (generate_sql_state complete wording column_order _ _ Hg) as [_ [_ Hr1]].
  destruct (execute_query_cases sql p1)
    as [[m [w [_ E]]]|[con [r [p' [E [_ [Hr2 Hshape]]]]]]];
    rewrite E in He; [discriminate|].
  inversion He; subst r p'; clear He.
  assert (Hrows : rows = [] /\ (is_error err = true -> cols = [])).
  { destruct err as [m|].
    - destruct (Hshape rows cols m eq_refl) as [-> ->]. auto.
    - destruct Hno as [C | -> ]; [discriminate|]. split; [reflexivity|].
      intro C. discriminate. }
  destruct Hrows as [-> Hcols]. split; [reflexivity|]. split; [exact Hcols|].
  split; [|rewrite Hr2; exact Hr1].
  unfold Agent.chat, bind. rewrite Hg. cbn [is_error]. rewrite E.
  destruct err as [[|c m]|]; reflexivity.
Qed.

(** X10.  A result of fewer than 150 rows is formatted as it is: no aggregation
    is attempted, the formatter is asked once, with the number of rows as
    the total and hence without a note on the real total, and the store is
    not consulted again. *)
Theorem small_result_is_formatted :
  forall question (p p1 p2 : process World Conn) sql results columns err,
    generate_sql question p = (inr (sql, None), p1) ->
    execute_query sql p1 = (inr (results, columns, err), p2) ->
    is_error err = false ->
    results <> [] ->
    List.length results < 150 ->
    let n := List.length results in
    let req := ReqFormat question sql n (firstn 100 results) None
                         (shop_stats results columns) columns in
    exists env,
      chat question p
      = (inr env, mkProcess (snd (complete req (world p2))) (_connection p2)
                            (requests p ++ [ReqSql question; req]))
      /\ chat question p
         = format_response question sql results columns (Some (Z.of_nat n)) p2
      /\ dget (py "sql") env = Some (FStr sql)
      /\ dget (py "row_count") env = Some (FNat n).
Proof.
  intros question p p1 p2 sql results columns err Hg He Herr Hne Hn n req.
  destruct (generate_sql_state complete wording column_order _ _ Hg) as [_ [_ Hr1]].
  destruct (execute_query_cases sql p1)
    as [[m [w [_ E]]]|[con [r [p' [E [_ [Hr2 _]]]]]]];
    rewrite E in He; [discriminate|].
  inversion He; subst r p'; clear He.
  assert (Hchat : chat question p
                  = format_response question sql results columns
                      (Some (Z.of_nat n)) p2).
  { unfold Agent.chat, bind. rewrite Hg. cbn [is_error]. rewrite E, Herr.
    destruct results as [|r0 rs]; [congruence|].
    unfold Agent.answer.
    assert (Hb : (150 <=? Z.of_nat (List.length (r0 :: rs)))%Z = false)
      by (apply Z.leb_gt; lia).
    rewrite Hb. reflexivity. }
  assert (Hreq : format_request question sql results columns (Some (Z.of_nat n))
                 = req).
  { unfold format_request, count_info, req, n.
    rewrite Z.eqb_refl, andb_false_r. reflexivity. }
  destruct (format_response_returns complete json_loads wording question sql
              results columns (Some (Z.of_nat n)) p2) as [env [p3 [Hf [Hs Hc]]]].
  exists env. rewrite Hchat. split; [|split; [reflexivity|split; assumption]].
  rewrite Hf. f_equal.
  rewrite format_response_eq in Hf. cbv zeta in Hf. rewrite Hreq in Hf.
  inversion Hf; subst p3. rewrite Hr2, Hr1, <- app_assoc. reflexivity.
Qed.

Lemma true_total_cases : forall sql n (p : process World Conn) con,
  _connection p = Some con ->
  exists r p',
    true_total sql n p = (r, p')
    /\ _connection p' = Some con /\ requests p' = requests p
    /\ (forall f, r = inl f -> f = NotAnInteger \/ f = IndexOutOfRange).
Proof.
  intros sql n p con Hc. unfold Agent.true_total.
  destruct (_extract_count_query sql) as [count_sql|].
  - unfold bind.
    destruct (execute_query_open connect execute wording count_sql p Hc)
      as [r [p1 [E [Hc1 Hr1]]]].
    rewrite E.
    destruct (fst (fst r)) as [|r0 [|]];
      try (do 2 eexists; split; [reflexivity|];
           split; [exact Hc1|]; split; [exact Hr1|];
           intros f C; discriminate).
    unfold primary. destruct r0 as [|[k v] r0].
    + do 2 eexists. split; [reflexivity|]. split; [exact Hc1|].
      split; [exact Hr1|]. intros f C. inversion C. now right.
    + destruct v as [| | |? [z|] ?| |];
        do 2 eexists; (split; [reflexivity|]); (split; [exact Hc1|]);
        (split; [exact Hr1|]); intros f C; inversion C. now left.
  - do 2 eexists. split; [reflexivity|]. split; [exact Hc|].
    split; [reflexivity|]. intros f C. discriminate.
Qed.

(** What [chat] comes to, whatever the collaborators do: it stops after
    the SQL request; or it raises, before any other request, because the
    store cannot be opened or the count step meets a value it cannot
    convert; or it ends with the formatter, after at most one aggregation
    request. *)
Lemma chat_cases : forall question (p : process World Conn),
  exists r p',
    chat question p = (r, p')
    /\ ( (requests p' = requests p ++ [ReqSql question]
          /\ ((exists env, r = inr env)
              \/ (_connection p = None /\ exists msg, r = inl (External msg))
              \/ r = inl NotAnInteger \/ r = inl IndexOutOfRange))
        \/ (exists env f,
              r = inr env /\ is_format_request f = true
              /\ requests p' = requests p ++ [ReqSql question; f])
        \/ (exists env c f,
              r = inr env /\ is_chart_request c = true
              /\ is_format_request f = true
              /\ requests p' = requests p ++ [ReqSql question; c; f]) ).
Proof.
  intros question p. unfold Agent.chat, bind.
  destruct (generate_sql question p) as [r1 p1] eqn:Hg.
  destruct (generate_sql_state complete wording column_order _ _ Hg)
    as [[[sql e] ->] [Hc1 Hr1]].
  destruct (is_error e).
  { do 2 eexists. split; [reflexivity|]. left. split; [exact Hr1|].
    left. eexists. reflexivity. }
  destruct (execute_query_cases sql p1)
    as [[m [w [Hnone E]]]|[con [[[results columns] err] [p2 [E [Hc2 [Hr2 _]]]]]]];
    rewrite E.
  { do 2 eexists. split; [reflexivity|]. left. cbn [requests].
    split; [exact Hr1|]. right. left. split; [congruence|].
    eexists. reflexivity. }
  destruct (is_error err).
  { do 2 eexists. split; [reflexivity|]. left. split; [congruence|].
    left. eexists. reflexivity. }
  destruct results as [|r0 rs].
  { do 2 eexists. split; [reflexivity|]. left. split; [congruence|].
    left. eexists. reflexivity. }
  unfold Agent.answer.
  destruct (150 <=? Z.of_nat (List.length (r0 :: rs)))%Z.
  - unfold bind.
    destruct (true_total_cases sql (Z.of_nat (List.length (r0 :: rs))) p2 Hc2)
      as [rt [p3 [Et [Hc3 [Hr3 Hf]]]]].
    rewrite Et. destruct rt as [f|total].
    + do 2 eexists. split; [reflexivity|]. left. split; [congruence|].
      right. right. destruct (Hf f eq_refl) as [-> | ->]; auto.
    + destruct (aggregated_soft complete connect execute wording question sql
                  total p3 Hc3) as [outcome [p4 [Ea [_ Hr4]]]].
      rewrite Ea.
      destruct outcome as [[[a ar] ac]|]; rewrite format_response_eq;
        do 2 eexists; (split; [reflexivity|]); right; right;
        do 3 eexists; (split; [reflexivity|]);
        (split; [|split]);
        [ | |cbn [requests]; rewrite Hr4, Hr3, Hr2, Hr1, <- !app_assoc;
               reflexivity | | |
           cbn [requests]; rewrite Hr4, Hr3, Hr2, Hr1, <- !app_assoc;
               reflexivity ]; reflexivity.
  - rewrite format_response_eq. do 2 eexists. split; [reflexivity|].
    right. left. do 2 eexists. split; [reflexivity|].
    split; [|cbn [requests]; rewrite Hr2, Hr1, <- app_assoc; reflexivity].
    reflexivity.
Qed.

(** X11.  For every question and every behaviour of the collaborators, [chat]
    asks the completion service for the SQL first, then at most once for
    an aggregated query, then at most once for the wording, in this order,
    and an aggregation request is always followed by the wording: one,
    two or three requests in all. *)
Theorem chat_asks_in_order :
  forall question (p : process World Conn),
    exists l,
      requests (snd (chat question p)) = requests p ++ ReqSql question :: l
      /\ (l = []
          \/ (exists f, l = [f] /\ is_format_request f = true)
          \/ (exists c f, l = [c; f] /\ is_chart_request c = true
                            /\ is_format_request f = true)).
Proof.
  intros question p.
  destruct (chat_cases question p) as [r [p' [E H]]]. rewrite E. cbn [snd].
  destruct H as [[Hr _]|[[env [f [_ [Hf Hr]]]]|[env [c [f [_ [Hc [Hf Hr]]]]]]]].
  - exists []. split; [exact Hr|]. now left.
  - exists [f]. split; [exact Hr|]. right. left. eauto.
  - exists [c; f]. split; [exact Hr|]. right. right. eauto.
Qed.

(** X12.  [chat] raises in two situations only: the store could not be opened
    (no connection was held and the attempt failed), or the value of the
    count query could not be taken as a number of rows: [int] of a float
    that is not finite, or a count row without columns.  Nothing else
    gets out of [chat] as an exception. *)
Theorem chat_raises_only :
  forall question (p p' : process World Conn) f,
    chat question p = (inl f, p') ->
    (_connection p = None /\ exists msg, f = External msg)
    \/ f = NotAnInteger \/ f = IndexOutOfRange.
Proof.
  intros question p p' f H.
  destruct (chat_cases question p) as [r [q [E C]]]. rewrite E in H.
  inversion H; subst r q; clear H.
  destruct C as [[_ C]|[[env [f0 [C _]]]|[env [c [f0 [C _]]]]]];
    try discriminate.
  destruct C as [[env C]|[[Hn [msg C]]|[C|C]]]; try discriminate;
    inversion C; subst; eauto.
Qed.

End ChatPaths.


Lemma no_rows_no_formatting_witness :
  (@nil row) = []
  /\ (is_error (Some (py "Parser Error: syntax error")) = true -> (@nil str) = [])
  /\ chat (says other_table_query) scripted_loads open_store rejecting
          plain_wording VALID_COLUMNS (py "Ce clienti sunt din Brasov?") fresh
     = (inr (error_envelope
               (py "Eroare la executarea interogării: "
                ++ py "Parser Error: syntax error")
               (Some (py "SELECT nume_client FROM clienti WHERE oras = 'Brasov' LIMIT 150"))),
        mkProcess tt (Some tt) [ReqSql (py "Ce clienti sunt din Brasov?")])
  /\ requests (mkProcess tt (Some tt) [ReqSql (py "Ce clienti sunt din Brasov?")])
     = requests fresh ++ [ReqSql (py "Ce clienti sunt din Brasov?")].
Proof.
  apply (@no_rows_no_formatting unit unit (says other_table_query) scripted_loads
           open_store rejecting plain_wording VALID_COLUMNS
           (py "Ce clienti sunt din Brasov?") fresh
           (mkProcess tt None [ReqSql (py "Ce clienti sunt din Brasov?")])
           (mkProcess tt (Some tt) [ReqSql (py "Ce clienti sunt din Brasov?")])
           (py "SELECT nume_client FROM clienti WHERE oras = 'Brasov' LIMIT 150")
           [] [] (Some (py "Parser Error: syntax error"))).
  - vm_compute. reflexivity.
  - vm_compute. reflexivity.
  - left. reflexivity.
Defined.

Lemma small_result_is_formatted_witness :
  exists env,
    chat detail_model scripted_loads open_store detail_store plain_wording
         VALID_COLUMNS (py "Ce reclamatii sunt?") fresh
    = (inr env,
       mkProcess tt (Some tt)
         ([] ++ [ ReqSql (py "Ce reclamatii sunt?");
                  ReqFormat (py "Ce reclamatii sunt?") detail_sql 2
                            (firstn 100 detail_rows) None
                            (shop_stats detail_rows detail_columns)
                            detail_columns ]))
    /\ chat detail_model scripted_loads open_store detail_store plain_wording
            VALID_COLUMNS (py "Ce reclamatii sunt?") fresh
       = format_response detail_model scripted_loads plain_wording
           (py "Ce reclamatii sunt?") detail_sql detail_rows detail_columns
           (Some (Z.of_nat 2))
           (mkProcess tt (Some tt) [ReqSql (py "Ce reclamatii sunt?")])
    /\ dget (py "sql") env = Some (FStr detail_sql)
    /\ dget (py "row_count") env = Some (FNat 2).
Proof.
  apply (@small_result_is_formatted unit unit detail_model scripted_loads
           open_store detail_store plain_wording VALID_COLUMNS
           (py "Ce reclamatii sunt?") fresh
           (mkProcess tt None [ReqSql (py "Ce reclamatii sunt?")])
           (mkProcess tt (Some tt) [ReqSql (py "Ce reclamatii sunt?")])
           detail_sql detail_rows detail_columns None).
  - vm_compute. reflexivity.
  - vm_compute. reflexivity.
  - reflexivity.
  - discriminate.
  - vm_compute. lia.
Defined.

(** A count query that returns NaN: the conversion to a number of rows
    raises, and the exception leaves [chat]. *)
Lemma chat_raises_only_witness :
  fst (chat capped_model scripted_loads open_store nan_store plain_wording
            VALID_COLUMNS capped_question fresh) = inl NotAnInteger
  /\ ((_connection fresh = None /\ exists msg, @NotAnInteger = External msg)
      \/ @NotAnInteger = NotAnInteger \/ @NotAnInteger = IndexOutOfRange).
Proof.
  split; [vm_compute; reflexivity|].
  apply (@chat_raises_only unit unit capped_model scripted_loads open_store
           nan_store plain_wording VALID_COLUMNS capped_question fresh
           (snd (chat capped_model scripted_loads open_store nan_store
                      plain_wording VALID_COLUMNS capped_question fresh))
           NotAnInteger).
  vm_compute. reflexivity.
Defined.
(** ** The formatter *)

Lemma guess_not_table : forall results columns,
  15 < List.length results ->
  _guess_visualization results columns <> VizTable.
Proof.
  intros results columns H. unfold _guess_visualization.
  destruct results as [|r0 rs]; [discriminate|].
  assert (E : (List.length (r0 :: rs) <=? 15) = false) by (apply Nat.leb_gt; lia).
  cbv zeta. rewrite E.
  repeat match goal with
         | |- context [if ?b then _ else _] => destruct b
         end; discriminate.
Qed.

Lemma override_not_table : forall results columns e,
  15 < List.length results ->
  field_is_str (py "table") (viz_of (override_table results columns e)) = false.
Proof.
  intros results columns e H. unfold override_table.
  assert (E : (15 <? List.length results) = true) by (apply Nat.ltb_lt; lia).
  rewrite E, andb_true_r.
  destruct (field_is_str (py "table") (viz_of e)) eqn:Et; [|exact Et].
  unfold viz_of. rewrite dget_dset_same.
  pose proof (@guess_not_table results columns H) as G.
  destruct (_guess_visualization results columns); try reflexivity.
  congruence.
Qed.

Lemma force_none_not_table : forall columns e,
  field_is_str (py "table") (viz_of e) = false ->
  field_is_str (py "table") (viz_of (force_none columns e)) = false.
Proof.
  intros columns e H. unfold force_none.
  destruct (is_detail columns
            && negb (field_is_str (py "none") (viz_of e)
                     || field_is_str (py "table") (viz_of e))); [|exact H].
  unfold viz_of. rewrite dget_dset_same. reflexivity.
Qed.

Lemma clean_text_other : forall e e' k,
  clean_text e = inr e' -> str_eqb (py "text") k = false ->
  dget k e' = dget k e.
Proof.
  intros e e' k. unfold clean_text.
  destruct (dget (py "text") e) as [[[| | | |t| |]| |]|]; intros H Hk;
    inversion H; subst; try reflexivity.
  now rewrite dget_dset_other.
Qed.

Lemma override_other : forall results columns e k,
  str_eqb (py "visualization") k = false ->
  dget k (override_table results columns e) = dget k e.
Proof.
  intros results columns e k Hk. unfold override_table.
  destruct (field_is_str (py "table") (viz_of e) && (15 <? List.length results));
    [|reflexivity].
  now rewrite dget_dset_other.
Qed.

Lemma force_none_other : forall columns e k,
  str_eqb (py "visualization") k = false ->
  dget k (force_none columns e) = dget k e.
Proof.
  intros columns e k Hk. unfold force_none.
  destruct (is_detail columns
            && negb (field_is_str (py "none") (viz_of e)
                     || field_is_str (py "table") (viz_of e)));
    [|reflexivity].
  now rewrite dget_dset_other.
Qed.

Lemma complete_details_other : forall results columns e e' k,
  complete_details results columns e = inr e' ->
  str_eqb (py "text") k = false -> str_eqb (py "data") k = false ->
  str_eqb (py "columns") k = false ->
  dget k e' = dget k e.
Proof.
  intros results columns e e' k H Ht Hd Hc. unfold complete_details in H.
  destruct (is_detail columns && field_is_str (py "none") (viz_of e)
            && (List.length results <=? 60)).
  - destruct (missing_values _ results).
    + inversion H; subst. now rewrite !dget_dset_other.
    + destruct (detail_list results); [discriminate|].
      destruct (dget (py "text") e); [|discriminate].
      inversion H; subst. now rewrite !dget_dset_other.
  - now inversion H.
Qed.

Lemma complete_details_plain : forall results columns e,
  is_detail columns = false -> complete_details results columns e = inr e.
Proof. intros results columns e H. unfold complete_details. now rewrite H. Qed.

Lemma attach_other : forall sql results columns e k,
  str_eqb (py "data") k = false -> str_eqb (py "columns") k = false ->
  str_eqb (py "sql") k = false -> str_eqb (py "row_count") k = false ->
  dget k (attach sql results columns e) = dget k e.
Proof.
  intros sql results columns e k Hd Hc Hs Hr. unfold attach.
  destruct (dmem (py "data") e); destruct (dmem (py "columns") _);
    now rewrite !dget_dset_other.
Qed.

Lemma attach_data : forall sql results columns e,
  dget (py "data") (attach sql results columns e)
  = match dget (py "data") e with
    | Some v => Some v
    | None => Some (FRows results)
    end.
Proof.
  intros. unfold attach, dmem.
  destruct (dget (py "data") e) eqn:Ed.
  - destruct (dget (py "columns") e); dict_simpl; exact Ed.
  - rewrite (@dget_dset_other _ (py "columns") (py "data")) by reflexivity.
    destruct (dget (py "columns") e); now dict_simpl.
Qed.

Lemma attach_columns : forall sql results columns e,
  dget (py "columns") (attach sql results columns e)
  = match dget (py "columns") e with
    | Some v => Some v
    | None => Some (FCols columns)
    end.
Proof.
  intros. unfold attach.
  destruct (dmem (py "data") e); unfold dmem; dict_simpl;
    destruct (dget (py "columns") e) eqn:Ec; dict_simpl;
    try exact Ec; reflexivity.
Qed.

Lemma not_in_keys : forall (k x : str) l, ~ In k l -> In x l -> str_eqb x k = false.
Proof.
  intros k x l Hk Hx. apply str_eqb_neq. intro E. subst. contradiction.
Qed.

(** ** Excerpts *)

Lemma newline_is : forall c, is_newline c = chr_eqb (ascii_of_nat 10) c.
Proof.
  intro c.
  pose proof (all_ascii_spec
    (fun c => Bool.eqb (is_newline c) (chr_eqb (ascii_of_nat 10) c))
    ltac:(vm_compute; reflexivity) c) as A.
  apply Bool.eqb_prop in A. exact A.
Qed.

Lemma replace_newlines_flat : forall s,
  flat (replace [ascii_of_nat 10] (py " ") s) = true.
Proof.
  unfold replace. induction s as [|c s IH]; [reflexivity|].
  cbn [replace_go startswith List.length Nat.sub].
  rewrite andb_true_r. destruct (chr_eqb (ascii_of_nat 10) c) eqn:E.
  - cbn [py list_ascii_of_string app flat forallb]. exact IH.
  - cbn [flat forallb]. rewrite newline_is, E. exact IH.
Qed.

Lemma flat_app : forall a b, flat (a ++ b) = flat a && flat b.
Proof. intros. unfold flat. apply forallb_app. Qed.

Lemma flat_strip : forall s, flat s = true -> flat (strip s) = true.
Proof.
  intros s H. unfold strip, lstrip_by.
  destruct (drop_while_split is_space_c s) as [a [Ea _]].
  destruct (rstrip_split is_space_c (drop_while is_space_c s)) as [b [Eb _]].
  rewrite Ea, Eb, !flat_app in H.
  apply andb_true_iff in H. destruct H as [_ H].
  apply andb_true_iff in H. tauto.
Qed.

Lemma flat_firstn : forall n s, flat s = true -> flat (firstn n s) = true.
Proof.
  intros n s H. rewrite <- (firstn_skipn n s), flat_app in H.
  apply andb_true_iff in H. tauto.
Qed.


Section FormatterMore.

Variable World : Type.
Variable Conn : Type.
Variable complete : request -> World -> completion * World.
Variable json_loads : str -> option json.
Variable wording : fault -> str.

Local Abbreviation format_response := (@format_response World Conn complete json_loads wording).
Local Abbreviation decode_reply := (decode_reply json_loads).
Local Abbreviation formatted := (formatted json_loads).

(** X14.  For a result of more than 15 rows the envelope never asks for a
    table, whatever the model replied: a table chosen by the model is
    replaced by the classifier's choice (lines 477-478), which is no table
    for so many rows, and the catch-all envelope has [none]. *)
Theorem no_table_beyond_fifteen_rows :
  forall question sql results columns total_count (p : process World Conn),
    15 < List.length results ->
    exists env p',
      format_response question sql results columns total_count p = (inr env, p')
      /\ field_is_str (py "table") (viz_of env) = false.
Proof.
  intros question sql results columns total_count p Hn.
  rewrite format_response_eq.
  set (req := format_request question sql results columns total_count).
  do 2 eexists. split; [reflexivity|].
  destruct (formatted sql results columns (fst (complete req (world p))))
    as [f|e] eqn:E; [reflexivity|].
  destruct (fst (complete req (world p))) as [msg|[t|]];
    cbn [Agent.formatted] in E; try discriminate.
  unfold post_process in E.
  destruct (decode_reply results columns (clean_json t))
    as [| | | |s|l|d]; try discriminate.
  - destruct (contains _ s); discriminate.
  - destruct (existsb _ l); discriminate.
  - destruct (clean_text (lift_obj d)) as [f|e1]; [discriminate|].
    destruct (complete_details results columns
                (force_none columns (override_table results columns e1)))
      as [f|e2] eqn:E2; [discriminate|].
    inversion E; subst e. rewrite viz_attach.
    rewrite (@viz_complete_details _ _ _ _ E2).
    apply force_none_not_table, override_not_table, Hn.
Qed.

(** X15.  What [format_response] does with the fields of a reply that decodes
    to an object, when the body does not fault.  A field it does not
    manage (any key other than text, visualization, data, columns, sql and
    row_count; the chart configuration for one) reaches the envelope
    unchanged.  For columns outside the detail set, a data or columns
    field of the reply is kept as the model wrote it: the result rows and
    the column names are attached only where the reply has none (lines
    527-530). *)
Theorem reply_fields_pass_through :
  forall question sql results columns total_count (p : process World Conn)
         t d env,
    fst (complete (format_request question sql results columns total_count)
                  (world p)) = Replies (Some t) ->
    decode_reply results columns (clean_json t) = JObj d ->
    post_process sql results columns (JObj d) = inr env ->
    fst (format_response question sql results columns total_count p) = inr env
    /\ (forall k,
          ~ In k [py "text"; py "visualization"; py "data"; py "columns";
                  py "sql"; py "row_count"] ->
          dget k env = option_map FJson (dget k d))
    /\ (is_detail columns = false ->
          dget (py "data") env
          = match dget (py "data") d with
            | Some j => Some (FJson j)
            | None => Some (FRows results)
            end
          /\ dget (py "columns") env
             = match dget (py "columns") d with
               | Some j => Some (FJson j)
               | None => Some (FCols columns)
               end).
Proof.
  intros question sql results columns total_count p t d env Hc Hd Hp.
  split.
  { rewrite format_response_eq. cbv zeta. cbn [fst]. rewrite Hc.
    cbn [Agent.formatted]. rewrite Hd, Hp. reflexivity. }
  unfold post_process in Hp.
  destruct (clean_text (lift_obj d)) as [f|e1] eqn:E1; [discriminate|].
  destruct (complete_details results columns
              (force_none columns (override_table results columns e1)))
    as [f|e2] eqn:E2; [discriminate|].
  inversion Hp; subst env; clear Hp. split.
  - intros k Hk.
    assert (K : forall x, In x [py "text"; py "visualization"; py "data";
                                py "columns"; py "sql"; py "row_count"] ->
                          str_eqb x k = false)
      by (intros x Hx; eapply not_in_keys; eauto).
    rewrite attach_other by (apply K; cbn; tauto).
    rewrite (@complete_details_other _ _ _ _ k E2) by (apply K; cbn; tauto).
    rewrite force_none_other, override_other by (apply K; cbn; tauto).
    rewrite (@clean_text_other _ _ k E1) by (apply K; cbn; tauto).
    apply dget_lift_obj.
  - intro Hdet. rewrite complete_details_plain in E2 by exact Hdet.
    inversion E2; subst e2; clear E2.
    rewrite attach_data, attach_columns.
    rewrite !force_none_other, !override_other by reflexivity.
    rewrite (@clean_text_other _ _ (py "data") E1) by reflexivity.
    rewrite (@clean_text_other _ _ (py "columns") E1) by reflexivity.
    rewrite !dget_lift_obj.
    destruct (dget (py "data") d); destruct (dget (py "columns") d);
      split; reflexivity.
Qed.

(** X27.  Lines 489-524 from the other side of their bound.  For a result
    of more than 60 rows whose reply decodes to an object with a text,
    nothing is listed and nothing is cleared, detail columns or not: the
    text of the envelope is the model's text (its escaped quotes
    restored), and the data and the columns are the reply's own when it
    has such fields, the rows and the column names of the result
    otherwise. *)
Theorem long_listing_is_left_alone :
  forall question sql results columns total_count (p : process World Conn)
         t d text,
    fst (complete (format_request question sql results columns total_count)
                  (world p)) = Replies (Some t) ->
    decode_reply results columns (clean_json t) = JObj d ->
    dget (py "text") d = Some (JStr text) ->
    60 < List.length results ->
    exists env p',
      format_response question sql results columns total_count p = (inr env, p')
      /\ dget (py "text") env = Some (FStr (unescaped text))
      /\ dget (py "data") env
         = match dget (py "data") d with
           | Some j => Some (FJson j)
           | None => Some (FRows results)
           end
      /\ dget (py "columns") env
         = match dget (py "columns") d with
           | Some j => Some (FJson j)
           | None => Some (FCols columns)
           end.
Proof.
  intros question sql results columns total_count p t d text Hc Hd Ht Hn.
  rewrite format_response_eq. cbv zeta. rewrite Hc.
  cbn [Agent.formatted]. rewrite Hd.
  unfold post_process, clean_text. rewrite dget_lift_obj, Ht. cbn [option_map].
  set (e1 := dset (py "text") (FStr (unescaped text)) (lift_obj d)).
  assert (E : complete_details results columns
                (force_none columns (override_table results columns e1))
              = inr (force_none columns (override_table results columns e1))).
  { unfold complete_details.
    assert (L : (List.length results <=? 60) = false) by (apply Nat.leb_gt; lia).
    rewrite L, andb_false_r. reflexivity. }
  rewrite E. do 2 eexists. split; [reflexivity|].
  split; [|split].
  - rewrite text_attach, text_force_none, text_override_table.
    unfold e1. apply dget_dset_same.
  - rewrite attach_data, force_none_other, override_other by reflexivity.
    unfold e1. rewrite dget_dset_other by reflexivity. rewrite dget_lift_obj.
    destruct (dget (py "data") d); reflexivity.
  - rewrite attach_columns, force_none_other, override_other by reflexivity.
    unfold e1. rewrite dget_dset_other by reflexivity. rewrite dget_lift_obj.
    destruct (dget (py "columns") d); reflexivity.
Qed.

End FormatterMore.

(** Sixteen rows and a model that asks for a table: the envelope holds
    the classifier's bar chart. *)
Lemma no_table_beyond_fifteen_rows_witness :
  exists env p',
    format_response (says table_reply) ranking_loads plain_wording
      (py "Clasament PM") ranking_sql (ranking_rows 16) ranking_columns None fresh
    = (inr env, p')
    /\ field_is_str (py "table") (viz_of env) = false.
Proof.
  apply (@no_table_beyond_fifteen_rows unit unit (says table_reply)
           ranking_loads plain_wording (py "Clasament PM") ranking_sql
           (ranking_rows 16) ranking_columns None fresh).
  vm_compute. lia.
Defined.

Example table_replaced_by_bar_chart :
  viz_of match fst (format_response (says table_reply) ranking_loads plain_wording
                      (py "Clasament PM") ranking_sql (ranking_rows 16)
                      ranking_columns None fresh) with
         | inr env => env
         | inl _ => []
         end
  = Some (FStr (py "bar_chart")).
Proof. vm_compute. reflexivity. Qed.

(** A reply with a chart configuration and data of its own, for two rows
    of a ranking: both reach the envelope, the rows of the result do not. *)
Lemma reply_fields_pass_through_witness :
  let env := [ (py "text", FStr (py "Clasament"));
               (py "visualization", FStr (py "bar_chart"));
               (py "chart_config",
                FJson (JObj [ (py "x", JStr (py "pm"));
                              (py "y", JStr (py "total")) ]));
               (py "data", FJson (JArr [JInt 1]));
               (py "columns", FCols ranking_columns);
               (py "sql", FStr ranking_sql);
               (py "row_count", FNat 2) ] in
  fst (format_response (says chart_reply) ranking_loads plain_wording
         (py "Clasament PM") ranking_sql (ranking_rows 2) ranking_columns
         None fresh) = inr env
  /\ (forall k,
        ~ In k [py "text"; py "visualization"; py "data"; py "columns";
                py "sql"; py "row_count"] ->
        dget k env = option_map FJson (dget k chart_object))
  /\ (is_detail ranking_columns = false ->
        dget (py "data") env
        = match dget (py "data") chart_object with
          | Some j => Some (FJson j)
          | None => Some (FRows (ranking_rows 2))
          end
        /\ dget (py "columns") env
           = match dget (py "columns") chart_object with
             | Some j => Some (FJson j)
             | None => Some (FCols ranking_columns)
             end).
Proof.
  apply (@reply_fields_pass_through unit unit (says chart_reply) ranking_loads
           plain_wording (py "Clasament PM") ranking_sql (ranking_rows 2)
           ranking_columns None fresh chart_reply chart_object).
  - reflexivity.
  - vm_compute. reflexivity.
  - vm_compute. reflexivity.
Defined.

(** ** A count under the alias [numar] *)

Lemma numar_is_detail : forall columns,
  existsb (fun c => str_eqb (lower c) (py "numar")) columns = true ->
  is_detail columns = true /\ has_numeric columns = true.
Proof.
  intros columns H. apply existsb_exists in H. destruct H as [c [Hc E]].
  apply str_eqb_eq in E. split.
  - unfold is_detail, meets, cols_lower. apply existsb_exists.
    exists (lower c). split; [now apply in_map|]. rewrite E. reflexivity.
  - unfold has_numeric. apply existsb_exists.
    exists c. split; [exact Hc|]. rewrite E. reflexivity.
Qed.

Section CountAlias.

Variable World : Type.
Variable Conn : Type.
Variable complete : request -> World -> completion * World.
Variable json_loads : str -> option json.
Variable wording : fault -> str.

Local Abbreviation format_response := (@format_response World Conn complete json_loads wording).
Local Abbreviation decode_reply := (decode_reply json_loads).
Local Abbreviation formatted := (formatted json_loads).

(** X16.  The alias [numar], which the examples of the SQL prompt give to a
    count, is in the set of numeric columns of the classifier and in the
    set of detail columns of the formatter.  A result with a column of
    that name (in any case) is therefore never charted by
    [format_response], whatever the model and the classifier choose: its
    visualization is [none] or [table]. *)
Theorem count_alias_blocks_charts :
  forall question sql results columns total_count (p : process World Conn),
    existsb (fun c => str_eqb (lower c) (py "numar")) columns = true ->
    has_numeric columns = true
    /\ is_detail columns = true
    /\ exists env p',
         format_response question sql results columns total_count p = (inr env, p')
         /\ (viz_of env = Some (FStr (py "none"))
             \/ viz_of env = Some (FStr (py "table"))).
Proof.
  intros question sql results columns total_count p H.
  destruct (numar_is_detail columns H) as [Hd Hn].
  split; [exact Hn|]. split; [exact Hd|].
  rewrite format_response_eq.
  set (req := format_request question sql results columns total_count).
  do 2 eexists. split; [reflexivity|].
  destruct (formatted sql results columns (fst (complete req (world p))))
    as [f|e] eqn:E; [left; reflexivity|].
  destruct (fst (complete req (world p))) as [msg|[t|]];
    cbn [Agent.formatted] in E; try discriminate.
  unfold post_process in E.
  destruct (decode_reply results columns (clean_json t))
    as [| | | |s|l|d]; try discriminate.
  - destruct (contains _ s); discriminate.
  - destruct (existsb _ l); discriminate.
  - destruct (clean_text (lift_obj d)) as [f|e1]; [discriminate|].
    destruct (complete_details results columns
                (force_none columns (override_table results columns e1)))
      as [f|e2] eqn:E2; [discriminate|].
    inversion E; subst e. rewrite viz_attach.
    rewrite (@viz_complete_details _ _ _ _ E2).
    pose proof (@force_none_settles columns
                  (override_table results columns e1) Hd) as K.
    apply orb_true_iff in K. destruct K as [K|K];
      apply field_is_str_eq in K; [left|right]; exact K.
Qed.

End CountAlias.

(** The ranking of the prompt's example B, three rows, and a model that
    asks for a bar chart, as the classifier would: the envelope has
    [none]. *)
Lemma count_alias_blocks_charts_witness :
  has_numeric [py "pm"; py "numar"] = true
  /\ is_detail [py "pm"; py "numar"] = true
  /\ exists env p',
       format_response (says chart_reply) ranking_loads plain_wording
         (py "Clasament PM") top_pm_query
         (repeat (dict_of_zip [py "pm"; py "numar"]
                              [CStr (py "Ionescu"); CInt 3]) 3)
         [py "pm"; py "numar"] None fresh
       = (inr env, p')
       /\ (viz_of env = Some (FStr (py "none"))
           \/ viz_of env = Some (FStr (py "table"))).
Proof.
  apply (@count_alias_blocks_charts unit unit (says chart_reply) ranking_loads
           plain_wording (py "Clasament PM") top_pm_query
           (repeat (dict_of_zip [py "pm"; py "numar"]
                                [CStr (py "Ionescu"); CInt 3]) 3)
           [py "pm"; py "numar"] None fresh).
  reflexivity.
Defined.

Example classifier_charts_count_alias :
  _guess_visualization
    (repeat (dict_of_zip [py "pm"; py "numar"] [CStr (py "Ionescu"); CInt 3]) 3)
    [py "pm"; py "numar"] = VizPie.
Proof. reflexivity. Qed.

(** Sixty-one complaints and a reply that names one of them: nothing is
    appended to the text and the rows stay in the envelope. *)
Lemma long_listing_is_left_alone_witness :
  exists env p',
    format_response (says partial_reply) scripted_loads plain_wording
      (py "Ce reclamatii sunt?") detail_sql (repeat (hd [] detail_rows) 61)
      detail_columns None fresh = (inr env, p')
    /\ dget (py "text") env
       = Some (FStr (unescaped (py "Am gasit 2 reclamatii: 97246.")))
    /\ dget (py "data") env
       = match dget (py "data") partial_object with
         | Some j => Some (FJson j)
         | None => Some (FRows (repeat (hd [] detail_rows) 61))
         end
    /\ dget (py "columns") env
       = match dget (py "columns") partial_object with
         | Some j => Some (FJson j)
         | None => Some (FCols detail_columns)
         end.
Proof.
  apply (@long_listing_is_left_alone unit unit (says partial_reply)
           scripted_loads plain_wording (py "Ce reclamatii sunt?") detail_sql
           (repeat (hd [] detail_rows) 61) detail_columns None fresh
           partial_reply partial_object (py "Am gasit 2 reclamatii: 97246.")).
  - reflexivity.
  - vm_compute. reflexivity.
  - reflexivity.
  - rewrite repeat_length. lia.
Defined.
(** ** Rows and the connection *)

Lemma find_over_app : forall A (f : A -> bool) a b,
  find f (a ++ b) = match find f a with
                    | Some x => Some x
                    | None => find f b
                    end.
Proof.
  intros A f a b. induction a as [|x a IH]; [reflexivity|].
  cbn [app find]. destruct (f x); [reflexivity|exact IH].
Qed.

Lemma dget_dset : forall A (k k' : str) (v : A) d,
  dget k (dset k' v d) = if str_eqb k' k then Some v else dget k d.
Proof.
  intros A k k' v d. destruct (str_eqb k' k) eqn:E.
  - apply str_eqb_eq in E. subst. apply dget_dset_same.
  - now apply dget_dset_other.
Qed.

Lemma fold_dset_lookup : forall A (l : list (str * A)) d k,
  dget k (fold_left (fun d kv => dset (fst kv) (snd kv) d) l d)
  = match find (fun kv => str_eqb (fst kv) k) (rev l) with
    | Some kv => Some (snd kv)
    | None => dget k d
    end.
Proof.
  intros A l. induction l as [|[k0 v0] l IH]; intros d k; [reflexivity|].
  cbn [fold_left rev fst snd]. rewrite IH, find_over_app.
  destruct (find (fun kv => str_eqb (fst kv) k) (rev l)); [reflexivity|].
  cbn [find fst]. rewrite dget_dset.
  destruct (str_eqb k0 k); reflexivity.
Qed.

Lemma dset_fresh : forall A (k : str) (v : A) d,
  dget k d = None -> dset k v d = d ++ [(k, v)].
Proof.
  intros A k v d. induction d as [|[k' v'] d IH]; intro H; [reflexivity|].
  cbn [dget] in H. cbn [dset app].
  destruct (str_eqb k' k); [discriminate|]. f_equal. apply IH, H.
Qed.

Lemma dget_app : forall A (k : str) (a b : dict A),
  dget k (a ++ b) = match dget k a with
                    | Some v => Some v
                    | None => dget k b
                    end.
Proof.
  intros A k a b. induction a as [|[k' v'] a IH]; [reflexivity|].
  cbn [app dget]. destruct (str_eqb k' k); [reflexivity|exact IH].
Qed.

Lemma fold_dset_fresh : forall A (l : list (str * A)) d,
  NoDup (map fst l) ->
  (forall kv, In kv l -> dget (fst kv) d = None) ->
  fold_left (fun d kv => dset (fst kv) (snd kv) d) l d = d ++ l.
Proof.
  intros A l. induction l as [|[k0 v0] l IH]; intros d Hnd Hd.
  - cbn. now rewrite app_nil_r.
  - cbn [fold_left fst snd]. cbn [map fst] in Hnd.
    apply NoDup_cons_iff in Hnd. destruct Hnd as [Hk0 Hnd].
    rewrite dset_fresh by (apply (Hd (k0, v0)); now left).
    rewrite IH; [now rewrite <- app_assoc|exact Hnd|].
    intros [k v] Hin. cbn [fst]. rewrite dget_app.
    pose proof (Hd (k, v) (or_intror Hin)) as Hk. cbn [fst] in Hk.
    rewrite Hk. cbn [dget fst].
    destruct (str_eqb k0 k) eqn:E; [|reflexivity].
    apply str_eqb_eq in E. subst. exfalso. apply Hk0.
    apply in_map_iff. exists (k, v). split; [reflexivity|exact Hin].
Qed.

Lemma combine_keys : forall A B (a : list A) (b : list B),
  List.length a = List.length b ->
  map fst (combine a b) = a /\ map snd (combine a b) = b.
Proof.
  intros A B a. induction a as [|x a IH]; intros [|y b] H; try discriminate.
  - split; reflexivity.
  - cbn [combine map fst snd]. injection H as H.
    destruct (IH b H) as [-> ->]. split; reflexivity.
Qed.

(** X19.  Line 120, [dict(zip(columns, row))].  A row maps a column name to the
    value that stands under its last occurrence among the columns: when
    two columns of a result bear the same name, the value of the earlier
    one is lost.  With distinct names and as many values as columns, the
    keys of the row are the columns and its values are the values, in
    order. *)
Theorem rows_keyed_by_columns : forall columns vals,
  (forall k,
     dget k (dict_of_zip columns vals)
     = option_map snd
         (find (fun kv => str_eqb (fst kv) k) (rev (combine columns vals))))
  /\ (NoDup columns -> List.length columns = List.length vals ->
      dkeys (dict_of_zip columns vals) = columns
      /\ dvalues (dict_of_zip columns vals) = vals).
Proof.
  intros columns vals. split.
  - intro k. unfold dict_of_zip. rewrite fold_dset_lookup.
    destruct (find _ (rev (combine columns vals))); reflexivity.
  - intros Hnd Hlen. unfold dict_of_zip, dkeys, dvalues.
    destruct (combine_keys columns vals Hlen) as [Hk Hv].
    rewrite fold_dset_fresh; cbn [app].
    + split; assumption.
    + rewrite Hk. exact Hnd.
    + reflexivity.
Qed.

(** Two columns of the same name: the row has one entry, with the second
    value. *)
Example duplicate_column_overwritten :
  dict_of_zip [py "id"; py "id"] [CInt 1; CInt 2] = [(py "id", CInt 2)].
Proof. reflexivity. Qed.

Section ConnectionFacts.

Variable World : Type.
Variable Conn : Type.
Variable connect : World -> (str + Conn) * World.
Variable execute : Conn -> str -> World -> exec_outcome * World.
Variable wording : fault -> str.

Local Abbreviation get_connection := (get_connection connect).
Local Abbreviation execute_query := (execute_query connect execute wording).
Local Abbreviation reported := (reported wording).
Local Abbreviation true_total := (true_total connect execute wording).

(** X20.  The connection is opened at most once.  After a call of
    [execute_query] that returned, the process holds a connection, and
    every later call runs on that connection: it does not ask the store
    for another one, it returns what the store answers, and it cannot
    raise. *)
Theorem connection_opened_once :
  forall first later (p p1 : process World Conn) r,
    execute_query first p = (inr r, p1) ->
    exists con,
      _connection p1 = Some con
      /\ get_connection p1 = (inr con, p1)
      /\ execute_query later p1
         = (inr (reported (fst (execute con later (world p1)))),
            mkProcess (snd (execute con later (world p1))) (Some con)
                      (requests p1)).
Proof.
  intros first later p p1 r H.
  destruct (execute_query_opens connect execute wording first p H) as [con Hc].
  exists con. split; [exact Hc|].
  assert (G : get_connection p1 = (inr con, p1))
    by (unfold Database.get_connection; rewrite Hc; reflexivity).
  split; [exact G|].
  apply (execute_query_connected connect execute wording later p1 G).
Qed.

(** X13.  Lines 646-652.  A count query that fails, or that returns anything
    but a single row, is passed over in silence: the total stays the
    number of rows that came back. *)
Theorem count_failure_is_ignored :
  forall sql count_sql capped (p : process World Conn) con,
    _connection p = Some con ->
    _extract_count_query sql = Some count_sql ->
    (forall columns r0,
        fst (execute con count_sql (world p))
        <> ExecResult (Some columns) (inr [r0])) ->
    true_total sql capped p
    = (inr capped,
       mkProcess (snd (execute con count_sql (world p))) (Some con) (requests p)).
Proof.
  intros sql count_sql capped p con Hc Hq Hne.
  unfold Agent.true_total. rewrite Hq. unfold bind.
  assert (G : get_connection p = (inr con, p))
    by (unfold Database.get_connection; rewrite Hc; reflexivity).
  rewrite (execute_query_connected connect execute wording count_sql p G).
  unfold Database.reported.
  destruct (fst (execute con count_sql (world p))) as [m|[cols|] [m|rows]] eqn:E;
    cbn [fst]; try reflexivity.
  destruct rows as [|r0 [|r1 rows]]; cbn [map]; try reflexivity.
  exfalso. exact (Hne cols r0 eq_refl).
Qed.

(** X28.  Lines 648-652.  When the count query returns a single row, the
    total is taken from the first value of that row: an integer as it
    is, a boolean as 0 or 1, a finite float cut to its integer part; a
    float that is not finite makes [int] raise; any other value leaves
    the total at the number of rows. *)
Theorem count_value_is_the_total :
  forall sql count_sql capped (p : process World Conn) con columns vals k v more,
    _connection p = Some con ->
    _extract_count_query sql = Some count_sql ->
    fst (execute con count_sql (world p)) = ExecResult (Some columns) (inr [vals]) ->
    dict_of_zip columns vals = (k, v) :: more ->
    true_total sql capped p
    = (match v with
       | CInt z => inr z
       | CBool b => inr (if b then 1 else 0)%Z
       | CFloat _ (Some z) _ => inr z
       | CFloat _ None _ => inl NotAnInteger
       | _ => inr capped
       end,
       mkProcess (snd (execute con count_sql (world p))) (Some con) (requests p)).
Proof.
  intros sql count_sql capped p con columns vals k v more Hc Hq He Hrow.
  unfold Agent.true_total. rewrite Hq. unfold bind.
  assert (G : get_connection p = (inr con, p))
    by (unfold Database.get_connection; rewrite Hc; reflexivity).
  rewrite (execute_query_connected connect execute wording count_sql p G).
  unfold Database.reported. rewrite He. cbn [fst map]. rewrite Hrow.
  cbn [primary]. destruct v as [| | |? [z|] ?| |]; reflexivity.
Qed.

End ConnectionFacts.

Lemma connection_opened_once_witness :
  exists con,
    _connection (mkProcess tt (Some tt) []) = Some con
    /\ get_connection open_store (mkProcess tt (Some tt) [])
       = (inr con, mkProcess tt (Some tt) [])
    /\ execute_query open_store rejecting plain_wording (py "SELECT 2")
         (mkProcess tt (Some tt) [])
       = (inr (reported plain_wording
                 (fst (rejecting con (py "SELECT 2")
                         (world (mkProcess tt (Some tt) []))))),
          mkProcess (snd (rejecting con (py "SELECT 2")
                            (world (mkProcess tt (Some tt) []))))
                    (Some con) (requests (mkProcess tt (Some tt) []))).
Proof.
  apply (@connection_opened_once unit unit open_store rejecting plain_wording
           (py "SELECT 1") (py "SELECT 2") fresh (mkProcess tt (Some tt) [])
           ([], [], Some (py "Parser Error: syntax error"))).
  reflexivity.
Defined.

Lemma count_failure_is_ignored_witness :
  true_total open_store rejecting plain_wording capped_sql 150
             (mkProcess tt (Some tt) [])
  = (inr 150%Z,
     mkProcess (snd (rejecting tt
                       (py "SELECT COUNT(*) as total FROM complaints WHERE raion = 'BUCATARII'")
                       (world (mkProcess tt (Some tt) []))))
               (Some tt) (requests (mkProcess tt (Some tt) []))).
Proof.
  apply (@count_failure_is_ignored unit unit open_store rejecting plain_wording
           capped_sql
           (py "SELECT COUNT(*) as total FROM complaints WHERE raion = 'BUCATARII'")
           150%Z (mkProcess tt (Some tt) []) tt).
  - reflexivity.
  - vm_compute. reflexivity.
  - intros columns r0. discriminate.
Defined.

Lemma count_value_is_the_total_witness :
  true_total open_store capped_store plain_wording capped_sql 150
             (mkProcess tt (Some tt) [])
  = (inr 312%Z,
     mkProcess (snd (capped_store tt
                       (py "SELECT COUNT(*) as total FROM complaints WHERE raion = 'BUCATARII'")
                       (world (mkProcess tt (Some tt) []))))
               (Some tt) (requests (mkProcess tt (Some tt) []))).
Proof.
  apply (@count_value_is_the_total unit unit open_store capped_store
           plain_wording capped_sql
           (py "SELECT COUNT(*) as total FROM complaints WHERE raion = 'BUCATARII'")
           150%Z (mkProcess tt (Some tt) []) tt [py "total"] [CInt 312]
           (py "total") (CInt 312) []).
  - reflexivity.
  - vm_compute. reflexivity.
  - vm_compute. reflexivity.
  - reflexivity.
Defined.
(** ** The chat endpoint *)

Section EndpointFacts.

Variable World : Type.
Variable Conn : Type.
Variable complete : request -> World -> completion * World.
Variable json_loads : str -> option json.
Variable connect : World -> (str + Conn) * World.
Variable execute : Conn -> str -> World -> exec_outcome * World.
Variable wording : fault -> str.
Variable column_order : list str.
Variable validate : envelope -> str + Endpoint.ChatResponse.

Local Abbreviation generate_sql := (@generate_sql World Conn complete wording column_order).
Local Abbreviation chat := (chat complete json_loads connect execute wording column_order).
Local Abbreviation chat_endpoint :=
  (Endpoint.chat_endpoint complete json_loads connect execute wording
                          column_order validate).



End EndpointFacts.

(** ** The ingestion scripts *)

(** X23.  [ingest.py], line 189.  The test that should pass over a document
    without content never holds: the text is compared after [strip], which
    leaves no blank at the end, with a literal that ends in a blank.  No
    row is passed over, whatever its fields. *)
Theorem no_document_is_skipped : forall text,
  Ingest.is_skipped text = false.
Proof.
  intro text. unfold Ingest.is_skipped.
  destruct (str_eqb (strip text)
              (py "MOTIV:  | DESCRIERE:  | OBSERVATII:  | PRODUS: ")) eqn:E;
    [|reflexivity].
  apply str_eqb_eq in E.
  destruct (strip_ends text) as [_ L]. rewrite E in L. discriminate.
Qed.

Lemma app_length_eq : forall (a b : str), a ++ b = a -> b = [].
Proof.
  intros a b H. apply (f_equal (@List.length ascii)) in H.
  rewrite length_app in H. destruct b; [reflexivity|simpl in H; lia].
Qed.

(** X24.  [ingest_fast.py], [prepare_documents].  There the text is compared as
    it is: a row is passed over exactly when its four fields are empty. *)
Theorem blank_documents_are_skipped : forall motiv descriere observatii produs,
  Ingest.fast_is_skipped
    (Ingest.fast_document_text motiv descriere observatii produs) = true
  <-> motiv = [] /\ descriere = [] /\ observatii = [] /\ produs = [].
Proof.
  intros m d o a. unfold Ingest.fast_is_skipped, Ingest.fast_document_text.
  rewrite str_eqb_eq. split.
  - intro H.
    assert (L : List.length m + List.length d + List.length o + List.length a = 0).
    { apply (f_equal (@List.length ascii)) in H.
      rewrite !length_app in H.
      change (List.length (py "MOTIV: ")) with 7 in H.
      change (List.length (py " | DESC: ")) with 9 in H.
      change (List.length (py " | OBS: ")) with 8 in H.
      change (List.length (py " | PROD: ")) with 9 in H.
      change (List.length (py "MOTIV:  | DESC:  | OBS:  | PROD: ")) with 33 in H.
      lia. }
    destruct m; [|simpl in L; lia]. destruct d; [|simpl in L; lia].
    destruct o; [|simpl in L; lia]. destruct a; [|simpl in L; lia].
    auto.
  - intros [-> [-> [-> ->]]]. reflexivity.
Qed.

(** ** Batches *)

Lemma concat_slices : forall A (l : list A) step fuel i,
  0 < step -> List.length l - i <= fuel ->
  List.concat (map (fun i => Ingest.slice l i (i + step))
              (Ingest.range_go fuel i (List.length l) step))
  = skipn i l.
Proof.
  intros A l step fuel. induction fuel as [|fuel IH]; intros i Hs Hf.
  - cbn. symmetry. apply skipn_all2. lia.
  - cbn [Ingest.range_go]. destruct (i <? List.length l) eqn:E.
    + cbn [map List.concat]. rewrite IH by lia.
      unfold Ingest.slice. replace (i + step - i) with step by lia.
      replace (i + step) with (step + i) by lia.
      rewrite <- skipn_skipn. apply firstn_skipn.
    + apply Nat.ltb_ge in E. cbn. symmetry. apply skipn_all2. exact E.
Qed.

Lemma concat_slices_other : forall A (l : list A) n step fuel i,
  0 < step -> n - i <= fuel -> List.length l = n ->
  List.concat (map (fun i => Ingest.slice l i (i + step))
              (Ingest.range_go fuel i n step))
  = skipn i l.
Proof. intros A l n step fuel i Hs Hf <-. now apply concat_slices. Qed.

Lemma range_go_count : forall step fuel i n,
  0 < step -> n - i <= fuel ->
  List.length (Ingest.range_go fuel i n step) = (n - i + step - 1) / step.
Proof.
  intros step fuel. induction fuel as [|fuel IH]; intros i n Hs Hf.
  - cbn. replace (n - i + step - 1) with (step - 1) by lia.
    symmetry. apply Nat.div_small. lia.
  - cbn [Ingest.range_go]. destruct (i <? n) eqn:E.
    + apply Nat.ltb_lt in E. cbn [List.length]. rewrite IH by lia.
      destruct (Nat.le_gt_cases (i + step) n) as [L|L].
      * replace (n - i + step - 1) with ((n - (i + step) + step - 1) + 1 * step)
          by lia.
        rewrite Nat.div_add by lia. lia.
      * replace (n - (i + step) + step - 1) with (step - 1) by lia.
        rewrite (Nat.div_small (step - 1)) by lia.
        replace (n - i + step - 1) with ((n - i - 1) + 1 * step) by lia.
        rewrite Nat.div_add by lia.
        rewrite (Nat.div_small (n - i - 1)) by lia. reflexivity.
    + apply Nat.ltb_ge in E. cbn.
      replace (n - i + step - 1) with (step - 1) by lia.
      symmetry. apply Nat.div_small. lia.
Qed.

Lemma range_go_numbers : forall step fuel k n,
  0 < step ->
  map (fun i => i / step + 1) (Ingest.range_go fuel (k * step) n step)
  = seq (k + 1) (List.length (Ingest.range_go fuel (k * step) n step)).
Proof.
  intros step fuel. induction fuel as [|fuel IH]; intros k n Hs; [reflexivity|].
  cbn [Ingest.range_go]. destruct (k * step <? n); [|reflexivity].
  cbn [map List.length seq]. rewrite Nat.div_mul by lia. f_equal.
  replace (k * step + step) with (S k * step) by lia.
  rewrite IH by exact Hs. reflexivity.
Qed.

Lemma range_go_slices : forall A (l : list A) step fuel i,
  0 < step ->
  Forall (fun j => 1 <= List.length (Ingest.slice l j (j + step)) <= step)
         (Ingest.range_go fuel i (List.length l) step).
Proof.
  intros A l step fuel. induction fuel as [|fuel IH]; intros i Hs; [constructor|].
  cbn [Ingest.range_go]. destruct (i <? List.length l) eqn:E; [|constructor].
  apply Nat.ltb_lt in E. constructor; [|apply IH, Hs].
  unfold Ingest.slice. rewrite length_firstn, length_skipn. lia.
Qed.

(** X25.  The batches of both scripts cut the documents, their metadata and
    their ids into consecutive pieces: put together again, the pieces
    are the lists; every batch holds between 1 and 100 documents; the
    batches are numbered 1, 2, ... in order; and there are as many as
    [total_batches] announces, the number of documents over 100, rounded
    up. *)
Theorem batches_partition : forall T M I (texts : list T) (metadatas : list M)
                                   (ids : list I),
  let bs := Ingest.batches texts metadatas ids in
  List.concat (map (fun b => fst (fst (fst b))) bs) = texts
  /\ (List.length metadatas = List.length texts ->
      List.concat (map (fun b => snd (fst (fst b))) bs) = metadatas)
  /\ (List.length ids = List.length texts ->
      List.concat (map (fun b => snd (fst b)) bs) = ids)
  /\ Forall (fun b => 1 <= List.length (fst (fst (fst b))) <= 100) bs
  /\ map snd bs = seq 1 (List.length bs)
  /\ List.length bs = Ingest.total_batches (List.length texts).
Proof.
  intros T M I texts metadatas ids bs. subst bs.
  unfold Ingest.batches, Ingest.range, Ingest.BATCH_SIZE.
  rewrite !map_map. cbn [fst snd]. rewrite !length_map.
  split; [|split; [|split; [|split; [|split]]]].
  - rewrite concat_slices by lia. reflexivity.
  - intro H. rewrite (@concat_slices_other _ metadatas) by lia. reflexivity.
  - intro H. rewrite (@concat_slices_other _ ids) by lia. reflexivity.
  - apply Forall_map. cbn [fst]. apply range_go_slices. lia.
  - apply (@range_go_numbers 100 (List.length texts) 0 (List.length texts)). lia.
  - rewrite range_go_count by lia. unfold Ingest.total_batches, Ingest.BATCH_SIZE.
    f_equal. lia.
Qed.

(** ** Retries *)

Section RetryFacts.

Variable Service : Type.
Variable Metadata : Type.
Variable Id : Type.
Variable embed_and_add :
  list str -> list Metadata -> list Id -> Service -> (str + unit) * Service.

Local Abbreviation retry_loop := (Ingest.retry_loop embed_and_add).
Local Abbreviation embed_batch_with_retry := (Ingest.embed_batch_with_retry embed_and_add).

Lemma retry_loop_bounded :
  forall (texts : list str) (metadatas : list Metadata) (ids : list Id) batch n a
         (st : Ingest.embedding Service),
    let run := retry_loop (seq a n) (texts, metadatas, ids, batch) st in
    exists k,
      k <= n
      /\ Ingest.slept (snd run)
         = Ingest.slept st ++ map (fun x => (x + 1) * 2) (seq a k)
      /\ match fst run with
         | Ingest.Embedded b c =>
             b = batch /\ c = List.length texts /\ k < n
             /\ Ingest.attempts (snd run) = Ingest.attempts st + k + 1
         | Ingest.Failed b e =>
             b = batch
             /\ ((e = py "Max retries exceeded (rate limit)" /\ k = n
                  /\ Ingest.attempts (snd run) = Ingest.attempts st + n)
                 \/ (k < n
                     /\ Ingest.attempts (snd run) = Ingest.attempts st + k + 1
                     /\ exists msg, Ingest.rate_limited msg = false
                                    /\ e = firstn 100 msg))
         end.
Proof.
  intros texts metadatas ids batch n. induction n as [|n IH]; intros a st run;
    subst run.
  - exists 0. split; [lia|]. split; [cbn; now rewrite app_nil_r|].
    cbn. split; [reflexivity|]. left. repeat split; lia.
  - cbn [seq Ingest.retry_loop].
    destruct (embed_and_add texts metadatas ids (Ingest.service st))
      as [[msg|u] s].
    + destruct (Ingest.rate_limited msg) eqn:E.
      * destruct (IH (S a) (Ingest.mkEmbedding s (S (Ingest.attempts st))
                            (Ingest.slept st ++ [(a + 1) * 2])))
          as [k [Hk [Hs Hr]]].
        exists (S k). split; [lia|]. split.
        { rewrite Hs. cbn [Ingest.slept seq map]. rewrite <- app_assoc.
          reflexivity. }
        destruct (fst (retry_loop (seq (S a) n) (texts, metadatas, ids, batch) _))
          as [b c|b e]; cbn [Ingest.attempts] in Hr.
        { destruct Hr as [-> [-> [Hlt Ha]]].
          split; [reflexivity|]. split; [reflexivity|]. split; lia. }
        { destruct Hr as [-> [[-> [-> Ha]]|[Hlt [Ha Hm]]]];
            (split; [reflexivity|]).
          - left. split; [reflexivity|]. split; lia.
          - right. split; [lia|]. split; [lia|exact Hm]. }
      * exists 0. split; [lia|]. split; [cbn; now rewrite app_nil_r|].
        cbn. split; [reflexivity|]. right. split; [lia|]. split; [lia|].
        exists msg. auto.
    + exists 0. split; [lia|]. split; [cbn; now rewrite app_nil_r|].
      cbn. split; [reflexivity|]. split; [reflexivity|]. split; lia.
Qed.

(** X26.  [embed_batch_with_retry] makes at most [max_retries] attempts.  It
    sleeps after every attempt that was turned away for the rate limit,
    the last one included, 2, 4, 6, ... seconds: the wait grows by 2 with
    every attempt.  An attempt that succeeds or that fails for another
    reason ends the loop at once; the error reported is then cut to 100
    characters.  When every attempt was turned away, the failure says
    that the retries are exhausted. *)
Theorem retries_are_bounded :
  forall (texts : list str) (metadatas : list Metadata) (ids : list Id) batch
         max_retries (st : Ingest.embedding Service),
    let run := embed_batch_with_retry (texts, metadatas, ids, batch)
                                      max_retries st in
    exists k,
      k <= max_retries
      /\ Ingest.slept (snd run)
         = Ingest.slept st ++ map (fun attempt => (attempt + 1) * 2) (seq 0 k)
      /\ Ingest.attempts (snd run) <= Ingest.attempts st + max_retries
      /\ match fst run with
         | Ingest.Embedded b c =>
             b = batch /\ c = List.length texts
             /\ Ingest.attempts (snd run) = Ingest.attempts st + k + 1
         | Ingest.Failed b e =>
             b = batch
             /\ ((e = py "Max retries exceeded (rate limit)" /\ k = max_retries
                  /\ Ingest.attempts (snd run) = Ingest.attempts st + max_retries)
                 \/ (Ingest.attempts (snd run) = Ingest.attempts st + k + 1
                     /\ exists msg, Ingest.rate_limited msg = false
                                    /\ e = firstn 100 msg))
         end.
Proof.
  intros texts metadatas ids batch max_retries st run. subst run.
  unfold Ingest.embed_batch_with_retry.
  destruct (retry_loop_bounded texts metadatas ids batch max_retries 0 st)
    as [k [Hk [Hs Hr]]].
  exists k. split; [exact Hk|]. split; [exact Hs|].
  destruct (fst (retry_loop (seq 0 max_retries) (texts, metadatas, ids, batch) st))
    as [b c|b e].
  - destruct Hr as [-> [-> [Hlt Ha]]]. split; [lia|]. auto.
  - destruct Hr as [-> [[-> [-> Ha]]|[Hlt [Ha Hm]]]].
    + split; [lia|]. split; [reflexivity|]. left. auto.
    + split; [lia|]. split; [reflexivity|]. right. auto.
Qed.

End RetryFacts.

(** A service that turns every attempt away: three attempts, and 2, 4
    and 6 seconds of sleep. *)
Example exhausted_retries :
  Ingest.embed_batch_with_retry
    (fun _ (_ : list unit) (_ : list str) (s : unit) =>
       (inl (py "429 Too Many Requests"), s))
    ([py "MOTIV: defect"], [tt], [py "doc_0"], 1) 3 (Ingest.mkEmbedding tt 0 [])
  = (Ingest.Failed 1 (py "Max retries exceeded (rate limit)"),
     Ingest.mkEmbedding tt 3 [2; 4; 6]).
Proof. reflexivity. Qed.
(** ** The repair of column names *)

Lemma assoc_in : forall k m v,
  assoc k m = Some v -> In k (map fst m) /\ In v (map snd m).
Proof.
  intros k m v. induction m as [|[k' v'] m IH]; [discriminate|].
  cbn [assoc map fst snd]. destruct (str_eqb k' k) eqn:E.
  - intro H. inversion H; subst. apply str_eqb_eq in E. subst.
    split; now left.
  - intro H. destruct (IH H). split; now right.
Qed.

Lemma valid_is_lower : forall v, In v VALID_COLUMNS -> lower v = v.
Proof.
  assert (K : forallb (fun v => str_eqb (lower v) v) VALID_COLUMNS = true)
    by reflexivity.
  rewrite forallb_forall in K. intros v Hv. apply str_eqb_eq, K, Hv.
Qed.

Lemma valid_is_kept : forall order v,
  In (lower v) VALID_COLUMNS -> fix_column_name order v = v.
Proof.
  intros order v H. unfold fix_column_name. cbv zeta.
  assert (E : existsb (str_eqb (lower v)) VALID_COLUMNS = true).
  { apply existsb_exists. exists (lower v). split; [exact H|].
    apply str_eqb_refl. }
  rewrite E. reflexivity.
Qed.

Lemma aliases_are_valid : forall v, In v (map snd name_map) -> In v VALID_COLUMNS.
Proof.
  assert (K : forallb (fun v => existsb (str_eqb v) VALID_COLUMNS)
                      (map snd name_map) = true) by reflexivity.
  rewrite forallb_forall in K. intros v Hv. specialize (K v Hv).
  apply existsb_exists in K. destruct K as [x [Hx E]].
  apply str_eqb_eq in E. now subst.
Qed.

Lemma aliases_are_long : forall k, In k (map fst name_map) -> 6 <= List.length k.
Proof.
  assert (K : forallb (fun k => 6 <=? List.length k) (map fst name_map) = true)
    by reflexivity.
  rewrite forallb_forall in K. intros k Hk. apply Nat.leb_le, K, Hk.
Qed.

Lemma lower_length : forall s, List.length (lower s) = List.length s.
Proof. intros. unfold lower. apply length_map. Qed.

(** X4.  [fix_column_name], for any order in which the set of valid columns
    is gone through.  The result is the word itself or a valid column; a
    word that is a valid column in any case is kept with its case; a word
    of fewer than four characters is kept; and repairing the result again
    changes nothing. *)
Theorem column_repair_range : forall order word,
  incl order VALID_COLUMNS ->
  (fix_column_name order word = word
   \/ In (fix_column_name order word) VALID_COLUMNS)
  /\ (In (lower word) VALID_COLUMNS -> fix_column_name order word = word)
  /\ (List.length word < 4 -> fix_column_name order word = word)
  /\ fix_column_name order (fix_column_name order word)
     = fix_column_name order word.
Proof.
  intros order word Hord.
  assert (R : fix_column_name order word = word
              \/ In (fix_column_name order word) VALID_COLUMNS).
  { unfold fix_column_name. cbv zeta.
    destruct (existsb (str_eqb (lower word)) VALID_COLUMNS); [now left|].
    destruct (find _ order) as [valid|] eqn:F.
    - right. apply find_some in F. apply Hord. tauto.
    - destruct (assoc (lower word) name_map) as [v|] eqn:A; [|now left].
      right. apply aliases_are_valid. apply (@assoc_in _ _ _ A). }
  split; [exact R|]. split; [apply valid_is_kept|]. split.
  - intro Hlen. unfold fix_column_name. cbv zeta.
    destruct (existsb (str_eqb (lower word)) VALID_COLUMNS); [reflexivity|].
    assert (E : (4 <=? List.length word) = false) by (apply Nat.leb_gt; lia).
    rewrite find_nothing by (intros; rewrite E; apply andb_false_r).
    destruct (assoc (lower word) name_map) as [v|] eqn:A; [|reflexivity].
    pose proof (@aliases_are_long _ (proj1 (@assoc_in _ _ _ A))) as L.
    rewrite lower_length in L. lia.
  - destruct R as [R|R]; [rewrite R; exact R|].
    apply valid_is_kept. rewrite valid_is_lower; exact R.
Qed.

(** X5.  A word of at least four characters that is no column but the start
    of exactly one is taken for that column, whatever the order.  The
    keyword DESC and the column descriere are such a pair: this is the
    replacement that the repair of line 265 then has to take back. *)
Theorem unique_prefix_is_completed : forall order word valid,
  In valid order ->
  existsb (str_eqb (lower word)) VALID_COLUMNS = false ->
  4 <= List.length word ->
  startswith (lower word) valid = true ->
  (forall v, In v order -> startswith (lower word) v = true -> v = valid) ->
  fix_column_name order word = valid.
Proof.
  intros order word valid Hin Hno Hlen Hs Huniq.
  unfold fix_column_name. cbv zeta. rewrite Hno.
  apply Nat.leb_le in Hlen.
  destruct (find _ order) as [x|] eqn:F.
  - apply find_some in F. destruct F as [Hx Fx].
    apply andb_true_iff in Fx. apply Huniq; tauto.
  - pose proof (@find_none _ _ _ F valid Hin) as C. cbv beta in C.
    rewrite Hs, Hlen in C. discriminate.
Qed.

Lemma column_repair_range_witness :
  (fix_column_name VALID_COLUMNS (py "motiv_reclam") = py "motiv_reclam"
   \/ In (fix_column_name VALID_COLUMNS (py "motiv_reclam")) VALID_COLUMNS)
  /\ (In (lower (py "motiv_reclam")) VALID_COLUMNS ->
      fix_column_name VALID_COLUMNS (py "motiv_reclam") = py "motiv_reclam")
  /\ (List.length (py "motiv_reclam") < 4 ->
      fix_column_name VALID_COLUMNS (py "motiv_reclam") = py "motiv_reclam")
  /\ fix_column_name VALID_COLUMNS (fix_column_name VALID_COLUMNS (py "motiv_reclam"))
     = fix_column_name VALID_COLUMNS (py "motiv_reclam").
Proof.
  apply (@column_repair_range VALID_COLUMNS (py "motiv_reclam")).
  apply incl_refl.
Defined.

Example truncated_name_is_completed :
  fix_column_name VALID_COLUMNS (py "motiv_reclam") = py "motiv_reclamatie".
Proof. reflexivity. Qed.

Lemma unique_prefix_is_completed_witness :
  fix_column_name VALID_COLUMNS (py "DESC") = py "descriere".
Proof.
  apply (@unique_prefix_is_completed VALID_COLUMNS (py "DESC") (py "descriere")).
  - unfold VALID_COLUMNS. cbn. tauto.
  - reflexivity.
  - vm_compute. lia.
  - reflexivity.
  - intros v Hv Hs. unfold VALID_COLUMNS in Hv. cbn [map In] in Hv.
    repeat (destruct Hv as [<-|Hv]; [try discriminate Hs; try reflexivity|]).
    contradiction.
Defined.

(** ** The FROM repair and the row cap, run again *)

(** ** A reply that does not decode *)

Lemma viz_guessed : forall sql results columns x,
  match post_process sql results columns (guessed x results columns) with
  | inr env =>
      viz_of env = Some (FStr (py "none"))
      \/ viz_of env
         = Some (FStr (viz_name (_guess_visualization results columns)))
  | inl _ => True
  end.
Proof.
  intros sql results columns x. unfold post_process, guessed.
  set (name := viz_name (_guess_visualization results columns)).
  change (clean_text (lift_obj [(py "text", JStr x); (py "visualization", JStr name)]))
    with (@inr fault envelope
            [(py "text", FStr (unescaped x)); (py "visualization", FStr name)]).
  set (e1 := [(py "text", FStr (unescaped x)); (py "visualization", FStr name)]).
  assert (V1 : viz_of (override_table results columns e1) = Some (FStr name)).
  { unfold override_table.
    destruct (field_is_str (py "table") (viz_of e1) && (15 <? List.length results));
      [|reflexivity].
    unfold viz_of. apply dget_dset_same. }
  destruct (complete_details results columns
              (force_none columns (override_table results columns e1)))
    as [f|e2] eqn:E2; rewrite ?E2; [exact I|].
  rewrite viz_attach, (@viz_complete_details _ _ _ _ E2).
  unfold force_none.
  destruct (is_detail columns
            && negb (field_is_str (py "none")
                       (viz_of (override_table results columns e1))
                     || field_is_str (py "table")
                          (viz_of (override_table results columns e1)))).
  - left. unfold viz_of. apply dget_dset_same.
  - right. exact V1.
Qed.

Section Salvage.

Variable World : Type.
Variable Conn : Type.
Variable complete : request -> World -> completion * World.
Variable json_loads : str -> option json.
Variable wording : fault -> str.

Local Abbreviation format_response := (@format_response World Conn complete json_loads wording).
Local Abbreviation decode_reply := (decode_reply json_loads).
Local Abbreviation formatted := (formatted json_loads).

(** X18.  Lines 437-470.  When the decoder rejects the cleaned reply and every
    piece of it, the reply is salvaged: the text is cut out of it by the
    patterns, or is the sentence that counts the results, and the
    visualization is the classifier's.  Whatever visualization the reply
    named is not used: the envelope has the classifier's choice, or
    [none]. *)
Theorem undecodable_reply_is_salvaged :
  forall question sql results columns total_count (p : process World Conn) t,
    fst (complete (format_request question sql results columns total_count)
                  (world p)) = Replies (Some t) ->
    json_loads (clean_json t) = None ->
    (forall i n, json_loads (firstn n (skipn i (clean_json t))) = None) ->
    (exists text, decode_reply results columns (clean_json t)
                  = guessed text results columns)
    /\ exists env p',
         format_response question sql results columns total_count p = (inr env, p')
         /\ (viz_of env = Some (FStr (py "none"))
             \/ viz_of env
                = Some (FStr (viz_name (_guess_visualization results columns)))).
Proof.
  intros question sql results columns total_count p t Hc Hj Hsub.
  assert (D : exists text, decode_reply results columns (clean_json t)
                           = guessed text results columns).
  { unfold Agent.decode_reply. rewrite Hj.
    assert (S : exists text, salvage results columns (clean_json t)
                             = guessed text results columns).
    { unfold salvage.
      destruct (search TEXT_RE (clean_json t)) as [[[i n] g]|];
        [eexists; reflexivity|].
      destruct (strip (strip_quote (strip _))); eexists; reflexivity. }
    destruct (search OBJECT_RE (clean_json t)) as [[[i n] g]|];
      [rewrite Hsub|]; exact S. }
  split; [exact D|]. destruct D as [text D].
  rewrite format_response_eq. cbv zeta. rewrite Hc.
  cbn [Agent.formatted]. rewrite D.
  do 2 eexists. split; [reflexivity|].
  pose proof (viz_guessed sql results columns text) as V.
  destruct (post_process sql results columns (guessed text results columns));
    [left; reflexivity|exact V].
Qed.

End Salvage.

(** A reply that was cut off and names a line chart: the text is
    recovered and the visualization is the classifier's bar chart. *)
Lemma undecodable_reply_is_salvaged_witness :
  (exists text, decode_reply no_loads (ranking_rows 16) ranking_columns
                  (clean_json cut_reply)
                = guessed text (ranking_rows 16) ranking_columns)
  /\ exists env p',
       format_response (says cut_reply) no_loads plain_wording
         (py "Clasament PM") ranking_sql (ranking_rows 16) ranking_columns
         None fresh = (inr env, p')
       /\ (viz_of env = Some (FStr (py "none"))
           \/ viz_of env
              = Some (FStr (viz_name (_guess_visualization (ranking_rows 16)
                                        ranking_columns)))).
Proof.
  apply (@undecodable_reply_is_salvaged unit unit (says cut_reply) no_loads
           plain_wording (py "Clasament PM") ranking_sql (ranking_rows 16)
           ranking_columns None fresh cut_reply); reflexivity.
Defined.

Example cut_reply_recovered :
  fst (format_response (says cut_reply) no_loads plain_wording
         (py "Clasament PM") ranking_sql (ranking_rows 2) ranking_columns
         None fresh)
  = inr [ (py "text", FStr (py "Clasament"));
          (py "visualization", FStr (py "pie_chart"));
          (py "data", FRows (ranking_rows 2));
          (py "columns", FCols ranking_columns);
          (py "sql", FStr ranking_sql);
          (py "row_count", FNat 2) ].
Proof. vm_compute. reflexivity. Qed.
(** ** The statistics of the formatting prompt *)

Lemma str_eqb_sym : forall a b, str_eqb a b = str_eqb b a.
Proof.
  intros a b. destruct (str_eqb a b) eqn:E.
  - apply str_eqb_eq in E. subst. symmetry. apply str_eqb_refl.
  - symmetry. apply str_eqb_neq. apply str_eqb_neq in E. congruence.
Qed.

Lemma tally_lookup : forall xs acc k,
  dget k (tally xs acc) = bump (dget k acc) (occurrences k xs).
Proof.
  induction xs as [|x xs IH]; intros acc k.
  - cbn. destruct (dget k acc); cbn; [f_equal; lia|reflexivity].
  - cbn [tally]. rewrite IH. unfold occurrences. cbn [filter].
    rewrite (str_eqb_sym k x).
    destruct (dget x acc) as [n|] eqn:Ex.
    + rewrite dget_dset. destruct (str_eqb x k) eqn:E.
      * apply str_eqb_eq in E. subst k. rewrite Ex. cbn [List.length bump].
        f_equal. lia.
      * reflexivity.
    + rewrite dget_app. cbn [dget]. destruct (str_eqb x k) eqn:E.
      * apply str_eqb_eq in E. subst k. rewrite Ex. cbn [List.length bump].
        f_equal.
      * destruct (dget k acc); reflexivity.
Qed.

Lemma dget_none_keys : forall A (k : str) (d : dict A),
  dget k d = None -> ~ In k (map fst d).
Proof.
  intros A k d. induction d as [|[k' v] d IH]; intros H C; [contradiction|].
  cbn [dget] in H. cbn [map fst In] in C. destruct (str_eqb k' k) eqn:E;
    [discriminate|].
  destruct C as [C|C]; [subst; rewrite str_eqb_refl in E; discriminate|].
  exact (IH H C).
Qed.

Lemma dset_keys : forall A (k : str) (v w : A) (d : dict A),
  dget k d = Some w -> map fst (dset k v d) = map fst d.
Proof.
  intros A k v w d. induction d as [|[k' v'] d IH]; intro H; [discriminate|].
  cbn [dget] in H. cbn [dset]. destruct (str_eqb k' k); [reflexivity|].
  cbn [map fst]. f_equal. apply IH, H.
Qed.

Lemma tally_keys : forall xs acc,
  NoDup (map fst acc) -> NoDup (map fst (tally xs acc)).
Proof.
  induction xs as [|x xs IH]; intros acc H; [exact H|].
  cbn [tally]. apply IH. destruct (dget x acc) as [n|] eqn:Ex.
  - rewrite (@dset_keys _ x (S n) n acc Ex). exact H.
  - rewrite map_app. cbn [map fst].
    apply NoDup_app; [exact H|repeat constructor; intros []|].
    intros a Ha [<-|[]]. exact (dget_none_keys _ _ Ex Ha).
Qed.

Lemma in_dget : forall A (k : str) (v : A) (d : dict A),
  NoDup (map fst d) -> (In (k, v) d <-> dget k d = Some v).
Proof.
  intros A k v d. induction d as [|[k' v'] d IH]; intro H.
  - split; [contradiction|discriminate].
  - cbn [map fst] in H. apply NoDup_cons_iff in H. destruct H as [Hk H].
    cbn [In dget]. destruct (str_eqb k' k) eqn:E.
    + apply str_eqb_eq in E. subst k'. split.
      * intros [C|C]; [now inversion C|].
        exfalso. apply Hk. apply in_map_iff. exists (k, v). auto.
      * intro C. left. congruence.
    + rewrite <- (IH H). split; [|tauto].
      intros [C|C]; [|exact C]. inversion C; subst.
      rewrite str_eqb_refl in E. discriminate.
Qed.

Lemma in_insert_by_count : forall e l x,
  In x (insert_by_count e l) <-> x = e \/ In x l.
Proof.
  intros e l x. induction l as [|e' l IH]; cbn [insert_by_count In].
  - intuition congruence.
  - destruct (snd e' <? snd e); cbn [In]; [intuition congruence|].
    rewrite IH. intuition congruence.
Qed.

Lemma in_sorted_by_count : forall l acc x,
  In x (fold_left (fun acc e => insert_by_count e acc) l acc)
  <-> In x l \/ In x acc.
Proof.
  induction l as [|e l IH]; intros acc x; cbn [fold_left In]; [tauto|].
  rewrite IH, in_insert_by_count. intuition congruence.
Qed.

Lemma falling_cons2 : forall a b t,
  falling (a :: b :: t) = (b <=? a) && falling (b :: t).
Proof. reflexivity. Qed.

Lemma falling_insert : forall e l,
  falling (map snd l) = true ->
  falling (map snd (insert_by_count e l)) = true.
Proof.
  intros e l. induction l as [|e' l IH]; intro H; [reflexivity|].
  cbn [insert_by_count]. destruct (snd e' <? snd e) eqn:E.
  - apply Nat.ltb_lt in E. cbn [map] in *. rewrite falling_cons2, H.
    assert (L : (snd e' <=? snd e) = true) by (apply Nat.leb_le; lia).
    rewrite L. reflexivity.
  - apply Nat.ltb_ge in E.
    assert (L : (snd e <=? snd e') = true) by (apply Nat.leb_le; lia).
    destruct l as [|e2 l].
    + cbn [insert_by_count map]. rewrite falling_cons2, L. reflexivity.
    + cbn [map] in H. rewrite falling_cons2 in H.
      apply andb_true_iff in H. destruct H as [H1 H2].
      specialize (IH H2). cbn [insert_by_count] in *.
      destruct (snd e2 <? snd e); cbn [map] in *; rewrite falling_cons2.
      * rewrite L. exact IH.
      * rewrite H1. exact IH.
Qed.

Lemma falling_sorted_by_count : forall l acc,
  falling (map snd acc) = true ->
  falling (map snd (fold_left (fun acc e => insert_by_count e acc) l acc)) = true.
Proof.
  induction l as [|e l IH]; intros acc H; [exact H|].
  cbn [fold_left]. apply IH, falling_insert, H.
Qed.

(** X29.  Lines 361-368.  The statistics handed to the model with the
    results are right: they are computed when a column name contains
    magazin and there is more than one row; they hold an entry for a shop
    exactly when some row has it (as a value that is present and true),
    with the number of such rows; and the entries come by falling
    count. *)
Theorem shop_statistics_are_counts : forall results columns stats,
  shop_stats results columns = Some stats ->
  exists mag_col,
    find (fun c => contains (py "magazin") (lower c)) columns = Some mag_col
    /\ 1 < List.length results
    /\ (forall shop n,
          In (shop, n) stats
          <-> 0 < n /\ n = occurrences shop (shop_values mag_col results))
    /\ falling (map snd stats) = true.
Proof.
  intros results columns stats. unfold shop_stats.
  destruct (find (fun c => contains (py "magazin") (lower c)) columns)
    as [mag_col|]; [|discriminate].
  destruct (negb (str_eqb mag_col []) && (1 <? List.length results)) eqn:E;
    [|discriminate].
  intro H. inversion H; subst stats; clear H.
  exists mag_col. split; [reflexivity|].
  apply andb_true_iff in E. destruct E as [_ E]. apply Nat.ltb_lt in E.
  split; [exact E|]. fold (shop_values mag_col results).
  unfold most_common. split.
  - intros shop n. rewrite in_sorted_by_count.
    assert (K : In (shop, n) (tally (shop_values mag_col results) [])
                <-> 0 < n /\ n = occurrences shop (shop_values mag_col results)).
    { rewrite in_dget by (apply tally_keys; constructor).
      rewrite tally_lookup. cbn [dget bump].
      destruct (occurrences shop (shop_values mag_col results)) as [|c].
      - split; [discriminate|lia].
      - split; [intro C; inversion C; lia|intros [_ ->]; reflexivity]. }
    rewrite K. cbn [In]. tauto.
  - apply falling_sorted_by_count. reflexivity.
Qed.

Lemma shop_statistics_are_counts_witness :
  exists mag_col,
    find (fun c => contains (py "magazin") (lower c)) detail_columns = Some mag_col
    /\ 1 < List.length detail_rows
    /\ (forall shop n,
          In (shop, n) [(py "Brasov", 1); (py "Militari", 1)]
          <-> 0 < n /\ n = occurrences shop (shop_values mag_col detail_rows))
    /\ falling (map snd [(py "Brasov", 1); (py "Militari", 1)]) = true.
Proof.
  apply (@shop_statistics_are_counts detail_rows detail_columns
           [(py "Brasov", 1); (py "Militari", 1)]).
  reflexivity.
Defined.
